(** * The Dataform command line: a shallow embedding of [cli/index.ts]

    The [run] and [test] commands of the CLI are embedded as functions of the
    parsed arguments and of the answers of the collaborators they call
    (compiler, credentials store, execution-graph builder, unit-test runner,
    runner).  Every call and every line printed is recorded in a trace, so
    that statements such as "nothing was dispatched" are statements about
    that trace. *)

From Stdlib Require Import ZArith List String Ascii Bool Lia.
From stdpp Require Import gmap strings list pretty.
Import ListNotations.

Local Open Scope string_scope.
Local Open Scope Z_scope.

#[local] Set Warnings "-clear-no-such-hyp".

(** ** JavaScript values as the source uses them *)

Module Js.

(** [String.prototype.split] with a one-character separator: the empty
    string splits into one empty piece, and [n] separators give [n + 1]
    pieces. *)
Fixpoint split (sep : ascii) (s : string) : list string :=
  match s with
  | EmptyString => [EmptyString]
  | String c rest =>
      if Ascii.eqb c sep then EmptyString :: split sep rest
      else match split sep rest with
           | [] => [String c EmptyString]
           | piece :: pieces => String c piece :: pieces
           end
  end.

(** [Array.prototype.flat] on an array of arrays (depth one). *)
Definition flat {A : Type} (xss : list (list A)) : list A := List.concat xss.

(** [Array.prototype.join]. *)
Definition join (sep : string) (xs : list string) : string := String.concat sep xs.

(** Truthiness of the values the options can take. *)
Definition truthy_bool (b : option bool) : bool :=
  match b with Some true => true | _ => false end.

(** An array is an object: it is truthy even when it is empty. *)
Definition truthy_array {A : Type} (xs : option (list A)) : bool :=
  match xs with Some _ => true | None => false end.

Definition truthy_string (s : option string) : bool :=
  match s with
  | Some EmptyString => false
  | Some _ => true
  | None => false
  end.

Definition truthy_number (n : option Z) : bool :=
  match n with Some 0 => false | Some _ => true | None => false end.

(** A string in which the separator does not occur. *)
Fixpoint free_of (sep : ascii) (s : string) : bool :=
  match s with
  | EmptyString => true
  | String c rest => negb (Ascii.eqb c sep) && free_of sep rest
  end.

Definition comma : ascii := ","%char.
Definition newline : string := String (ascii_of_nat 10) EmptyString.

End Js.

(** ** Option declarations *)

Definition projectDirOption_name := "project-dir".
Definition fullRefreshOption_name := "full-refresh".
Definition actionsOption_name := "actions".
Definition tagsOption_name := "tags".
Definition includeDepsOption_name := "include-deps".
Definition includeDependentsOption_name := "include-dependents".
Definition credentialsOption_name := "credentials".
Definition jsonOutputOption_name := "json".
Definition timeoutOption_name := "timeout".
Definition jobPrefixOption_name := "job-prefix".
Definition dryRunOptionName := "dry-run".
Definition runTestsOptionName := "run-tests".
Definition actionRetryLimitName := "action-retry-limit".

(** ** Messages of the protocol buffers the CLI reads *)

Record Target := {
  database : string;
  schema : string;
  name : string;
  include_dependent_assertions : bool
}.

Module CompilationError.
Record t := {
  file_name : string;
  action_name : string;
  message : string;
  stack : string
}.
End CompilationError.

Module GraphErrors.
Record t := { compilation_errors : list CompilationError.t }.
End GraphErrors.

Module Test.
Record t := {
  name : string;
  test_query : string;
  expected_output_query : string;
  file_name : string
}.
End Test.

(** [ProjectConfig], restricted to the fields
    [constructProjectConfigOverride] may set; an absent key is [None]. *)
Module ProjectConfig.
Record t := {
  defaultDatabase : option string;
  defaultSchema : option string;
  defaultLocation : option string;
  assertionSchema : option string;
  vars : option (gmap string (option string));
  databaseSuffix : option string;
  schemaSuffix : option string;
  tablePrefix : option string
}.
End ProjectConfig.

(** [CompiledGraph]: the CLI reads [tests] and [graphErrors] and hands the
    rest, here the list of targets, to the builder untouched. *)
Module CompiledGraph.
Record t := {
  targets : list Target;
  tests : list Test.t;
  graphErrors : option GraphErrors.t
}.
End CompiledGraph.

(** Modelled from the spec: the status of an action (the execution protocol
    buffers are not among the sources): PENDING, RUNNING, SUCCESSFUL, FAILED,
    SKIPPED, CANCELLED. *)
Inductive ExecutionStatus :=
  PENDING | RUNNING | SUCCESSFUL | FAILED | SKIPPED | CANCELLED.

Definition ExecutionStatus_eqb (a b : ExecutionStatus) : bool :=
  match a, b with
  | PENDING, PENDING | RUNNING, RUNNING | SUCCESSFUL, SUCCESSFUL
  | FAILED, FAILED | SKIPPED, SKIPPED | CANCELLED, CANCELLED => true
  | _, _ => false
  end.

(** Modelled from the spec: an execution action is built from one compiled
    action and adds a status and the resolved statement sequence. *)
Module ExecutionAction.
Record t := {
  target : Target;
  status : ExecutionStatus;
  statements : list string
}.
End ExecutionAction.

(** The execution graph, as far as the CLI reads it: its actions. *)
Module ExecutionGraph.
Record t := { actions : list ExecutionAction.t }.
End ExecutionGraph.

(** An action of a run result: the CLI reads its target and its status. *)
Module ActionResult.
Record t := { target : Target; status : ExecutionStatus }.
End ActionResult.

(** A run result: the overall status and the actions. *)
Module RunResult.
Record t := { status : ExecutionStatus; actions : list ActionResult.t }.
End RunResult.

(** The outcome of a unit test: the CLI reads [successful]. *)
Module TestResult.
Record t := { name : string; successful : bool; messages : list string }.
End TestResult.

(** The credentials read from disk, and the adapter built from them. *)
Module Credentials.
Record t := { projectId : string; location : string }.
End Credentials.

Record BigQueryDbAdapter := { adapter_credentials : Credentials.t }.

(** A thrown [Error]. *)
Record JsError := { error_name : string; error_message : string }.

Definition new_Error (message : string) : JsError :=
  {| error_name := "Error"; error_message := message |}.

(** ** Parsed arguments

    [argv] after yargs applied defaults and [coerce]: a boolean option
    without a default is [undefined] ([None]) when it is not supplied, an
    array option is an array (possibly empty) when it is supplied. *)
Module Argv.
Record t := {
  projectDir : string;
  dryRun : option bool;
  runTests : option bool;
  actionRetryLimit : Z;
  actions : option (list string);
  credentials : string;
  fullRefresh : bool;
  includeDeps : option bool;
  includeDependents : option bool;
  json : bool;
  timeout : option Z;
  tags : option (list string);
  jobPrefix : option string;
  defaultDatabase : option string;
  defaultSchema : option string;
  defaultLocation : option string;
  assertionSchema : option string;
  vars : gmap string (option string);
  databaseSuffix : option string;
  schemaSuffix : option string;
  tablePrefix : option string
}.
End Argv.

(** The argument of [compile]. *)
Module CompileOptions.
Record t := {
  projectDir : string;
  projectConfigOverride : ProjectConfig.t;
  timeoutMillis : option Z
}.
End CompileOptions.

(** The second argument of [build]. *)
Module RunConfig.
Record t := {
  fullRefresh : bool;
  actions : option (list string);
  includeDependencies : option bool;
  includeDependents : option bool;
  tags : option (list string)
}.
End RunConfig.

(** The [bigquery] member of the third argument of [run]; a key that was
    not spread into the object is [None]. *)
Module BigqueryOptions.
Record t := {
  actionRetryLimit : Z;
  dryRun : option bool;
  jobPrefix : option string
}.
End BigqueryOptions.

(** ** Completions, the trace and the collaborators *)

Inductive Completion (A : Type) : Type :=
| Returned (a : A)
| Thrown (e : JsError).
Arguments Returned {A} a.
Arguments Thrown {A} e.

(** What the runner delivers: the snapshots passed to the [onChange]
    callback, in order, and what [result()] resolves to. *)
Module Runner.
Record t := {
  changes : list RunResult.t;
  result : Completion RunResult.t
}.
End Runner.

(** Everything the commands do to the outside, in the order they do it. *)
Inductive Event :=
| print (text : string)
| printSuccess (text : string)
| printError (text : string)
| printCompiledGraphErrors (graphErrors : option GraphErrors.t)
| printExecutionGraph (executionGraph : ExecutionGraph.t) (asJson : bool)
| printTestResult (testResult : TestResult.t)
| printExecutedAction (executedAction : ActionResult.t)
    (executionAction : option ExecutionAction.t) (dryRun : option bool)
| call_compile (options : CompileOptions.t)
| call_credentials_read (path : string)
| call_build (compiledGraph : CompiledGraph.t) (runConfig : RunConfig.t)
    (dbadapter : BigQueryDbAdapter)
| call_test (dbadapter : BigQueryDbAdapter) (tests : list Test.t)
| call_run (dbadapter : BigQueryDbAdapter) (executionGraph : ExecutionGraph.t)
    (bigquery : BigqueryOptions.t)
| on_SIGINT
| runner_onChange
| await_result (runResult : RunResult.t).

(** The functions imported from the rest of the repository and from the
    runtime; the commands are embedded relative to their answers. *)
Record Collaborators := {
  actuallyResolve : list string -> string;
  assertPathExists : string -> Completion unit;
  path_resolve : string -> string -> string;
  fs_existsSync : string -> bool;
  targetAsReadableString : Target -> string;
  compile : CompileOptions.t -> Completion CompiledGraph.t;
  credentials_read : string -> Completion Credentials.t;
  build : CompiledGraph.t -> RunConfig.t -> BigQueryDbAdapter
          -> Completion ExecutionGraph.t;
  test : BigQueryDbAdapter -> list Test.t -> Completion (list TestResult.t);
  run : BigQueryDbAdapter -> ExecutionGraph.t -> BigqueryOptions.t -> Runner.t
}.

(** Modelled from the spec: [compiledGraphHasErrors] (in df/cli/util, not
    among the sources) holds when any compilation error is present. *)
Definition compiledGraphHasErrors (graph : CompiledGraph.t) : bool :=
  match CompiledGraph.graphErrors graph with
  | Some errors => negb (Nat.eqb (length (GraphErrors.compilation_errors errors)) 0)
  | None => false
  end.

(** A computation: how it completes and the events it leaves. *)
Definition Eff (A : Type) : Type := (Completion A * list Event)%type.

Definition ret {A : Type} (a : A) : Eff A := (Returned a, []).

Definition bind {A B : Type} (m : Eff A) (k : A -> Eff B) : Eff B :=
  match m with
  | (Returned a, before) =>
      let '(completion, after) := k a in (completion, before ++ after)%list
  | (Thrown e, before) => (Thrown e, before)
  end.

Definition emit (e : Event) : Eff unit := (Returned tt, [e]).

(** A call to a collaborator: the call is recorded, then it completes. *)
Definition call {A : Type} (e : Event) (answer : Completion A) : Eff A :=
  (answer, [e]).

(** A check or any other silent step that may throw. *)
Definition silently {A : Type} (answer : Completion A) : Eff A := (answer, []).

Definition when (b : bool) (m : Eff unit) : Eff unit := if b then m else ret tt.

Definition forEach {A : Type} (xs : list A) (f : A -> Event) : Eff unit :=
  (Returned tt, map f xs).

Declare Scope eff_scope.
Delimit Scope eff_scope with eff.
Notation "x <- m ;; k" := (bind m (fun x => k))
  (at level 100, m at next level, right associativity) : eff_scope.
Notation "m ;; k" := (bind m (fun _ => k))
  (at level 100, right associativity) : eff_scope.

(** ** The coercion of [--actions] and [--tags]

    [coerce] is applied when the option is supplied, to the array of its
    values.  Both options are declared [type: "array"] and nothing more, so
    the elements of the array reach [coerce] as the argument parser read
    them: a token that looks like a number ([1], [2024]) arrives as a
    number, any other token ([a], [1,2], [my_table]) as a string. *)
Inductive Value :=
| v_string (s : string)
| v_number (n : Z)
| v_boolean (b : bool).

Definition TypeError (message : string) : JsError :=
  {| error_name := "TypeError"; error_message := message |}.

(** [receiver.split(sep)] on an element: only a string has the method,
    so that the call throws on a number or a boolean, whichever it is. *)
Definition Value_split (receiver : string) (sep : ascii) (value : Value)
  : Completion (list string) :=
  match value with
  | v_string s => Returned (Js.split sep s)
  | v_number _ | v_boolean _ =>
      Thrown (TypeError (receiver ++ ".split is not a function"))
  end.

(** [Array.prototype.map] with a callback that may throw: the elements are
    visited in order and the first exception ends the traversal. *)
Fixpoint Array_map {A B : Type} (callback : A -> Completion B) (xs : list A)
  : Completion (list B) :=
  match xs with
  | [] => Returned []
  | x :: rest =>
      match callback x with
      | Thrown e => Thrown e
      | Returned y =>
          match Array_map callback rest with
          | Thrown e => Thrown e
          | Returned ys => Returned (y :: ys)
          end
      end
  end.

(** [actionsOption.option.coerce]:
    [rawActions.map(actions => actions.split(",")).flat()]. *)
Definition actionsOption_coerce (rawActions : list Value) : Completion (list string) :=
  match Array_map (fun actions => Value_split "actions" Js.comma actions) rawActions with
  | Thrown e => Thrown e
  | Returned pieces => Returned (Js.flat pieces)
  end.

(** [tagsOption.option.coerce]:
    [rawTags.map(tags => tags.split(",")).flat()]. *)
Definition tagsOption_coerce (rawTags : list Value) : Completion (list string) :=
  match Array_map (fun tags => Value_split "tags" Js.comma tags) rawTags with
  | Thrown e => Thrown e
  | Returned pieces => Returned (Js.flat pieces)
  end.

(** ** Option checks *)

Section Commands.

Variable c : Collaborators.

Local Open Scope eff_scope.

(** [projectDirMustExistOption.check]. *)
Definition projectDirMustExistOption_check (argv : Argv.t) : Completion unit :=
  match assertPathExists c (Argv.projectDir argv) with
  | Thrown e => Thrown e
  | Returned _ =>
      let dataformJsonPath := path_resolve c (Argv.projectDir argv) "dataform.json" in
      let workflowSettingsYamlPath :=
        path_resolve c (Argv.projectDir argv) "workflow_settings.yaml" in
      if negb (fs_existsSync c dataformJsonPath)
         && negb (fs_existsSync c workflowSettingsYamlPath)
      then Thrown (new_Error
             (Argv.projectDir argv
              ++ " does not appear to be a dataform directory (missing workflow_settings.yaml file)."))
      else Returned tt
  end.

(** [includeDepsOption.check]. *)
Definition includeDepsOption_check (argv : Argv.t) : Completion unit :=
  if Js.truthy_bool (Argv.includeDeps argv)
     && negb (Js.truthy_array (Argv.actions argv) || Js.truthy_array (Argv.tags argv))
  then Thrown (new_Error
         ("The --" ++ includeDepsOption_name
          ++ " flag should only be supplied along with --" ++ actionsOption_name
          ++ " or --" ++ tagsOption_name ++ "."))
  else Returned tt.

(** [includeDependentsOption.check]. *)
Definition includeDependentsOption_check (argv : Argv.t) : Completion unit :=
  if Js.truthy_bool (Argv.includeDependents argv)
     && negb (Js.truthy_array (Argv.actions argv) || Js.truthy_array (Argv.tags argv))
  then Thrown (new_Error
         ("The --" ++ includeDependentsOption_name
          ++ " flag should only be supplied along with --" ++ actionsOption_name
          ++ " or --" ++ tagsOption_name ++ "."))
  else Returned tt.

Definition getCredentialsPath (projectDir credentialsPath : string) : string :=
  actuallyResolve c [projectDir; credentialsPath].

(** [credentialsOption.check] only computes the path. *)
Definition credentialsOption_check (argv : Argv.t) : Completion unit :=
  let _ := getCredentialsPath (Argv.projectDir argv) (Argv.credentials argv) in
  Returned tt.

(** The character class [[a-zA-Z_0-9]]. *)
Definition word_char (ch : ascii) : bool :=
  let n := nat_of_ascii ch in
  ((97 <=? n) && (n <=? 122) || (65 <=? n) && (n <=? 90)
   || (n =? 95) || (48 <=? n) && (n <=? 57))%nat.

(** [/^[a-zA-Z_0-9]+$/.test(s)]. *)
Definition only_word_chars (s : string) : bool :=
  match s with
  | EmptyString => false
  | _ => forallb word_char (list_ascii_of_string s)
  end.

(** [ProjectConfigOptions.schemaSuffix.check]. *)
Definition schemaSuffix_check (argv : Argv.t) : Completion unit :=
  match Argv.schemaSuffix argv with
  | Some suffix =>
      if Js.truthy_string (Some suffix) && negb (only_word_chars suffix)
      then Thrown (new_Error
             ("--schema-suffix should contain only "
              ++ "alphanumeric characters and/or underscores."))
      else Returned tt
  | None => Returned tt
  end.

(** [variables[key] = value] on the plain object [variables], whose own
    keys the map holds.  [__proto__] is not stored: the name is that of the
    accessor inherited from [Object.prototype], whose setter ignores a
    value that is neither an object nor [null], as a string and
    [undefined] are.  Any other key becomes, or stays, an own key. *)
Definition set_variable (variables : gmap string (option string))
    (key : string) (value : option string) : gmap string (option string) :=
  if String.eqb key "__proto__" then variables else <[ key := value ]> variables.

(** [ProjectConfigOptions.vars.option.coerce]. *)
Definition vars_coerce (rawVarsString : option string) : gmap string (option string) :=
  match rawVarsString with
  | None => ∅
  | Some raw =>
      foldl (fun variables keyValueStr =>
               let parts := Js.split "=" keyValueStr in
               set_variable variables (hd EmptyString parts) (parts !! 1%nat))
            ∅ (Js.split Js.comma raw)
  end.

(** [if (argv[k]) { projectConfigOptions.k = argv[k]; }]. *)
Definition set_if_truthy (value : option string) : option string :=
  if Js.truthy_string value then value else None.

(** [ProjectConfigOptions.constructProjectConfigOverride]; [vars] is an
    object and therefore always copied. *)
Definition constructProjectConfigOverride (argv : Argv.t) : ProjectConfig.t :=
  {| ProjectConfig.defaultDatabase := set_if_truthy (Argv.defaultDatabase argv);
     ProjectConfig.defaultSchema := set_if_truthy (Argv.defaultSchema argv);
     ProjectConfig.defaultLocation := set_if_truthy (Argv.defaultLocation argv);
     ProjectConfig.assertionSchema := set_if_truthy (Argv.assertionSchema argv);
     ProjectConfig.vars := Some (Argv.vars argv);
     ProjectConfig.databaseSuffix := set_if_truthy (Argv.databaseSuffix argv);
     ProjectConfig.schemaSuffix := set_if_truthy (Argv.schemaSuffix argv);
     ProjectConfig.tablePrefix := set_if_truthy (Argv.tablePrefix argv) |}.

(** The object literal passed to [compile] by [run] and [test]. *)
Definition compileOptions (argv : Argv.t) : CompileOptions.t :=
  {| CompileOptions.projectDir := Argv.projectDir argv;
     CompileOptions.projectConfigOverride := constructProjectConfigOverride argv;
     CompileOptions.timeoutMillis :=
       if Js.truthy_number (Argv.timeout argv) then Argv.timeout argv else None |}.

(** The object literal passed to [build]. *)
Definition runConfig (argv : Argv.t) : RunConfig.t :=
  {| RunConfig.fullRefresh := Argv.fullRefresh argv;
     RunConfig.actions := Argv.actions argv;
     RunConfig.includeDependencies := Argv.includeDeps argv;
     RunConfig.includeDependents := Argv.includeDependents argv;
     RunConfig.tags := Argv.tags argv |}.

(** [bigqueryOptions], after the two conditional spreads. *)
Definition bigqueryOptions (argv : Argv.t) : BigqueryOptions.t :=
  let options :=
    {| BigqueryOptions.actionRetryLimit := Argv.actionRetryLimit argv;
       BigqueryOptions.dryRun := None;
       BigqueryOptions.jobPrefix := None |} in
  let options :=
    if Js.truthy_bool (Argv.dryRun argv)
    then {| BigqueryOptions.actionRetryLimit := BigqueryOptions.actionRetryLimit options;
            BigqueryOptions.dryRun := Argv.dryRun argv;
            BigqueryOptions.jobPrefix := BigqueryOptions.jobPrefix options |}
    else options in
  if Js.truthy_string (Argv.jobPrefix argv)
  then {| BigqueryOptions.actionRetryLimit := BigqueryOptions.actionRetryLimit options;
          BigqueryOptions.dryRun := BigqueryOptions.dryRun options;
          BigqueryOptions.jobPrefix := Argv.jobPrefix argv |}
  else options.

(** ** The [test] command *)

Definition test_processFn (argv : Argv.t) : Eff (option Z) :=
  emit (print ("Compiling..." ++ Js.newline)) ;;
  compiledGraph <- call (call_compile (compileOptions argv))
                        (compile c (compileOptions argv)) ;;
  if compiledGraphHasErrors compiledGraph then
    emit (printCompiledGraphErrors (CompiledGraph.graphErrors compiledGraph)) ;;
    ret (Some 1)
  else
    emit (printSuccess ("Compiled successfully." ++ Js.newline)) ;;
    let credentialsPath :=
      getCredentialsPath (Argv.projectDir argv) (Argv.credentials argv) in
    readCredentials <- call (call_credentials_read credentialsPath)
                            (credentials_read c credentialsPath) ;;
    if Nat.eqb (length (CompiledGraph.tests compiledGraph)) 0 then
      emit (printError "No unit tests found.") ;;
      ret (Some 1)
    else
      emit (print ("Running " ++ pretty (length (CompiledGraph.tests compiledGraph))
                   ++ " unit tests..." ++ Js.newline)) ;;
      let dbadapter := {| adapter_credentials := readCredentials |} in
      testResults <- call (call_test dbadapter (CompiledGraph.tests compiledGraph))
                          (test c dbadapter (CompiledGraph.tests compiledGraph)) ;;
      forEach testResults printTestResult ;;
      ret (Some (if forallb TestResult.successful testResults then 0 else 1)).

(** ** The [run] command *)

(** [actionsByName], filled by the [forEach] over the graph's actions. *)
Definition actionsByName (executionGraph : ExecutionGraph.t)
  : gmap string ExecutionAction.t :=
  foldl (fun byName action =>
           <[ targetAsReadableString c (ExecutionAction.target action) := action ]> byName)
        ∅ (ExecutionGraph.actions executionGraph).

(** The actions of a snapshot that one call of [printExecutedGraph]
    prints: both filters are applied before anything is printed. *)
Definition actionsToPrint (alreadyPrintedActions : gset string)
    (executedGraph : RunResult.t) : list ActionResult.t :=
  List.filter
    (fun executedAction =>
       negb (bool_decide
               (targetAsReadableString c (ActionResult.target executedAction)
                ∈ alreadyPrintedActions)))
    (List.filter
       (fun actionResult =>
          negb (ExecutionStatus_eqb (ActionResult.status actionResult) RUNNING))
       (RunResult.actions executedGraph)).

(** [printExecutedGraph]: prints the actions selected above and adds them
    to [alreadyPrintedActions], whose new value is returned. *)
Definition printExecutedGraph (executionGraph : ExecutionGraph.t)
    (dryRun : option bool) (alreadyPrintedActions : gset string)
    (executedGraph : RunResult.t) : Eff (gset string) :=
  let printed := actionsToPrint alreadyPrintedActions executedGraph in
  forEach printed
    (fun executedAction =>
       printExecutedAction executedAction
         (actionsByName executionGraph
            !! targetAsReadableString c (ActionResult.target executedAction))
         dryRun) ;;
  ret (alreadyPrintedActions
       ∪ list_to_set
           (map (fun executedAction =>
                   targetAsReadableString c (ActionResult.target executedAction))
                printed)).

(** The callback is run on every snapshot the runner publishes. *)
Fixpoint onChange_callbacks (executionGraph : ExecutionGraph.t)
    (dryRun : option bool) (alreadyPrintedActions : gset string)
    (changes : list RunResult.t) : Eff (gset string) :=
  match changes with
  | [] => ret alreadyPrintedActions
  | executedGraph :: later =>
      printed <- printExecutedGraph executionGraph dryRun
                   alreadyPrintedActions executedGraph ;;
      onChange_callbacks executionGraph dryRun printed later
  end.

(** From the construction of [bigqueryOptions] to the end of [processFn]. *)
Definition run_dispatch (argv : Argv.t) (dbadapter : BigQueryDbAdapter)
    (executionGraph : ExecutionGraph.t) : Eff (option Z) :=
  let bigqueryOptions := bigqueryOptions argv in
  if Nat.eqb (size (actionsByName executionGraph)) 0 then
    emit (print ("No actions to run." ++ Js.newline)) ;;
    ret (Some 0)
  else
    (if Js.truthy_bool (Argv.dryRun argv)
     then emit (print "Dry running (no changes to the warehouse will be applied)...")
     else emit (print ("Running..." ++ Js.newline))) ;;
    emit (call_run dbadapter executionGraph bigqueryOptions) ;;
    let runner := run c dbadapter executionGraph bigqueryOptions in
    emit on_SIGINT ;;
    emit runner_onChange ;;
    alreadyPrintedActions <-
      onChange_callbacks executionGraph (Argv.dryRun argv) ∅ (Runner.changes runner) ;;
    runResult <- silently (Runner.result runner) ;;
    emit (await_result runResult) ;;
    printExecutedGraph executionGraph (Argv.dryRun argv)
      alreadyPrintedActions runResult ;;
    ret (Some (if ExecutionStatus_eqb (RunResult.status runResult) SUCCESSFUL
               then 0 else 1)).

(** The unit-test gate and what follows it. *)
Definition run_after_build (argv : Argv.t) (compiledGraph : CompiledGraph.t)
    (dbadapter : BigQueryDbAdapter) (executionGraph : ExecutionGraph.t)
  : Eff (option Z) :=
  if Js.truthy_bool (Argv.runTests argv) then
    emit (print ("Running " ++ pretty (length (CompiledGraph.tests compiledGraph))
                 ++ " unit tests..." ++ Js.newline)) ;;
    testResults <- call (call_test dbadapter (CompiledGraph.tests compiledGraph))
                        (test c dbadapter (CompiledGraph.tests compiledGraph)) ;;
    forEach testResults printTestResult ;;
    if existsb (fun testResult => negb (TestResult.successful testResult)) testResults
    then
      emit (printError (Js.newline ++ "Unit tests did not pass; aborting run.")) ;;
      ret (Some 1)
    else
      emit (printSuccess ("Unit tests completed successfully." ++ Js.newline)) ;;
      run_dispatch argv dbadapter executionGraph
  else run_dispatch argv dbadapter executionGraph.

(** [processFn] of the [run] command; [None] is the bare [return;]. *)
Definition run_processFn (argv : Argv.t) : Eff (option Z) :=
  if Argv.json argv && negb (Js.truthy_bool (Argv.dryRun argv)) then
    emit (print ("For execution, the --" ++ jsonOutputOption_name
                 ++ " option is only supported if the "
                 ++ "--" ++ dryRunOptionName ++ " option is enabled")) ;;
    ret None
  else
    when (negb (Argv.json argv)) (emit (print ("Compiling..." ++ Js.newline))) ;;
    compiledGraph <- call (call_compile (compileOptions argv))
                          (compile c (compileOptions argv)) ;;
    if compiledGraphHasErrors compiledGraph then
      emit (printCompiledGraphErrors (CompiledGraph.graphErrors compiledGraph)) ;;
      ret (Some 1)
    else
      when (negb (Argv.json argv))
           (emit (printSuccess ("Compiled successfully." ++ Js.newline))) ;;
      let credentialsPath :=
        getCredentialsPath (Argv.projectDir argv) (Argv.credentials argv) in
      readCredentials <- call (call_credentials_read credentialsPath)
                              (credentials_read c credentialsPath) ;;
      let dbadapter := {| adapter_credentials := readCredentials |} in
      executionGraph <- call (call_build compiledGraph (runConfig argv) dbadapter)
                             (build c compiledGraph (runConfig argv) dbadapter) ;;
      if Js.truthy_bool (Argv.dryRun argv) && Argv.json argv then
        emit (printExecutionGraph executionGraph (Argv.json argv)) ;;
        ret None
      else run_after_build argv compiledGraph dbadapter executionGraph.

(** The checks of the options of [run], positional options first. *)
Definition run_checks (argv : Argv.t) : Completion unit :=
  match projectDirMustExistOption_check argv with
  | Thrown e => Thrown e
  | Returned _ =>
  match credentialsOption_check argv with
  | Thrown e => Thrown e
  | Returned _ =>
  match includeDepsOption_check argv with
  | Thrown e => Thrown e
  | Returned _ =>
  match includeDependentsOption_check argv with
  | Thrown e => Thrown e
  | Returned _ => schemaSuffix_check argv
  end end end end.

(** Modelled from the spec: the command wrapper (df/cli/yargswrapper is not
    among the sources) evaluates the checks of a command's options and
    runs [processFn] only when none of them throws; a selection error is
    surfaced before any graph work. *)
Definition run_command (argv : Argv.t) : Eff (option Z) :=
  silently (run_checks argv) ;;
  run_processFn argv.

End Commands.

(** ** The runner's retry policy *)

Module Retry.

(** Modelled from the spec: the runner (df/cli/api) is not among the
    sources.  The spec sorts the actions into full rebuilds, which are
    idempotent (TABLE, VIEW, full-refresh INCREMENTAL, DataPreparation
    [replace]), and the rest (incremental merges, [append], [unique] and
    [maximum] loads, Operations, Assertions). *)
Inductive ActionClass :=
| TableRebuild
| ViewRebuild
| IncrementalFullRefresh
| DataPreparationReplace
| IncrementalMerge
| DataPreparationAppend
| DataPreparationUnique
| DataPreparationMaximum
| OperationQueries
| AssertionQuery.

(** Modelled from the spec: the classification the runner applies; full
    rebuilds are idempotent, nothing else is. *)
Definition idempotent (a : ActionClass) : bool :=
  match a with
  | TableRebuild | ViewRebuild | IncrementalFullRefresh | DataPreparationReplace => true
  | IncrementalMerge | DataPreparationAppend | DataPreparationUnique
  | DataPreparationMaximum | OperationQueries | AssertionQuery => false
  end.

(** Modelled from the spec: an idempotent action may be retried up to
    [actionRetryLimit] times, any other action never. *)
Definition retriesAllowed (actionRetryLimit : Z) (a : ActionClass) : nat :=
  if idempotent a then Z.to_nat actionRetryLimit else 0%nat.

(** Modelled from the spec: the identical statement sequence is dispatched
    again after a failure while retries are left; [succeeds n] is the
    adapter's answer to dispatch number [n].  The result is the list of
    dispatches made, in order, and the terminal status. *)
Fixpoint attempts (succeeds : nat -> bool) (retriesLeft : nat) (attempt : nat)
  : list nat * ExecutionStatus :=
  if succeeds attempt then ([attempt], SUCCESSFUL)
  else match retriesLeft with
       | O => ([attempt], FAILED)
       | S fewer =>
           let '(later, status) := attempts succeeds fewer (S attempt) in
           (attempt :: later, status)
       end.

(** Modelled from the spec: the runner executes an action with the retry
    limit it finds in the [bigquery] options handed to [run]. *)
Definition executeAction (options : BigqueryOptions.t) (a : ActionClass)
    (succeeds : nat -> bool) : list nat * ExecutionStatus :=
  attempts succeeds (retriesAllowed (BigqueryOptions.actionRetryLimit options) a) 0.

(** Modelled from the spec: a retry is a dispatch after the first one. *)
Definition retries (outcome : list nat * ExecutionStatus) : nat :=
  pred (length (fst outcome)).

End Retry.

(** ** Schema-change policy of an incremental merge *)

(** [OnSchemaChange] of the protocol buffers. *)
Inductive OnSchemaChange := IGNORE | FAIL | EXTEND | SYNCHRONIZE.

Module SchemaChange.

(** Modelled from the spec: the statements an incremental merge may issue,
    DDL on the columns of the target and the merge itself (the builder and
    the adapter are not among the sources). *)
Inductive Statement :=
| AddColumn (column : string)
| DropColumn (column : string)
| Merge.

(** Modelled from the spec: the action either aborts before any statement
    or issues a sequence of statements. *)
Inductive Outcome :=
| Aborted
| Issued (statements : list Statement).

(** Modelled from the spec: the reconciliation that precedes the merge (the
    builder and the adapter are not among the sources).  IGNORE reconciles
    nothing; FAIL aborts when the column sets differ; EXTEND adds the new
    columns and forbids that a column of the target is missing from the
    query; SYNCHRONIZE adds the new columns and drops those absent from
    the query. *)
Definition reconcile (policy : OnSchemaChange) (target query : gset string)
  : option (list Statement) :=
  match policy with
  | IGNORE => Some []
  | FAIL => if decide (target = query) then Some [] else None
  | EXTEND =>
      if decide (target ⊆ query)
      then Some (AddColumn <$> elements (query ∖ target))
      else None
  | SYNCHRONIZE =>
      Some ((AddColumn <$> elements (query ∖ target))
            ++ (DropColumn <$> elements (target ∖ query)))%list
  end.

(** Modelled from the spec: the action aborts before any DDL or DML when
    the reconciliation refuses, and otherwise issues the DDL followed by
    the merge. *)
Definition incrementalMerge (policy : OnSchemaChange) (target query : gset string)
  : Outcome :=
  match reconcile policy target query with
  | None => Aborted
  | Some ddl => Issued (ddl ++ [Merge])%list
  end.

(** Modelled from the spec: the columns of the target after a statement. *)
Definition columnsAfter (columns : gset string) (s : Statement) : gset string :=
  match s with
  | AddColumn column => columns ∪ {[ column ]}
  | DropColumn column => columns ∖ {[ column ]}
  | Merge => columns
  end.

(** Modelled from the spec: the columns of the target once the action is
    over. *)
Definition targetAfter (target : gset string) (o : Outcome) : gset string :=
  match o with
  | Aborted => target
  | Issued statements => foldl columnsAfter target statements
  end.

End SchemaChange.

(** ** Load modes of a data preparation *)

(** [LoadConfiguration] of the protocol buffers: a [oneof] over
    [SimpleLoadMode] and [IncrementalLoadMode], which carries the column
    name. *)
Inductive LoadConfiguration :=
| replace
| append
| maximum (column_name : string)
| unique (column_name : string)
| automatic (column_name : string).

Module Load.

(** Modelled from the spec: [automatic] becomes [maximum] when an ordering
    column is known, and [append] otherwise.  A string field that was
    never set is the empty string. *)
Definition resolve (load : LoadConfiguration) : LoadConfiguration :=
  match load with
  | automatic EmptyString => append
  | automatic column_name => maximum column_name
  | other => other
  end.

Section Rows.

Variable Row : Type.
(** The value a row holds in a column. *)
Variable value : Row -> string -> Z.

(** Modelled from the spec: the current maximum of the column in the
    target, if the target has rows. *)
Definition currentMaximum (column : string) (target : list Row) : option Z :=
  foldr (fun row best =>
           match best with
           | None => Some (value row column)
           | Some m => Some (Z.max (value row column) m)
           end)
        None target.

(** Modelled from the spec: the row's value is greater than the current
    maximum; every row is when the target is empty. *)
Definition exceedsMaximum (column : string) (target : list Row) (row : Row) : bool :=
  match currentMaximum column target with
  | None => true
  | Some m => m <? value row column
  end.

(** Modelled from the spec: the row's value is already present in the
    target. *)
Definition alreadyPresent (column : string) (target : list Row) (row : Row) : bool :=
  existsb (fun old => value old column =? value row column) target.

(** Modelled from the spec: the rows of the target after loading
    [incoming] in a resolved mode (the builder and the adapter are not
    among the sources); [automatic] does not occur once resolved. *)
Definition loadResolved (load : LoadConfiguration) (target incoming : list Row)
  : list Row :=
  match load with
  | replace => incoming
  | append => (target ++ incoming)%list
  | maximum column =>
      (target ++ List.filter (exceedsMaximum column target) incoming)%list
  | unique column =>
      (target ++ List.filter (fun row => negb (alreadyPresent column target row))
                   incoming)%list
  | automatic _ => target
  end.

(** Modelled from the spec: the configured mode is resolved, then applied. *)
Definition load (mode : LoadConfiguration) (target incoming : list Row) : list Row :=
  loadResolved (resolve mode) target incoming.

End Rows.

End Load.

(** ** A small project, used to run the commands on concrete arguments *)

Module Sample.

Definition target_a : Target :=
  {| database := "db"; schema := "s"; name := "a";
     include_dependent_assertions := false |}.

Definition action_a : ExecutionAction.t :=
  {| ExecutionAction.target := target_a;
     ExecutionAction.status := PENDING;
     ExecutionAction.statements := ["create or replace table a as select 1"] |}.

Definition graph : ExecutionGraph.t := {| ExecutionGraph.actions := [action_a] |}.

Definition emptyGraph : ExecutionGraph.t := {| ExecutionGraph.actions := [] |}.

Definition unitTest : Test.t :=
  {| Test.name := "t"; Test.test_query := "select 1";
     Test.expected_output_query := "select 1"; Test.file_name := "t.sqlx" |}.

Definition compiled : CompiledGraph.t :=
  {| CompiledGraph.targets := [target_a];
     CompiledGraph.tests := [unitTest];
     CompiledGraph.graphErrors := None |}.

Definition compilationError : CompilationError.t :=
  {| CompilationError.file_name := "a.sqlx"; CompilationError.action_name := "a";
     CompilationError.message := "bad"; CompilationError.stack := "" |}.

Definition broken : CompiledGraph.t :=
  {| CompiledGraph.targets := [target_a];
     CompiledGraph.tests := [unitTest];
     CompiledGraph.graphErrors :=
       Some {| GraphErrors.compilation_errors := [compilationError] |} |}.

Definition resultOf (status : ExecutionStatus) : RunResult.t :=
  {| RunResult.status := status;
     RunResult.actions :=
       [ {| ActionResult.target := target_a; ActionResult.status := status |} ] |}.

Definition testResult (successful : bool) : TestResult.t :=
  {| TestResult.name := "t"; TestResult.successful := successful;
     TestResult.messages := [] |}.

Definition storedCredentials : Credentials.t :=
  {| Credentials.projectId := "p"; Credentials.location := "US" |}.

Definition adapter : BigQueryDbAdapter := {| adapter_credentials := storedCredentials |}.

(** Collaborators that compile to [compiledGraph], build [executionGraph],
    report one unit test with the given outcome and end the run with the
    given status. *)
Definition collaborators (compiledGraph : CompiledGraph.t)
    (executionGraph : ExecutionGraph.t) (testsPass : bool)
    (status : ExecutionStatus) : Collaborators :=
  {| actuallyResolve := fun parts => Js.join "/" parts;
     assertPathExists := fun _ => Returned tt;
     path_resolve := fun dir file => dir ++ "/" ++ file;
     fs_existsSync := fun _ => true;
     targetAsReadableString :=
       fun t => database t ++ "." ++ schema t ++ "." ++ name t;
     compile := fun _ => Returned compiledGraph;
     credentials_read := fun _ => Returned storedCredentials;
     build := fun _ _ _ => Returned executionGraph;
     test := fun _ _ => Returned [testResult testsPass];
     run := fun _ _ _ =>
              {| Runner.changes := [resultOf RUNNING];
                 Runner.result := Returned (resultOf status) |} |}.

(** The arguments of [dataform run] with the given flags and every other
    option at its default. *)
Definition argv (dryRun runTests : option bool) (json : bool)
    (includeDeps includeDependents : option bool)
    (actions tags : option (list string)) : Argv.t :=
  {| Argv.projectDir := ".";
     Argv.dryRun := dryRun;
     Argv.runTests := runTests;
     Argv.actionRetryLimit := 0;
     Argv.actions := actions;
     Argv.credentials := ".df-credentials.json";
     Argv.fullRefresh := false;
     Argv.includeDeps := includeDeps;
     Argv.includeDependents := includeDependents;
     Argv.json := json;
     Argv.timeout := None;
     Argv.tags := tags;
     Argv.jobPrefix := None;
     Argv.defaultDatabase := None;
     Argv.defaultSchema := None;
     Argv.defaultLocation := None;
     Argv.assertionSchema := None;
     Argv.vars := ∅;
     Argv.databaseSuffix := None;
     Argv.schemaSuffix := None;
     Argv.tablePrefix := None |}.

Definition plain : Argv.t := argv None None false None None None None.

(** [--json] alone, [--dry-run], [--dry-run --json], [--run-tests],
    [--include-deps] alone, and both selection flags with [--actions]
    supplied without a value. *)
Definition jsonOnly : Argv.t := argv None None true None None None None.
Definition dryRun : Argv.t := argv (Some true) None false None None None None.
Definition dryRunJson : Argv.t := argv (Some true) None true None None None None.
Definition withTests : Argv.t := argv None (Some true) false None None None None.
Definition depsOnly : Argv.t := argv None None false (Some true) None None None.
Definition depsNoPattern : Argv.t :=
  argv None None false (Some true) (Some true) (Some []) None.

(** A project that runs, one whose run fails, one whose unit test fails, one
    that does not compile, and one in which nothing is selected. *)
Definition succeeding : Collaborators := collaborators compiled graph true SUCCESSFUL.
Definition failing : Collaborators := collaborators compiled graph true FAILED.
Definition failingTest : Collaborators := collaborators compiled graph false SUCCESSFUL.
Definition notCompiling : Collaborators := collaborators broken graph true SUCCESSFUL.
Definition nothingSelected : Collaborators :=
  collaborators compiled emptyGraph true SUCCESSFUL.

End Sample.

(** ** Reading a trace *)

Definition is_call_compile (e : Event) : bool :=
  match e with call_compile _ => true | _ => false end.

Definition is_call_credentials_read (e : Event) : bool :=
  match e with call_credentials_read _ => true | _ => false end.

Definition is_call_build (e : Event) : bool :=
  match e with call_build _ _ _ => true | _ => false end.

Definition is_call_test (e : Event) : bool :=
  match e with call_test _ _ => true | _ => false end.

Definition is_call_run (e : Event) : bool :=
  match e with call_run _ _ _ => true | _ => false end.

Definition is_await_result (e : Event) : bool :=
  match e with await_result _ => true | _ => false end.

Definition is_printExecutionGraph (e : Event) : bool :=
  match e with printExecutionGraph _ _ => true | _ => false end.

Definition is_printExecutedAction (e : Event) : bool :=
  match e with printExecutedAction _ _ _ => true | _ => false end.

Definition is_print (e : Event) : bool :=
  match e with print _ => true | _ => false end.

(** A call that reaches the warehouse through the adapter. *)
Definition is_dispatch (e : Event) : bool := is_call_test e || is_call_run e.

(** Any work on the project or its graph. *)
Definition is_graph_work (e : Event) : bool :=
  is_call_compile e || is_call_credentials_read e || is_call_build e
  || is_call_test e || is_call_run e.

(** A unit test that did not pass was reported. *)
Definition is_failed_test (e : Event) : bool :=
  match e with
  | printTestResult testResult => negb (TestResult.successful testResult)
  | _ => false
  end.

(** The messages of the [run] command. *)
Definition usage_message : string :=
  "For execution, the --json option is only supported if the --dry-run option is enabled".

Definition no_actions_message : string := "No actions to run." ++ Js.newline.

(** What a trace says about the code a command returned: the code follows
    the run result that was awaited, it is 0 when there was nothing to run,
    there is none when the execution graph was printed, and 0 is returned
    in no other case. *)
Definition exit_code_rule (r : Completion (option Z)) (t : list Event) : Prop :=
  (forall runResult, In (await_result runResult) t ->
     r = Returned (Some (if ExecutionStatus_eqb (RunResult.status runResult) SUCCESSFUL
                         then 0 else 1)))
  /\ (In (print no_actions_message) t -> r = Returned (Some 0))
  /\ (forall executionGraph asJson,
        In (printExecutionGraph executionGraph asJson) t -> r = Returned None)
  /\ (r = Returned (Some 0) ->
      (exists runResult,
          In (await_result runResult) t /\ RunResult.status runResult = SUCCESSFUL)
      \/ In (print no_actions_message) t)
  /\ (forall code, r = Returned code -> code = None \/ code = Some 0 \/ code = Some 1).

(** Events on which [exit_code_rule] depends. *)
Definition is_exit_evidence (e : Event) : bool :=
  match e with
  | await_result _ | printExecutionGraph _ _ => true
  | print text => String.eqb text no_actions_message
  | _ => false
  end.

(** ** The paths through the [run] command

    One constructor for every way [processFn] of [run] can end, with the
    result and the trace of that path; [run_processFn_path] below shows that
    the embedding always follows one of them. *)

Section Paths.

Variable c : Collaborators.
Variable argv : Argv.t.

Definition compilingLine : list Event :=
  if Argv.json argv then [] else [print ("Compiling..." ++ Js.newline)].

Definition compiledLine : list Event :=
  if Argv.json argv then []
  else [printSuccess ("Compiled successfully." ++ Js.newline)].

Definition credentialsPath : string :=
  getCredentialsPath c (Argv.projectDir argv) (Argv.credentials argv).

Definition startLine : Event :=
  if Js.truthy_bool (Argv.dryRun argv)
  then print "Dry running (no changes to the warehouse will be applied)..."
  else print ("Running..." ++ Js.newline).

Definition testsLine (compiledGraph : CompiledGraph.t) : Event :=
  print ("Running " ++ pretty (length (CompiledGraph.tests compiledGraph))
         ++ " unit tests..." ++ Js.newline).

(** Up to and including the call of [build]. *)
Definition buildPrefix (compiledGraph : CompiledGraph.t)
    (dbadapter : BigQueryDbAdapter) : list Event :=
  (compilingLine ++ [call_compile (compileOptions argv)] ++ compiledLine
   ++ [call_credentials_read credentialsPath;
       call_build compiledGraph (runConfig argv) dbadapter])%list.

Inductive dispatch_path (dbadapter : BigQueryDbAdapter)
    (executionGraph : ExecutionGraph.t)
  : Completion (option Z) -> list Event -> Prop :=
| path_no_actions :
    ExecutionGraph.actions executionGraph = [] ->
    dispatch_path dbadapter executionGraph
      (Returned (Some 0)) [print no_actions_message]
| path_runner_threw (e : JsError) (changes : list Event) :
    ExecutionGraph.actions executionGraph <> [] ->
    Runner.result (run c dbadapter executionGraph (bigqueryOptions argv)) = Thrown e ->
    forallb is_printExecutedAction changes = true ->
    dispatch_path dbadapter executionGraph
      (Thrown e)
      ([startLine; call_run dbadapter executionGraph (bigqueryOptions argv);
        on_SIGINT; runner_onChange] ++ changes)%list
| path_completed (runResult : RunResult.t) (changes final : list Event) :
    ExecutionGraph.actions executionGraph <> [] ->
    Runner.result (run c dbadapter executionGraph (bigqueryOptions argv))
    = Returned runResult ->
    forallb is_printExecutedAction changes = true ->
    forallb is_printExecutedAction final = true ->
    dispatch_path dbadapter executionGraph
      (Returned (Some (if ExecutionStatus_eqb (RunResult.status runResult) SUCCESSFUL
                       then 0 else 1)))
      ([startLine; call_run dbadapter executionGraph (bigqueryOptions argv);
        on_SIGINT; runner_onChange]
       ++ changes ++ [await_result runResult] ++ final)%list.

Inductive after_build_path (compiledGraph : CompiledGraph.t)
    (dbadapter : BigQueryDbAdapter) (executionGraph : ExecutionGraph.t)
  : Completion (option Z) -> list Event -> Prop :=
| path_tests_threw (e : JsError) :
    Js.truthy_bool (Argv.runTests argv) = true ->
    test c dbadapter (CompiledGraph.tests compiledGraph) = Thrown e ->
    after_build_path compiledGraph dbadapter executionGraph
      (Thrown e)
      [testsLine compiledGraph;
       call_test dbadapter (CompiledGraph.tests compiledGraph)]
| path_tests_failed (testResults : list TestResult.t) :
    Js.truthy_bool (Argv.runTests argv) = true ->
    test c dbadapter (CompiledGraph.tests compiledGraph) = Returned testResults ->
    existsb (fun testResult => negb (TestResult.successful testResult)) testResults
    = true ->
    after_build_path compiledGraph dbadapter executionGraph
      (Returned (Some 1))
      ([testsLine compiledGraph;
        call_test dbadapter (CompiledGraph.tests compiledGraph)]
       ++ map printTestResult testResults
       ++ [printError (Js.newline ++ "Unit tests did not pass; aborting run.")])%list
| path_tests_passed (testResults : list TestResult.t)
    (r : Completion (option Z)) (t : list Event) :
    Js.truthy_bool (Argv.runTests argv) = true ->
    test c dbadapter (CompiledGraph.tests compiledGraph) = Returned testResults ->
    existsb (fun testResult => negb (TestResult.successful testResult)) testResults
    = false ->
    dispatch_path dbadapter executionGraph r t ->
    after_build_path compiledGraph dbadapter executionGraph r
      ([testsLine compiledGraph;
        call_test dbadapter (CompiledGraph.tests compiledGraph)]
       ++ map printTestResult testResults
       ++ [printSuccess ("Unit tests completed successfully." ++ Js.newline)]
       ++ t)%list
| path_tests_not_requested (r : Completion (option Z)) (t : list Event) :
    Js.truthy_bool (Argv.runTests argv) = false ->
    dispatch_path dbadapter executionGraph r t ->
    after_build_path compiledGraph dbadapter executionGraph r t.

Inductive run_path : Completion (option Z) -> list Event -> Prop :=
| path_usage :
    Argv.json argv && negb (Js.truthy_bool (Argv.dryRun argv)) = true ->
    run_path (Returned None) [print usage_message]
| path_compile_threw (e : JsError) :
    Argv.json argv && negb (Js.truthy_bool (Argv.dryRun argv)) = false ->
    compile c (compileOptions argv) = Thrown e ->
    run_path (Thrown e) (compilingLine ++ [call_compile (compileOptions argv)])%list
| path_compilation_errors (compiledGraph : CompiledGraph.t) :
    Argv.json argv && negb (Js.truthy_bool (Argv.dryRun argv)) = false ->
    compile c (compileOptions argv) = Returned compiledGraph ->
    compiledGraphHasErrors compiledGraph = true ->
    run_path (Returned (Some 1))
      (compilingLine
       ++ [call_compile (compileOptions argv);
           printCompiledGraphErrors (CompiledGraph.graphErrors compiledGraph)])%list
| path_credentials_threw (compiledGraph : CompiledGraph.t) (e : JsError) :
    Argv.json argv && negb (Js.truthy_bool (Argv.dryRun argv)) = false ->
    compile c (compileOptions argv) = Returned compiledGraph ->
    compiledGraphHasErrors compiledGraph = false ->
    credentials_read c credentialsPath = Thrown e ->
    run_path (Thrown e)
      (compilingLine ++ [call_compile (compileOptions argv)] ++ compiledLine
       ++ [call_credentials_read credentialsPath])%list
| path_build_threw (compiledGraph : CompiledGraph.t)
    (readCredentials : Credentials.t) (e : JsError) :
    Argv.json argv && negb (Js.truthy_bool (Argv.dryRun argv)) = false ->
    compile c (compileOptions argv) = Returned compiledGraph ->
    compiledGraphHasErrors compiledGraph = false ->
    credentials_read c credentialsPath = Returned readCredentials ->
    build c compiledGraph (runConfig argv) {| adapter_credentials := readCredentials |}
    = Thrown e ->
    run_path (Thrown e)
      (buildPrefix compiledGraph {| adapter_credentials := readCredentials |})
| path_dry_run_json (compiledGraph : CompiledGraph.t)
    (readCredentials : Credentials.t) (executionGraph : ExecutionGraph.t) :
    Argv.json argv && negb (Js.truthy_bool (Argv.dryRun argv)) = false ->
    compile c (compileOptions argv) = Returned compiledGraph ->
    compiledGraphHasErrors compiledGraph = false ->
    credentials_read c credentialsPath = Returned readCredentials ->
    build c compiledGraph (runConfig argv) {| adapter_credentials := readCredentials |}
    = Returned executionGraph ->
    Js.truthy_bool (Argv.dryRun argv) && Argv.json argv = true ->
    run_path (Returned None)
      (buildPrefix compiledGraph {| adapter_credentials := readCredentials |}
       ++ [printExecutionGraph executionGraph (Argv.json argv)])%list
| path_after_build (compiledGraph : CompiledGraph.t)
    (readCredentials : Credentials.t) (executionGraph : ExecutionGraph.t)
    (r : Completion (option Z)) (t : list Event) :
    Argv.json argv && negb (Js.truthy_bool (Argv.dryRun argv)) = false ->
    compile c (compileOptions argv) = Returned compiledGraph ->
    compiledGraphHasErrors compiledGraph = false ->
    credentials_read c credentialsPath = Returned readCredentials ->
    build c compiledGraph (runConfig argv) {| adapter_credentials := readCredentials |}
    = Returned executionGraph ->
    Js.truthy_bool (Argv.dryRun argv) && Argv.json argv = false ->
    after_build_path compiledGraph {| adapter_credentials := readCredentials |}
      executionGraph r t ->
    run_path r
      (buildPrefix compiledGraph {| adapter_credentials := readCredentials |} ++ t)%list.

End Paths.

(** ** Further readings of options and traces *)

(** The number of occurrences of a character in a string. *)
Fixpoint occurrences (sep : ascii) (s : string) : nat :=
  match s with
  | EmptyString => O
  | String ch rest =>
      ((if Ascii.eqb ch sep then 1 else 0) + occurrences sep rest)%nat
  end.

(** The part of [keyValueStr] that [vars.coerce] uses as the key, and the
    part it uses as the value: [const [key, value] = keyValueStr.split("=")]. *)
Definition varsKey (keyValueStr : string) : string :=
  hd EmptyString (Js.split "=" keyValueStr).

Definition varsValue (keyValueStr : string) : option string :=
  Js.split "=" keyValueStr !! 1%nat.

(** The name under which the [run] command files an action. *)
Definition executionActionName (c : Collaborators) (action : ExecutionAction.t) : string :=
  targetAsReadableString c (ExecutionAction.target action).

Definition actionResultName (c : Collaborators) (executedAction : ActionResult.t) : string :=
  targetAsReadableString c (ActionResult.target executedAction).

(** The actions of a snapshot that are not RUNNING: the first filter of
    [printExecutedGraph]. *)
Definition finishedActions (executedGraph : RunResult.t) : list ActionResult.t :=
  List.filter
    (fun actionResult =>
       negb (ExecutionStatus_eqb (ActionResult.status actionResult) RUNNING))
    (RunResult.actions executedGraph).

(** The names of the actions a trace reports through [printExecutedAction],
    in the order of the reports. *)
Definition printedNames (c : Collaborators) (t : list Event) : list string :=
  flat_map (fun e =>
              match e with
              | printExecutedAction executedAction _ _ =>
                  [actionResultName c executedAction]
              | _ => []
              end) t.

Definition is_printSuccess (e : Event) : bool :=
  match e with printSuccess _ => true | _ => false end.

Definition is_printError (e : Event) : bool :=
  match e with printError _ => true | _ => false end.

Definition is_printTestResult (e : Event) : bool :=
  match e with printTestResult _ => true | _ => false end.

(** A line meant for a person rather than a program. *)
Definition is_progress (e : Event) : bool :=
  is_print e || is_printSuccess e || is_printError e
  || is_printTestResult e || is_printExecutedAction e.

(** The collaborators a command calls. *)
Inductive Collaborator :=
| Compiler
| CredentialsStore
| Builder
| UnitTests
| TheRunner.

Definition calledBy (e : Event) : list Collaborator :=
  match e with
  | call_compile _ => [Compiler]
  | call_credentials_read _ => [CredentialsStore]
  | call_build _ _ _ => [Builder]
  | call_test _ _ => [UnitTests]
  | call_run _ _ _ => [TheRunner]
  | _ => []
  end.

(** The calls of a trace, in order. *)
Definition callsOf (t : list Event) : list Collaborator := flat_map calledBy t.

(** ** The commands that do not run the project

    [compile] (without [--watch]), [format], [init-creds] and the handler
    of failures print and write through functions of their own; what they
    do to the outside is recorded as a list of [Output]s. *)

Module FormatResult.
(** An element of [results] in the [format] command. *)
Record t := {
  filename : string;
  err : option JsError;
  needsFormatting : option bool
}.
End FormatResult.

Inductive Output :=
| out_print (text : string)
| out_printSuccess (text : string)
| out_printError (text : string)
| out_call_compile (options : CompileOptions.t)
| out_printCompiledGraph (compiledGraph : CompiledGraph.t) (asJson : bool)
| out_printCompiledGraphErrors (graphErrors : option GraphErrors.t)
| out_printFormatFilesResult (results : list FormatResult.t)
| out_call_credentials_test (dbadapter : BigQueryDbAdapter)
| out_writeFileSync (path : string) (content : string)
| out_printInitCredsResult (path : string)
| out_exit (code : Z).

(** *** [compile] *)

(** [compileAndPrint]: whether the graph has errors. *)
Definition compileAndPrint (c : Collaborators) (argv : Argv.t)
  : Completion bool * list Output :=
  let before :=
    ((if negb (Argv.json argv) then [out_print ("Compiling..." ++ Js.newline)] else [])
     ++ [out_call_compile (compileOptions argv)])%list in
  match compile c (compileOptions argv) with
  | Thrown e => (Thrown e, before)
  | Returned compiledGraph =>
      let printed :=
        (before ++ [out_printCompiledGraph compiledGraph (Argv.json argv)])%list in
      if compiledGraphHasErrors compiledGraph
      then (Returned true,
            (printed
             ++ [out_print EmptyString;
                 out_printCompiledGraphErrors
                   (CompiledGraph.graphErrors compiledGraph)])%list)
      else (Returned false, printed)
  end.

(** [processFn] of [compile] when [--watch] is not set:
    [return graphHasErrors ? 1 : 0]. *)
Definition compile_processFn (c : Collaborators) (argv : Argv.t)
  : Completion (option Z) * list Output :=
  match compileAndPrint c argv with
  | (Returned graphHasErrors, outputs) =>
      (Returned (Some (if graphHasErrors then 1 else 0)), outputs)
  | (Thrown e, outputs) => (Thrown e, outputs)
  end.

(** *** [format] *)

(** What [format] reaches the file system through. *)
Record Formatter := {
  glob_sync : string -> string -> list string;
  readFileSync : string -> Completion string;
  formatFile : string -> bool -> Completion string
}.

Definition defaultFormatActions : list string :=
  ["{definitions,includes}/**/*.{js,sqlx}"].

(** [actions]: the patterns of [--actions] when the option is there and
    not empty, the default otherwise. *)
Definition formatActions (argv : Argv.t) : list string :=
  match Argv.actions argv with
  | Some (action :: more) => action :: more
  | Some [] => defaultFormatActions
  | None => defaultFormatActions
  end.

(** [filenames]: [actions.map(action => glob.sync(action, {cwd})).flat()]. *)
Definition formatFilenames (f : Formatter) (argv : Argv.t) : list string :=
  Js.flat (map (fun action => glob_sync f action (Argv.projectDir argv))
             (formatActions argv)).

(** The calls the command makes on a file. *)
Inductive FileCall :=
| called_readFileSync (path : string)
| called_formatFile (path : string) (overwriteFile : bool).

(** The body of the [async] function mapped over [filenames], with its
    [try]/[catch]: the result for the file, and the calls made for it. *)
Definition formatOne (f : Formatter) (c : Collaborators) (argv : Argv.t)
    (isCheckMode : bool) (filename : string) : FormatResult.t * list FileCall :=
  let filePath := path_resolve c (Argv.projectDir argv) filename in
  let failed e :=
    {| FormatResult.filename := filename; FormatResult.err := Some e;
       FormatResult.needsFormatting := None |} in
  if isCheckMode then
    match readFileSync f filePath with
    | Thrown e => (failed e, [called_readFileSync filePath])
    | Returned fileContent =>
        match formatFile f filePath false with
        | Thrown e =>
            (failed e, [called_readFileSync filePath; called_formatFile filePath false])
        | Returned formattedContent =>
            ({| FormatResult.filename := filename; FormatResult.err := None;
                FormatResult.needsFormatting :=
                  Some (negb (String.eqb fileContent formattedContent)) |},
             [called_readFileSync filePath; called_formatFile filePath false])
        end
    end
  else
    match formatFile f filePath true with
    | Thrown e => (failed e, [called_formatFile filePath true])
    | Returned _ =>
        ({| FormatResult.filename := filename; FormatResult.err := None;
            FormatResult.needsFormatting := None |},
         [called_formatFile filePath true])
    end.

(** [results]: the callbacks of [filenames.map] start in the order of the
    files, and each makes its calls before it first waits. *)
Definition formatResults (f : Formatter) (c : Collaborators) (argv : Argv.t)
    (isCheckMode : bool) : list FormatResult.t :=
  map (fun filename => fst (formatOne f c argv isCheckMode filename))
      (formatFilenames f argv).

(** The calls made while [results] is computed, in the order they are
    made. *)
Definition formatCalls (f : Formatter) (c : Collaborators) (argv : Argv.t)
    (isCheckMode : bool) : list FileCall :=
  Js.flat (map (fun filename => snd (formatOne f c argv isCheckMode filename))
               (formatFilenames f argv)).

(** [results.filter(result => !!result.err)]. *)
Definition failedFormatResults (results : list FormatResult.t) : list FormatResult.t :=
  List.filter (fun result =>
                 match FormatResult.err result with Some _ => true | None => false end)
    results.

(** [results.filter(result => result.needsFormatting)]. *)
Definition filesNeedingFormatting (results : list FormatResult.t)
  : list FormatResult.t :=
  List.filter (fun result => Js.truthy_bool (FormatResult.needsFormatting result))
    results.

(** [processFn] of [format]; [isCheckMode] is [argv["check"]]. *)
Definition format_processFn (f : Formatter) (c : Collaborators) (argv : Argv.t)
    (isCheckMode : bool) : Z * list Output :=
  let results := formatResults f c argv isCheckMode in
  let failed := failedFormatResults results in
  if negb (Nat.eqb (length failed) 0) then
    (1, [out_printFormatFilesResult results;
         out_printError (pretty (length failed) ++ " file(s) failed to format.")])
  else if isCheckMode then
    let needing := filesNeedingFormatting results in
    if negb (Nat.eqb (length needing) 0) then
      (1, [out_printFormatFilesResult results;
           out_printError
             (pretty (length needing)
              ++ " file(s) would be reformatted. Run the format command without --check to update.")])
    else
      (0, [out_printFormatFilesResult results;
           out_printSuccess "All files are formatted correctly!"])
  else (0, [out_printFormatFilesResult results]).

(** *** The handler of failures *)

Module Failure.

(** The [err] the handler receives: its name, its message and its stack,
    when it has one. *)
Record t := {
  name : string;
  message : string;
  stack : option string
}.

End Failure.

(** [String.prototype.includes]. *)
Fixpoint includes (needle s : string) : bool :=
  String.prefix needle s
  || match s with
     | EmptyString => false
     | String _ rest => includes needle rest
     end.

(** The callback of [.fail]: [msg] is the message of yargs, [err] the
    error thrown, if any. *)
Definition fail (msg : string) (err : option Failure.t) : list Output :=
  let vmError :=
    match err with
    | Some e => String.eqb (Failure.name e) "VMError"
                && includes "Cannot find module" (Failure.message e)
    | None => false
    end in
  ((if vmError then
      [out_printError
         "Could not find NPM dependencies. Have you run 'dataform install'?"]
    else
      let message :=
        match err with
        | Some e =>
            if Js.truthy_string (Some (Failure.message e))
            then hd EmptyString (Js.split (ascii_of_nat 10) (Failure.message e))
            else msg
        | None => msg
        end in
      out_printError ("Dataform encountered an error: " ++ message)
      :: match err with
         | Some e =>
             match Failure.stack e with
             | Some stack =>
                 if Js.truthy_string (Some stack) then [out_printError stack] else []
             | None => []
             end
         | None => []
         end)
   ++ [out_exit 1])%list.

(** *** [init-creds] *)

Module CredentialsTest.

(** [credentials.TestResultStatus], as far as the command tells its
    members apart. *)
Inductive Status := SUCCESSFUL | TIMED_OUT | OTHER_ERROR.

Record t := {
  status : Status;
  error : Failure.t
}.

End CredentialsTest.

(** What [init-creds] calls. *)
Record CredentialsSetup := {
  getBigQueryCredentials : Completion Credentials.t;
  credentials_test : BigQueryDbAdapter -> CredentialsTest.t;
  prettyJsonStringify : Credentials.t -> string;
  CREDENTIALS_FILENAME : string
}.

(** The last steps of [init-creds]: write the file, print where it is. *)
Definition writeCredentials (s : CredentialsSetup) (c : Collaborators)
    (argv : Argv.t) (finalCredentials : Credentials.t) : list Output :=
  let filePath := path_resolve c (Argv.projectDir argv) (CREDENTIALS_FILENAME s) in
  [out_writeFileSync filePath (prettyJsonStringify s finalCredentials);
   out_printInitCredsResult filePath].

(** [processFn] of [init-creds]; [testConnection] is
    [argv["test-connection"]]. *)
Definition initCreds_processFn (s : CredentialsSetup) (c : Collaborators)
    (argv : Argv.t) (testConnection : bool)
  : Completion (option Z) * list Output :=
  match getBigQueryCredentials s with
  | Thrown e => (Thrown e, [])
  | Returned finalCredentials =>
      if testConnection then
        let dbadapter := {| adapter_credentials := finalCredentials |} in
        let before :=
          [out_print (Js.newline ++ "Running connection test...");
           out_call_credentials_test dbadapter] in
        let testResult := credentials_test s dbadapter in
        match CredentialsTest.status testResult with
        | CredentialsTest.SUCCESSFUL =>
            (Returned (Some 0),
             (before
              ++ [out_printSuccess
                    (Js.newline ++ "Credentials test query completed successfully."
                     ++ Js.newline)]
              ++ writeCredentials s c argv finalCredentials)%list)
        | CredentialsTest.TIMED_OUT =>
            (Thrown (new_Error "Credentials test connection timed out."), before)
        | CredentialsTest.OTHER_ERROR =>
            let error := CredentialsTest.error testResult in
            (Thrown (new_Error
                       ("Credentials test query failed: "
                        ++ match Failure.stack error with
                           | Some stack =>
                               if Js.truthy_string (Some stack) then stack
                               else Failure.message error
                           | None => Failure.message error
                           end)),
             before)
        end
      else
        (Returned (Some 0),
         (out_print (Js.newline ++ "Credentials test query was not run." ++ Js.newline)
          :: writeCredentials s c argv finalCredentials))
  end.

(** ** Sample files and credentials *)

Module SampleFiles.

(** Every pattern matches one file, of the same name; the files hold
    [select  1], which formats to [select 1]. *)
Definition writable : Formatter :=
  {| glob_sync := fun action cwd => [action];
     readFileSync := fun path => Returned "select  1";
     formatFile := fun path overwriteFile => Returned "select 1" |}.

(** [--actions] without a value. *)
Definition noPatterns : Argv.t :=
  Sample.argv None None false None None (Some []) None.

(** An error with a message of two lines. *)
Definition twoLines : Failure.t :=
  {| Failure.name := "Error";
     Failure.message := "Unknown argument: x" ++ Js.newline ++ "See --help";
     Failure.stack := None |}.

(** Credentials that pass the test query, and credentials for which it
    times out. *)
Definition setup (status : CredentialsTest.Status) : CredentialsSetup :=
  {| getBigQueryCredentials := Returned Sample.storedCredentials;
     credentials_test := fun _ =>
       {| CredentialsTest.status := status;
          CredentialsTest.error :=
            {| Failure.name := "Error"; Failure.message := "timed out";
               Failure.stack := None |} |};
     prettyJsonStringify := fun credentials =>
       "{ projectId: " ++ Credentials.projectId credentials ++ " }";
     CREDENTIALS_FILENAME := ".df-credentials.json" |}.

Definition passing : CredentialsSetup := setup CredentialsTest.SUCCESSFUL.
Definition timingOut : CredentialsSetup := setup CredentialsTest.TIMED_OUT.

End SampleFiles.

(** The [fs.writeFileSync] calls among the outputs. *)
Definition is_writeFileSync (o : Output) : bool :=
  match o with out_writeFileSync _ _ => true | _ => false end.

Definition is_call_credentials_test (o : Output) : bool :=
  match o with out_call_credentials_test _ => true | _ => false end.

(** * Properties *)

(** ** Splitting option values on commas *)

Section Split.

Variable sep : ascii.

Lemma split_nonempty (s : string) : Js.split sep s <> [].
Proof.
  destruct s as [|ch rest]; simpl; [discriminate|].
  destruct (Ascii.eqb ch sep); [discriminate|].
  destruct (Js.split sep rest); discriminate.
Qed.

Lemma split_app_sep (a b : string) :
  Js.split sep (a ++ String sep b) = (Js.split sep a ++ Js.split sep b)%list.
Proof.
  induction a as [|ch a IH]; simpl.
  - now rewrite Ascii.eqb_refl.
  - destruct (Ascii.eqb ch sep).
    + now rewrite IH.
    + rewrite IH. pose proof (split_nonempty a) as Hne.
      destruct (Js.split sep a); [contradiction|reflexivity].
Qed.

Lemma split_free_of (s : string) :
  Js.free_of sep s = true -> Js.split sep s = [s].
Proof.
  induction s as [|ch s IH]; simpl; [reflexivity|].
  destruct (Ascii.eqb ch sep); simpl; [discriminate|].
  intros H. now rewrite (IH H).
Qed.


End Split.

(** Values without a comma are their own pieces. *)
Lemma pieces_comma_free (values : list string) :
  forallb (Js.free_of Js.comma) values = true ->
  Js.flat (map (Js.split Js.comma) values) = values.
Proof.
  unfold Js.flat.
  induction values as [|v values IH]; [reflexivity|].
  cbn [forallb map List.concat]. intros H. apply andb_prop in H as [Hv Hvs].
  now rewrite (split_free_of _ _ Hv), (IH Hvs).
Qed.

Section Coercion.

Variable receiver : string.

(** On strings the callback of [map] never throws. *)
Lemma Array_map_strings (strings : list string) :
  Array_map (fun value => Value_split receiver Js.comma value) (map v_string strings)
  = Returned (map (Js.split Js.comma) strings).
Proof.
  induction strings as [|s strings IH]; [reflexivity|].
  cbn [map Array_map Value_split]. now rewrite IH.
Qed.

(** [map] comes to an end only on strings. *)
Lemma Array_map_returns (raw : list Value) (pieces : list (list string)) :
  Array_map (fun value => Value_split receiver Js.comma value) raw = Returned pieces ->
  exists strings,
    raw = map v_string strings /\ pieces = map (Js.split Js.comma) strings.
Proof.
  revert pieces. induction raw as [|v raw IH]; intros pieces.
  - intros [= <-]. now exists [].
  - cbn [Array_map]. destruct v as [s|n|b]; cbn [Value_split]; try discriminate.
    destruct (Array_map _ raw) as [rest|e]; [|discriminate].
    intros [= <-]. destruct (IH rest eq_refl) as (strings & -> & ->).
    now exists (s :: strings).
Qed.


End Coercion.

Lemma coerce_strings (strings : list string) :
  actionsOption_coerce (map v_string strings)
  = Returned (Js.flat (map (Js.split Js.comma) strings))
  /\ tagsOption_coerce (map v_string strings)
     = Returned (Js.flat (map (Js.split Js.comma) strings)).
Proof.
  unfold actionsOption_coerce, tagsOption_coerce.
  now rewrite !Array_map_strings.
Qed.

Lemma coerce_returns (raw : list Value) (coerced : list string) :
  actionsOption_coerce raw = Returned coerced
  \/ tagsOption_coerce raw = Returned coerced ->
  exists strings,
    raw = map v_string strings
    /\ coerced = Js.flat (map (Js.split Js.comma) strings).
Proof.
  unfold actionsOption_coerce, tagsOption_coerce. intros [H|H].
  - destruct (Array_map _ raw) as [pieces|e] eqn:Hmap; [|discriminate].
    injection H as <-.
    destruct (Array_map_returns _ _ _ Hmap) as (strings & -> & ->).
    now exists strings.
  - destruct (Array_map _ raw) as [pieces|e] eqn:Hmap; [|discriminate].
    injection H as <-.
    destruct (Array_map_returns _ _ _ Hmap) as (strings & -> & ->).
    now exists strings.
Qed.



(** ** Traces of the commands *)

Lemma existsb_map_never {A : Type} (p : Event -> bool) (f : A -> Event) (xs : list A) :
  (forall x, p (f x) = false) -> existsb p (map f xs) = false.
Proof.
  intros Hp. induction xs as [|x xs IH]; simpl; [reflexivity|].
  now rewrite Hp, IH.
Qed.

Lemma forallb_map_always {A : Type} (p : Event -> bool) (f : A -> Event) (xs : list A) :
  (forall x, p (f x) = true) -> forallb p (map f xs) = true.
Proof.
  intros Hp. induction xs as [|x xs IH]; simpl; [reflexivity|].
  now rewrite Hp, IH.
Qed.

(** A predicate that holds of no event of a trace holds of none of its
    members. *)
Lemma never_In (p : Event -> bool) (t : list Event) (e : Event) :
  existsb p t = false -> In e t -> p e = false.
Proof.
  intros Hnever Hin. destruct (p e) eqn:Hp; [|reflexivity].
  assert (existsb p t = true) by (apply existsb_exists; eauto). congruence.
Qed.

Lemma only_these (p q : Event -> bool) (t : list Event) :
  (forall e, p e = true -> q e = false) ->
  forallb p t = true -> existsb q t = false.
Proof.
  intros Hpq. induction t as [|e t IH]; simpl; [reflexivity|].
  intros H. apply andb_prop in H as [He Ht].
  now rewrite (Hpq e He), (IH Ht).
Qed.

Section CommandTraces.

Variable c : Collaborators.

Lemma printExecutedGraph_prints executionGraph dryRun already executedGraph :
  exists printed trace,
    printExecutedGraph c executionGraph dryRun already executedGraph
    = (Returned printed, trace)
    /\ forallb is_printExecutedAction trace = true.
Proof.
  unfold printExecutedGraph, bind, forEach, ret. do 2 eexists. split; [reflexivity|].
  rewrite app_nil_r. now apply forallb_map_always.
Qed.

Lemma onChange_callbacks_print executionGraph dryRun changes :
  forall already, exists printed trace,
    onChange_callbacks c executionGraph dryRun already changes
    = (Returned printed, trace)
    /\ forallb is_printExecutedAction trace = true.
Proof.
  induction changes as [|executedGraph later IH]; intros already.
  - now exists already, [].
  - cbn [onChange_callbacks].
    destruct (printExecutedGraph_prints executionGraph dryRun already executedGraph)
      as (printed & t1 & -> & H1).
    destruct (IH printed) as (printed' & t2 & H & H2).
    unfold bind. rewrite H. exists printed', (t1 ++ t2)%list. split; [reflexivity|].
    now rewrite forallb_app, H1, H2.
Qed.

(** [actionsByName] is empty exactly when the graph has no action. *)
Lemma actionsByName_size executionGraph :
  Nat.eqb (size (actionsByName c executionGraph)) 0
  = Nat.eqb (length (ExecutionGraph.actions executionGraph)) 0.
Proof.
  unfold actionsByName.
  assert (Hfold : forall (actions : list ExecutionAction.t) byName,
             foldl (fun byName action =>
                      <[ targetAsReadableString c (ExecutionAction.target action)
                         := action ]> byName) byName actions
             = (∅ : gmap string ExecutionAction.t)
             -> actions = [] /\ byName = ∅).
  { induction actions as [|a actions IH]; intros byName H; [now split|].
    cbn [foldl] in H. apply IH in H as [_ H].
    now apply insert_non_empty in H. }
  destruct (ExecutionGraph.actions executionGraph) as [|a actions] eqn:Hactions.
  - reflexivity.
  - cbn [length Nat.eqb]. apply Nat.eqb_neq. intros Hsize.
    apply map_size_empty_iff in Hsize. apply Hfold in Hsize as [Hnil _].
    discriminate.
Qed.

End CommandTraces.

(** ** The guards of the [run] command *)

(** C9 — when [--json] is set and [--dry-run] is not, the [run] command
    prints the usage message and returns at once: the message is the only
    event, so nothing is compiled, built or executed. *)
Theorem run_json_without_dry_run (c : Collaborators) (argv : Argv.t) :
  Argv.json argv = true ->
  Js.truthy_bool (Argv.dryRun argv) = false ->
  run_processFn c argv = (Returned None, [print usage_message]).
Proof.
  intros Hjson Hdry. unfold run_processFn. now rewrite Hjson, Hdry.
Qed.

Lemma run_json_without_dry_run_witness :
  Argv.json Sample.jsonOnly = true
  /\ Js.truthy_bool (Argv.dryRun Sample.jsonOnly) = false
  /\ run_processFn Sample.succeeding Sample.jsonOnly
     = (Returned None, [print usage_message]).
Proof.
  split; [reflexivity|]. split; [reflexivity|].
  apply (run_json_without_dry_run Sample.succeeding Sample.jsonOnly); reflexivity.
Defined.

(** C5 — when the compiled graph carries a compilation error, the [test]
    command, and the [run] command once past its [--json] guard, print those
    errors and return 1 right after the call to the compiler: the
    credentials are not read, no execution graph is built, and neither the
    unit tests nor the runner are called. *)
Theorem compilation_errors_stop (c : Collaborators) (argv : Argv.t)
    (compiledGraph : CompiledGraph.t) :
  compile c (compileOptions argv) = Returned compiledGraph ->
  compiledGraphHasErrors compiledGraph = true ->
  test_processFn c argv
  = (Returned (Some 1),
     [print ("Compiling..." ++ Js.newline);
      call_compile (compileOptions argv);
      printCompiledGraphErrors (CompiledGraph.graphErrors compiledGraph)])
  /\ (Argv.json argv && negb (Js.truthy_bool (Argv.dryRun argv)) = false ->
      run_processFn c argv
      = (Returned (Some 1),
         (if Argv.json argv then [] else [print ("Compiling..." ++ Js.newline)])
         ++ [call_compile (compileOptions argv);
             printCompiledGraphErrors (CompiledGraph.graphErrors compiledGraph)])%list
      /\ existsb is_call_build (snd (run_processFn c argv)) = false
      /\ existsb is_dispatch (snd (run_processFn c argv)) = false).
Proof.
  intros Hcompile Herrors. split.
  - unfold test_processFn, bind, call, emit, ret.
    now rewrite Hcompile, Herrors.
  - intros Hguard.
    assert (Hrun : run_processFn c argv
                   = (Returned (Some 1),
                      (if Argv.json argv then []
                       else [print ("Compiling..." ++ Js.newline)])
                      ++ [call_compile (compileOptions argv);
                          printCompiledGraphErrors
                            (CompiledGraph.graphErrors compiledGraph)])%list).
    { unfold run_processFn, bind, call, emit, ret, when.
      rewrite Hguard, Hcompile, Herrors. now destruct (Argv.json argv). }
    rewrite Hrun. split; [reflexivity|].
    now destruct (Argv.json argv).
Qed.

Lemma compilation_errors_stop_witness :
  compile Sample.notCompiling (compileOptions Sample.plain) = Returned Sample.broken
  /\ compiledGraphHasErrors Sample.broken = true
  /\ fst (test_processFn Sample.notCompiling Sample.plain) = Returned (Some 1)
  /\ fst (run_processFn Sample.notCompiling Sample.plain) = Returned (Some 1)
  /\ existsb is_call_build (snd (run_processFn Sample.notCompiling Sample.plain))
     = false.
Proof.
  split; [reflexivity|]. split; [reflexivity|].
  destruct (compilation_errors_stop Sample.notCompiling Sample.plain Sample.broken
              eq_refl eq_refl) as [Htest Hrun].
  destruct (Hrun eq_refl) as (Hrun' & Hbuild & _).
  rewrite Htest, Hrun'. split; [reflexivity|]. split; [reflexivity|exact Hbuild].
Defined.

(** ** Every invocation of [run] follows one of the paths *)

Section Adequacy.

Variable c : Collaborators.
Variable argv : Argv.t.

Lemma run_dispatch_path dbadapter executionGraph :
  dispatch_path c argv dbadapter executionGraph
    (fst (run_dispatch c argv dbadapter executionGraph))
    (snd (run_dispatch c argv dbadapter executionGraph)).
Proof.
  unfold run_dispatch. rewrite actionsByName_size.
  destruct (ExecutionGraph.actions executionGraph) as [|a actions] eqn:Hactions.
  - cbn. now constructor.
  - cbn [length Nat.eqb].
    destruct (onChange_callbacks_print c executionGraph (Argv.dryRun argv)
                (Runner.changes (run c dbadapter executionGraph (bigqueryOptions argv)))
                ∅) as (printed & changes & Hchanges & Hprints).
    unfold bind at 1 2 3 4. unfold emit at 2 3 4.
    rewrite Hchanges.
    destruct (Runner.result (run c dbadapter executionGraph (bigqueryOptions argv)))
      as [runResult|e] eqn:Hresult.
    + destruct (printExecutedGraph_prints c executionGraph (Argv.dryRun argv)
                  printed runResult) as (printed' & final & Hfinal & Hprints').
      unfold bind, silently, emit, ret. rewrite Hfinal.
      destruct (Js.truthy_bool (Argv.dryRun argv)) eqn:Hdry; cbn [fst snd].
      * replace (_ ++ _)%list with
          ([startLine argv; call_run dbadapter executionGraph (bigqueryOptions argv);
            on_SIGINT; runner_onChange]
           ++ changes ++ [await_result runResult] ++ final)%list.
        { apply path_completed; try assumption. rewrite Hactions. discriminate. }
        unfold startLine. rewrite Hdry. cbn. now rewrite app_nil_r.
      * replace (_ ++ _)%list with
          ([startLine argv; call_run dbadapter executionGraph (bigqueryOptions argv);
            on_SIGINT; runner_onChange]
           ++ changes ++ [await_result runResult] ++ final)%list.
        { apply path_completed; try assumption. rewrite Hactions. discriminate. }
        unfold startLine. rewrite Hdry. cbn. now rewrite app_nil_r.
    + unfold bind, silently, emit.
      destruct (Js.truthy_bool (Argv.dryRun argv)) eqn:Hdry; cbn [fst snd].
      * replace (_ ++ _)%list with
          ([startLine argv; call_run dbadapter executionGraph (bigqueryOptions argv);
            on_SIGINT; runner_onChange] ++ changes)%list.
        { apply path_runner_threw; try assumption. rewrite Hactions. discriminate. }
        unfold startLine. rewrite Hdry. cbn. now rewrite app_nil_r.
      * replace (_ ++ _)%list with
          ([startLine argv; call_run dbadapter executionGraph (bigqueryOptions argv);
            on_SIGINT; runner_onChange] ++ changes)%list.
        { apply path_runner_threw; try assumption. rewrite Hactions. discriminate. }
        unfold startLine. rewrite Hdry. cbn. now rewrite app_nil_r.
Qed.

Lemma run_after_build_path compiledGraph dbadapter executionGraph :
  after_build_path c argv compiledGraph dbadapter executionGraph
    (fst (run_after_build c argv compiledGraph dbadapter executionGraph))
    (snd (run_after_build c argv compiledGraph dbadapter executionGraph)).
Proof.
  pose proof (run_dispatch_path dbadapter executionGraph) as Hdispatch.
  unfold run_after_build.
  destruct (run_dispatch c argv dbadapter executionGraph) as [r t].
  cbn [fst snd] in Hdispatch.
  destruct (Js.truthy_bool (Argv.runTests argv)) eqn:Htests;
    [|now apply path_tests_not_requested].
  unfold bind, emit, call, forEach, ret.
  destruct (test c dbadapter (CompiledGraph.tests compiledGraph))
    as [testResults|e] eqn:Htest.
  - destruct (existsb _ testResults) eqn:Hfailed; cbn [fst snd].
    + rewrite app_nil_r. now apply path_tests_failed.
    + now apply path_tests_passed.
  - cbn [fst snd]. now apply path_tests_threw.
Qed.

Lemma run_processFn_path :
  run_path c argv (fst (run_processFn c argv)) (snd (run_processFn c argv)).
Proof.
  unfold run_processFn.
  destruct (Argv.json argv && negb (Js.truthy_bool (Argv.dryRun argv))) eqn:Hguard;
    [now apply path_usage|].
  assert (Hwhen1 : when (negb (Argv.json argv))
                     (emit (print ("Compiling..." ++ Js.newline)))
                   = (Returned tt, compilingLine argv)).
  { unfold when, compilingLine. now destruct (Argv.json argv). }
  assert (Hwhen2 : when (negb (Argv.json argv))
                     (emit (printSuccess ("Compiled successfully." ++ Js.newline)))
                   = (Returned tt, compiledLine argv)).
  { unfold when, compiledLine. now destruct (Argv.json argv). }
  rewrite Hwhen1, Hwhen2. fold (credentialsPath c argv).
  unfold bind, call, emit, ret.
  destruct (compile c (compileOptions argv)) as [compiledGraph|e] eqn:Hcompile;
    [|now apply path_compile_threw].
  destruct (compiledGraphHasErrors compiledGraph) eqn:Herrors.
  { cbn [fst snd]. now apply path_compilation_errors. }
  destruct (credentials_read c (credentialsPath c argv))
    as [readCredentials|e] eqn:Hcredentials.
  2:{ cbn [fst snd]. now apply path_credentials_threw with compiledGraph. }
  set (dbadapter := {| adapter_credentials := readCredentials |}).
  destruct (build c compiledGraph (runConfig argv) dbadapter)
    as [executionGraph|e] eqn:Hbuild.
  2:{ cbn [fst snd].
      replace (_ ++ _)%list with (buildPrefix c argv compiledGraph dbadapter).
      { now apply path_build_threw. }
      unfold buildPrefix. cbn [app]. reflexivity. }
  pose proof (run_after_build_path compiledGraph dbadapter executionGraph) as Hafter.
  destruct (run_after_build c argv compiledGraph dbadapter executionGraph) as [r t].
  cbn [fst snd] in Hafter.
  destruct (Js.truthy_bool (Argv.dryRun argv) && Argv.json argv) eqn:Hdry;
    cbn [fst snd].
  - replace (_ ++ _)%list with
      (buildPrefix c argv compiledGraph dbadapter
       ++ [printExecutionGraph executionGraph (Argv.json argv)])%list.
    { now apply path_dry_run_json. }
    unfold buildPrefix.
    repeat (rewrite <- app_assoc || rewrite <- app_comm_cons); cbn [app].
    reflexivity.
  - replace (_ ++ _)%list with (buildPrefix c argv compiledGraph dbadapter ++ t)%list.
    { now apply path_after_build with executionGraph. }
    unfold buildPrefix.
    repeat (rewrite <- app_assoc || rewrite <- app_comm_cons); cbn [app].
    reflexivity.
Qed.

End Adequacy.

(** ** The code returned by [run] *)

Lemma ExecutionStatus_eqb_eq (a b : ExecutionStatus) :
  ExecutionStatus_eqb a b = true <-> a = b.
Proof. destruct a, b; simpl; split; congruence. Qed.

Lemma In_only (p : Event -> bool) (t : list Event) (e : Event) :
  forallb p t = true -> In e t -> p e = true.
Proof. intros H Hin. now apply (proj1 (forallb_forall p t) H). Qed.

(** Splits a membership in a trace of a path into its segments and closes
    the segments in which the event cannot occur. *)
Ltac trace_cases :=
  repeat match goal with
         | H : In _ (_ ++ _)%list |- _ => apply in_app_or in H; destruct H as [H|H]
         | H : In _ (_ :: _) |- _ => destruct H as [H|H]
         | H : In _ [] |- _ => destruct H
         | H : In _ (compilingLine ?a) |- _ =>
             unfold compilingLine in H; destruct (Argv.json a) eqn:?
         | H : In _ (compiledLine ?a) |- _ =>
             unfold compiledLine in H; destruct (Argv.json a) eqn:?
         | H : In _ (buildPrefix _ _ _ _) |- _ => unfold buildPrefix in H
         | H : In _ (map _ _) |- _ => apply in_map_iff in H; destruct H as (? & H & _)
         | H : In ?e ?t, Hall : forallb ?p ?t = true |- _ =>
             apply (In_only p t e Hall) in H; simpl in H
         | H : startLine ?a = _ |- _ =>
             unfold startLine in H; destruct (Js.truthy_bool (Argv.dryRun a)) eqn:?
         | H : @eq Event _ _ |- _ =>
             first [ discriminate H
                   | unfold testsLine, no_actions_message in H;
                     cbn [String.append] in H; discriminate H
                   | inversion H; subst; clear H ]
         | H : @eq bool _ _ |- _ => discriminate H
         end.

(** Settles [exit_code_rule] on a path whose trace is explicit. *)
Ltac rule_by_cases :=
  unfold exit_code_rule; repeat split; intros; trace_cases;
  try discriminate; try reflexivity;
  try (match goal with
       | H : Returned _ = Returned _ |- _ => injection H as <-
       end; auto).

(** Events that are no evidence may be put in front of a trace. *)
Lemma exit_code_rule_after (before t : list Event) (r : Completion (option Z)) :
  existsb is_exit_evidence before = false ->
  exit_code_rule r t -> exit_code_rule r (before ++ t).
Proof.
  intros Hquiet (Hawait & Hnone & Hgraph & Hzero & Hcodes).
  assert (Hout : forall e, In e (before ++ t) -> is_exit_evidence e = true -> In e t).
  { intros e Hin He. apply in_app_or in Hin as [Hin|Hin]; [|assumption].
    rewrite (never_In _ _ _ Hquiet Hin) in He. discriminate. }
  repeat split.
  - intros runResult Hin. apply Hawait, Hout; [assumption|reflexivity].
  - intros Hin. apply Hnone, Hout; [assumption|reflexivity].
  - intros g j Hin. apply (Hgraph g j), Hout; [assumption|reflexivity].
  - intros Hr. destruct (Hzero Hr) as [(runResult & Hin & Hs)|Hin].
    + left. exists runResult. split; [apply in_or_app; now right|assumption].
    + right. apply in_or_app. now right.
  - assumption.
Qed.

Section ExitCode.

Variable c : Collaborators.
Variable argv : Argv.t.

Lemma dispatch_exit_code dbadapter executionGraph r t :
  dispatch_path c argv dbadapter executionGraph r t -> exit_code_rule r t.
Proof.
  intros Hpath.
  destruct Hpath as [Hempty | e changes Hne Hres Hch
                    | runResult changes final Hne Hres Hch Hfin];
    unfold exit_code_rule; repeat split.
  - intros rr Hin. trace_cases.
  - intros g j Hin. trace_cases.
  - intros _. right. now left.
  - intros code Hcode. injection Hcode as <-. auto.
  - intros rr Hin. trace_cases.
  - intros Hin. trace_cases.
  - intros g j Hin. trace_cases.
  - discriminate.
  - discriminate.
  - intros rr Hin. trace_cases. reflexivity.
  - intros Hin. trace_cases.
  - intros g j Hin. trace_cases.
  - intros Hcode. left. exists runResult. split.
    + apply in_or_app. right. apply in_or_app. right. now left.
    + apply ExecutionStatus_eqb_eq.
      destruct (ExecutionStatus_eqb (RunResult.status runResult) SUCCESSFUL);
        [reflexivity|discriminate].
  - intros code Hcode. injection Hcode as <-.
    destruct (ExecutionStatus_eqb (RunResult.status runResult) SUCCESSFUL); auto.
Qed.

Lemma after_build_exit_code compiledGraph dbadapter executionGraph r t :
  after_build_path c argv compiledGraph dbadapter executionGraph r t ->
  exit_code_rule r t.
Proof.
  intros Hpath.
  destruct Hpath as [e Htests Htest | testResults Htests Htest Hfailed
                    | testResults r t Htests Htest Hpassed Hdispatch
                    | r t Htests Hdispatch].
  - rule_by_cases.
  - rule_by_cases.
  - apply exit_code_rule_after; [reflexivity|].
    apply exit_code_rule_after; [now apply existsb_map_never|].
    apply exit_code_rule_after; [reflexivity|].
    now apply dispatch_exit_code with dbadapter executionGraph.
  - now apply dispatch_exit_code with dbadapter executionGraph.
Qed.

Lemma buildPrefix_no_evidence compiledGraph dbadapter :
  existsb is_exit_evidence (buildPrefix c argv compiledGraph dbadapter) = false.
Proof.
  unfold buildPrefix, compilingLine, compiledLine.
  now destruct (Argv.json argv).
Qed.

Lemma run_path_exit_code r t : run_path c argv r t -> exit_code_rule r t.
Proof.
  intros Hpath.
  destruct Hpath as [Hguard | e Hguard Hcompile
                    | compiledGraph Hguard Hcompile Herrors
                    | compiledGraph e Hguard Hcompile Herrors Hcredentials
                    | compiledGraph readCredentials e Hguard Hcompile Herrors
                        Hcredentials Hbuild
                    | compiledGraph readCredentials executionGraph Hguard Hcompile
                        Herrors Hcredentials Hbuild Hdry
                    | compiledGraph readCredentials executionGraph r t Hguard
                        Hcompile Herrors Hcredentials Hbuild Hdry Hafter].
  1-6: rule_by_cases.
  apply exit_code_rule_after; [apply buildPrefix_no_evidence|].
  now apply after_build_exit_code
    with compiledGraph {| adapter_credentials := readCredentials |} executionGraph.
Qed.

End ExitCode.

(** The runner's result is reached, and decides the code, whenever the
    project compiles, the graph is built and is not empty, and no unit
    tests were asked for; a dry run takes the same path unless [--json]
    is set. *)
Lemma run_reaches_runner (c : Collaborators) (argv : Argv.t)
    (compiledGraph : CompiledGraph.t) (readCredentials : Credentials.t)
    (executionGraph : ExecutionGraph.t) (runResult : RunResult.t) :
  Argv.json argv = false ->
  Js.truthy_bool (Argv.runTests argv) = false ->
  compile c (compileOptions argv) = Returned compiledGraph ->
  compiledGraphHasErrors compiledGraph = false ->
  credentials_read c (credentialsPath c argv) = Returned readCredentials ->
  build c compiledGraph (runConfig argv) {| adapter_credentials := readCredentials |}
  = Returned executionGraph ->
  ExecutionGraph.actions executionGraph <> [] ->
  Runner.result (run c {| adapter_credentials := readCredentials |} executionGraph
                   (bigqueryOptions argv)) = Returned runResult ->
  fst (run_processFn c argv)
  = Returned (Some (if ExecutionStatus_eqb (RunResult.status runResult) SUCCESSFUL
                    then 0 else 1))
  /\ In (await_result runResult) (snd (run_processFn c argv))
  /\ In (call_run {| adapter_credentials := readCredentials |} executionGraph
           (bigqueryOptions argv)) (snd (run_processFn c argv)).
Proof.
  intros Hjson Htests Hcompile Herrors Hcredentials Hbuild Hactions Hresult.
  pose proof (run_processFn_path c argv) as Hpath.
  destruct (run_processFn c argv) as [r t]. cbn [fst snd] in *.
  destruct Hpath as [Hguard | e Hguard Hcompile'
                    | compiledGraph' Hguard Hcompile' Herrors'
                    | compiledGraph' e Hguard Hcompile' Herrors' Hcredentials'
                    | compiledGraph' readCredentials' e Hguard Hcompile' Herrors'
                        Hcredentials' Hbuild'
                    | compiledGraph' readCredentials' executionGraph' Hguard Hcompile'
                        Herrors' Hcredentials' Hbuild' Hdry
                    | compiledGraph' readCredentials' executionGraph' r t Hguard
                        Hcompile' Herrors' Hcredentials' Hbuild' Hdry Hafter];
    try (rewrite Hjson in *; discriminate);
    try congruence.
  - rewrite Hjson, andb_false_r in Hdry. discriminate.
  - rewrite Hcompile in Hcompile'. injection Hcompile' as <-.
    rewrite Hcredentials in Hcredentials'. injection Hcredentials' as <-.
    rewrite Hbuild in Hbuild'. injection Hbuild' as <-.
    destruct Hafter as [e' Htests' _ | testResults Htests' _ _
                       | testResults r t Htests' _ _ _
                       | r t _ Hdispatch]; try congruence.
    destruct Hdispatch as [Hempty | e' changes _ Hres _
                          | runResult' changes final _ Hres _ _]; try congruence.
    rewrite Hresult in Hres. injection Hres as <-.
    split; [reflexivity|]. split.
    + apply in_or_app. right. apply in_or_app. right.
      apply in_or_app. right. now left.
    + apply in_or_app. right. right. now left.
Qed.

(** With an empty execution graph the command says so and returns 0
    without calling the runner. *)
Lemma run_nothing_selected :
  run_processFn Sample.nothingSelected Sample.plain
  = (Returned (Some 0),
     [print ("Compiling..." ++ Js.newline);
      call_compile (compileOptions Sample.plain);
      printSuccess ("Compiled successfully." ++ Js.newline);
      call_credentials_read (credentialsPath Sample.nothingSelected Sample.plain);
      call_build Sample.compiled (runConfig Sample.plain) Sample.adapter;
      print no_actions_message]).
Proof. vm_compute. reflexivity. Qed.

(** A dry run goes through the runner like any other run: when the
    runner reports a failure the command returns 1, not 0.  Nor does an
    empty execution graph always give 0: with [--run-tests] a failed unit
    test ends the command with 1 before the graph is looked at. *)
Lemma dry_run_failure_returns_1 :
  Js.truthy_bool (Argv.dryRun Sample.dryRun) = true
  /\ In (await_result (Sample.resultOf FAILED))
       (snd (run_processFn Sample.failing Sample.dryRun))
  /\ fst (run_processFn Sample.failing Sample.dryRun) = Returned (Some 1)
  /\ fst (run_processFn Sample.failing Sample.dryRun) <> Returned (Some 0)
  /\ ExecutionGraph.actions Sample.emptyGraph = []
  /\ fst (run_processFn
            (Sample.collaborators Sample.compiled Sample.emptyGraph false SUCCESSFUL)
            Sample.withTests)
     = Returned (Some 1).
Proof.
  assert (Hempty : fst (run_processFn
                          (Sample.collaborators Sample.compiled Sample.emptyGraph
                             false SUCCESSFUL)
                          Sample.withTests)
                   = Returned (Some 1)) by (vm_compute; reflexivity).
  split; [reflexivity|].
  assert (Hactions : ExecutionGraph.actions Sample.graph <> []) by discriminate.
  destruct (run_reaches_runner Sample.failing Sample.dryRun
              Sample.compiled Sample.storedCredentials
              Sample.graph (Sample.resultOf FAILED))
    as (Hcode & Hawait & _);
    [vm_compute; reflexivity .. | exact Hactions | vm_compute; reflexivity |].
  split; [exact Hawait|]. rewrite Hcode. split; [reflexivity|].
  split; [discriminate|]. split; [reflexivity|exact Hempty].
Qed.

(** ** The unit-test gate *)

Lemma failed_test_printed (testResults : list TestResult.t) :
  existsb is_failed_test (map printTestResult testResults)
  = existsb (fun testResult => negb (TestResult.successful testResult)) testResults.
Proof.
  induction testResults as [|r rs IH]; simpl; [reflexivity|]. now rewrite IH.
Qed.

Section TestGate.

Variable c : Collaborators.
Variable argv : Argv.t.

Lemma dispatch_no_failed_test dbadapter executionGraph r t :
  dispatch_path c argv dbadapter executionGraph r t ->
  existsb is_failed_test t = false.
Proof.
  intros Hpath.
  assert (Hquiet : forall e, is_printExecutedAction e = true -> is_failed_test e = false)
    by (intros []; simpl; congruence).
  destruct Hpath as [Hempty | e changes Hne Hres Hch
                    | runResult changes final Hne Hres Hch Hfin].
  - reflexivity.
  - rewrite existsb_app, (only_these _ _ _ Hquiet Hch).
    unfold startLine. now destruct (Js.truthy_bool (Argv.dryRun argv)).
  - rewrite !existsb_app, (only_these _ _ _ Hquiet Hch), (only_these _ _ _ Hquiet Hfin).
    unfold startLine. now destruct (Js.truthy_bool (Argv.dryRun argv)).
Qed.

Lemma after_build_failed_test compiledGraph dbadapter executionGraph r t :
  after_build_path c argv compiledGraph dbadapter executionGraph r t ->
  existsb is_failed_test t = true ->
  r = Returned (Some 1)
  /\ existsb is_call_run t = false /\ existsb is_await_result t = false.
Proof.
  intros Hpath.
  destruct Hpath as [e Htests Htest | testResults Htests Htest Hfailed
                    | testResults r t Htests Htest Hpassed Hdispatch
                    | r t Htests Hdispatch].
  - discriminate.
  - intros _. split; [reflexivity|].
    rewrite !existsb_app, !existsb_map_never by reflexivity. now split.
  - rewrite !existsb_app, failed_test_printed, Hpassed.
    rewrite (dispatch_no_failed_test _ _ _ _ Hdispatch). discriminate.
  - rewrite (dispatch_no_failed_test _ _ _ _ Hdispatch). discriminate.
Qed.

Lemma buildPrefix_quiet compiledGraph dbadapter :
  existsb is_failed_test (buildPrefix c argv compiledGraph dbadapter) = false
  /\ existsb is_call_run (buildPrefix c argv compiledGraph dbadapter) = false
  /\ existsb is_await_result (buildPrefix c argv compiledGraph dbadapter) = false
  /\ existsb is_call_test (buildPrefix c argv compiledGraph dbadapter) = false
  /\ existsb is_printExecutionGraph (buildPrefix c argv compiledGraph dbadapter) = false.
Proof.
  unfold buildPrefix, compilingLine, compiledLine.
  now destruct (Argv.json argv).
Qed.

End TestGate.

(** When the gate is reached and a unit test fails, every result is
    reported, the run is aborted with the error line, and 1 is returned. *)
Lemma failing_test_is_reported (c : Collaborators) (argv : Argv.t)
    (compiledGraph : CompiledGraph.t) (readCredentials : Credentials.t)
    (executionGraph : ExecutionGraph.t) (testResults : list TestResult.t) :
  let dbadapter := {| adapter_credentials := readCredentials |} in
  Argv.json argv = false ->
  Js.truthy_bool (Argv.runTests argv) = true ->
  compile c (compileOptions argv) = Returned compiledGraph ->
  compiledGraphHasErrors compiledGraph = false ->
  credentials_read c (credentialsPath c argv) = Returned readCredentials ->
  build c compiledGraph (runConfig argv) dbadapter = Returned executionGraph ->
  test c dbadapter (CompiledGraph.tests compiledGraph) = Returned testResults ->
  existsb (fun testResult => negb (TestResult.successful testResult)) testResults = true ->
  run_processFn c argv
  = (Returned (Some 1),
     buildPrefix c argv compiledGraph dbadapter
     ++ [testsLine compiledGraph;
         call_test dbadapter (CompiledGraph.tests compiledGraph)]
     ++ map printTestResult testResults
     ++ [printError (Js.newline ++ "Unit tests did not pass; aborting run.")])%list.
Proof.
  intros dbadapter Hjson Htests Hcompile Herrors Hcredentials Hbuild Htest Hfailed.
  unfold run_processFn, run_after_build, bind, call, emit, ret, when, forEach.
  fold (credentialsPath c argv).
  rewrite Hjson, Htests. cbn [negb andb].
  rewrite Hcompile, Herrors, Hcredentials. fold dbadapter.
  rewrite Hbuild, andb_false_r, Htest, Hfailed.
  unfold buildPrefix, compilingLine, compiledLine, testsLine. rewrite Hjson.
  cbn [app]. reflexivity.
Qed.

(** C10 — in every invocation of [run] with [--run-tests] in which a unit
    test is reported as not successful, the command returns 1, the
    execution graph is never handed to the runner and no run result is
    awaited. *)
Theorem failed_unit_test_aborts_run (c : Collaborators) (argv : Argv.t)
    (r : Completion (option Z)) (t : list Event) :
  Js.truthy_bool (Argv.runTests argv) = true ->
  run_processFn c argv = (r, t) ->
  existsb is_failed_test t = true ->
  r = Returned (Some 1)
  /\ existsb is_call_run t = false
  /\ existsb is_await_result t = false.
Proof.
  intros _ Hrun Hfailed. pose proof (run_processFn_path c argv) as Hpath.
  rewrite Hrun in Hpath. cbn [fst snd] in Hpath.
  destruct Hpath as [Hguard | e Hguard Hcompile
                    | compiledGraph Hguard Hcompile Herrors
                    | compiledGraph e Hguard Hcompile Herrors Hcredentials
                    | compiledGraph readCredentials e Hguard Hcompile Herrors
                        Hcredentials Hbuild
                    | compiledGraph readCredentials executionGraph Hguard Hcompile
                        Herrors Hcredentials Hbuild Hdry
                    | compiledGraph readCredentials executionGraph r t Hguard
                        Hcompile Herrors Hcredentials Hbuild Hdry Hafter].
  - discriminate.
  - unfold compilingLine in Hfailed. destruct (Argv.json argv); discriminate.
  - unfold compilingLine in Hfailed. destruct (Argv.json argv); discriminate.
  - unfold compilingLine, compiledLine in Hfailed.
    destruct (Argv.json argv); discriminate.
  - now rewrite (proj1 (buildPrefix_quiet c argv _ _)) in Hfailed.
  - rewrite existsb_app, (proj1 (buildPrefix_quiet c argv _ _)) in Hfailed.
    discriminate.
  - destruct (buildPrefix_quiet c argv compiledGraph
                {| adapter_credentials := readCredentials |})
      as (Hq1 & Hq2 & Hq3 & _).
    rewrite existsb_app, Hq1 in Hfailed.
    destruct (after_build_failed_test c argv _ _ _ _ _ Hafter Hfailed)
      as (-> & Hrun' & Hawait).
    now rewrite !existsb_app, Hq2, Hq3, Hrun', Hawait.
Qed.

Lemma failed_unit_test_aborts_run_witness :
  Js.truthy_bool (Argv.runTests Sample.withTests) = true
  /\ existsb is_failed_test (snd (run_processFn Sample.failingTest Sample.withTests))
     = true
  /\ fst (run_processFn Sample.failingTest Sample.withTests) = Returned (Some 1)
  /\ existsb is_call_run (snd (run_processFn Sample.failingTest Sample.withTests))
     = false.
Proof.
  split; [reflexivity|].
  set (c := Sample.failingTest). set (argv := Sample.withTests).
  assert (Hfailed : existsb is_failed_test (snd (run_processFn c argv)) = true)
    by (vm_compute; reflexivity).
  split; [exact Hfailed|].
  destruct (failed_unit_test_aborts_run c argv
              (fst (run_processFn c argv)) (snd (run_processFn c argv)))
    as (Hcode & Hrun & _);
    [reflexivity | now destruct (run_processFn c argv) | exact Hfailed |].
  split; [exact Hcode|exact Hrun].
Defined.

(** ** Dry runs *)

Section DryRun.

Variable c : Collaborators.
Variable argv : Argv.t.

(** The runner is only ever called on the graph that [build] returned,
    with the options assembled from the arguments. *)
Lemma dispatch_calls_runner dbadapter executionGraph r t a g o :
  dispatch_path c argv dbadapter executionGraph r t ->
  In (call_run a g o) t ->
  a = dbadapter /\ g = executionGraph /\ o = bigqueryOptions argv.
Proof.
  intros Hpath Hin.
  destruct Hpath as [Hempty | e changes Hne Hres Hch
                    | runResult changes final Hne Hres Hch Hfin];
    trace_cases; now repeat split.
Qed.

Lemma after_build_calls_runner compiledGraph dbadapter executionGraph r t a g o :
  after_build_path c argv compiledGraph dbadapter executionGraph r t ->
  In (call_run a g o) t ->
  a = dbadapter /\ g = executionGraph /\ o = bigqueryOptions argv.
Proof.
  intros Hpath Hin.
  destruct Hpath as [e Htests Htest | testResults Htests Htest Hfailed
                    | testResults r t Htests Htest Hpassed Hdispatch
                    | r t Htests Hdispatch];
    trace_cases; eauto using dispatch_calls_runner.
Qed.

Lemma run_path_calls_runner r t a g o :
  run_path c argv r t ->
  In (call_run a g o) t ->
  o = bigqueryOptions argv
  /\ exists compiledGraph,
       compile c (compileOptions argv) = Returned compiledGraph
       /\ build c compiledGraph (runConfig argv) a = Returned g.
Proof.
  intros Hpath Hin.
  destruct Hpath as [Hguard | e Hguard Hcompile
                    | compiledGraph Hguard Hcompile Herrors
                    | compiledGraph e Hguard Hcompile Herrors Hcredentials
                    | compiledGraph readCredentials e Hguard Hcompile Herrors
                        Hcredentials Hbuild
                    | compiledGraph readCredentials executionGraph Hguard Hcompile
                        Herrors Hcredentials Hbuild Hdry
                    | compiledGraph readCredentials executionGraph r t Hguard
                        Hcompile Herrors Hcredentials Hbuild Hdry Hafter];
    trace_cases.
  destruct (after_build_calls_runner _ _ _ _ _ _ _ _ Hafter Hin) as (-> & -> & ->).
  split; [reflexivity|]. now exists compiledGraph.
Qed.

Lemma dispatch_never_prints_graph dbadapter executionGraph r t :
  dispatch_path c argv dbadapter executionGraph r t ->
  existsb is_printExecutionGraph t = false.
Proof.
  intros Hpath.
  assert (Hquiet : forall e, is_printExecutedAction e = true
                             -> is_printExecutionGraph e = false)
    by (intros []; simpl; congruence).
  destruct Hpath as [Hempty | e changes Hne Hres Hch
                    | runResult changes final Hne Hres Hch Hfin].
  - reflexivity.
  - rewrite existsb_app, (only_these _ _ _ Hquiet Hch).
    unfold startLine. now destruct (Js.truthy_bool (Argv.dryRun argv)).
  - rewrite !existsb_app, (only_these _ _ _ Hquiet Hch), (only_these _ _ _ Hquiet Hfin).
    unfold startLine. now destruct (Js.truthy_bool (Argv.dryRun argv)).
Qed.

Lemma after_build_never_prints_graph compiledGraph dbadapter executionGraph r t :
  after_build_path c argv compiledGraph dbadapter executionGraph r t ->
  existsb is_printExecutionGraph t = false.
Proof.
  intros Hpath.
  destruct Hpath as [e Htests Htest | testResults Htests Htest Hfailed
                    | testResults r t Htests Htest Hpassed Hdispatch
                    | r t Htests Hdispatch].
  - reflexivity.
  - now rewrite !existsb_app, !existsb_map_never by reflexivity.
  - rewrite !existsb_app, !existsb_map_never by reflexivity.
    now rewrite (dispatch_never_prints_graph _ _ _ _ Hdispatch).
  - now apply dispatch_never_prints_graph with dbadapter executionGraph r.
Qed.

End DryRun.

Lemma truthy_bool_true (b : option bool) : Js.truthy_bool b = true -> b = Some true.
Proof. destruct b as [[|]|]; simpl; congruence. Qed.

(** The options handed to the runner carry the retry limit of the
    arguments, and [dryRun] exactly when [--dry-run] is set. *)
Lemma bigqueryOptions_fields (argv : Argv.t) :
  BigqueryOptions.actionRetryLimit (bigqueryOptions argv) = Argv.actionRetryLimit argv
  /\ BigqueryOptions.dryRun (bigqueryOptions argv)
     = (if Js.truthy_bool (Argv.dryRun argv) then Some true else None).
Proof.
  unfold bigqueryOptions.
  destruct (Js.truthy_bool (Argv.dryRun argv)) eqn:Hdry,
           (Js.truthy_string (Argv.jobPrefix argv)); cbn; split; try reflexivity;
    now apply truthy_bool_true.
Qed.

(** A dry run without [--json] does not print the execution graph: it
    hands it to the runner, and what is reported is the run result, here
    with an action that failed. *)
Lemma dry_run_goes_through_runner :
  Js.truthy_bool (Argv.dryRun Sample.dryRun) = true
  /\ In (call_run Sample.adapter Sample.graph (bigqueryOptions Sample.dryRun))
       (snd (run_processFn Sample.failing Sample.dryRun))
  /\ existsb is_printExecutionGraph (snd (run_processFn Sample.failing Sample.dryRun))
     = false
  /\ In (await_result (Sample.resultOf FAILED))
       (snd (run_processFn Sample.failing Sample.dryRun))
  /\ In (printExecutedAction
           {| ActionResult.target := Sample.target_a; ActionResult.status := FAILED |}
           (Some Sample.action_a) (Some true))
       (snd (run_processFn Sample.failing Sample.dryRun)).
Proof.
  set (c := Sample.failing). set (argv := Sample.dryRun).
  split; [reflexivity|].
  assert (Hactions : ExecutionGraph.actions Sample.graph <> []) by discriminate.
  destruct (run_reaches_runner c argv Sample.compiled Sample.storedCredentials
              Sample.graph (Sample.resultOf FAILED))
    as (_ & Hawait & Hrun);
    [vm_compute; reflexivity .. | exact Hactions | vm_compute; reflexivity |].
  split; [exact Hrun|]. split; [vm_compute; reflexivity|]. split; [exact Hawait|].
  vm_compute. repeat (first [left; reflexivity | right]).
Qed.

(** ** Selection flags without a selection *)

(** C4 — when [--include-deps] or [--include-dependents] is set and neither
    [--actions] nor [--tags] is supplied, the check of that flag throws the
    error naming the flag, and the command ends with a thrown error and an
    empty trace: nothing is compiled, built or run. *)
Theorem include_flags_need_selection (c : Collaborators) (argv : Argv.t) :
  Js.truthy_bool (Argv.includeDeps argv) = true
  \/ Js.truthy_bool (Argv.includeDependents argv) = true ->
  Argv.actions argv = None ->
  Argv.tags argv = None ->
  (Js.truthy_bool (Argv.includeDeps argv) = true ->
   includeDepsOption_check argv
   = Thrown (new_Error
       "The --include-deps flag should only be supplied along with --actions or --tags."))
  /\ (Js.truthy_bool (Argv.includeDependents argv) = true ->
      includeDependentsOption_check argv
      = Thrown (new_Error
          "The --include-dependents flag should only be supplied along with --actions or --tags."))
  /\ exists e, run_command c argv = (Thrown e, []).
Proof.
  intros Hflag Hactions Htags.
  assert (Hdeps : Js.truthy_bool (Argv.includeDeps argv) = true ->
                  includeDepsOption_check argv
                  = Thrown (new_Error
                      "The --include-deps flag should only be supplied along with --actions or --tags.")).
  { intros H. unfold includeDepsOption_check. now rewrite H, Hactions, Htags. }
  assert (Hdependents : Js.truthy_bool (Argv.includeDependents argv) = true ->
                        includeDependentsOption_check argv
                        = Thrown (new_Error
                            "The --include-dependents flag should only be supplied along with --actions or --tags.")).
  { intros H. unfold includeDependentsOption_check. now rewrite H, Hactions, Htags. }
  split; [exact Hdeps|]. split; [exact Hdependents|].
  unfold run_command, bind, silently, run_checks.
  destruct (projectDirMustExistOption_check c argv) as [[]|e]; [|now exists e].
  cbn [credentialsOption_check].
  destruct (includeDepsOption_check argv) as [[]|e]; [|now exists e].
  destruct (includeDependentsOption_check argv) as [[]|e]; [|now exists e].
  destruct Hflag as [H|H].
  - discriminate (Hdeps H).
  - discriminate (Hdependents H).
Qed.

Lemma include_flags_need_selection_witness :
  Js.truthy_bool (Argv.includeDeps Sample.depsOnly) = true
  /\ Argv.actions Sample.depsOnly = None
  /\ Argv.tags Sample.depsOnly = None
  /\ exists e, run_command Sample.succeeding Sample.depsOnly = (Thrown e, []).
Proof.
  split; [reflexivity|]. split; [reflexivity|]. split; [reflexivity|].
  exact (proj2 (proj2 (include_flags_need_selection Sample.succeeding Sample.depsOnly
                         (or_introl eq_refl) eq_refl eq_refl))).
Defined.

(** [--actions] supplied without a value is an empty array, which is
    truthy: both checks pass although no pattern and no tag was given, and
    the graph is built with [includeDependencies] set and no pattern. *)
Lemma include_deps_with_empty_actions_passes :
  Js.truthy_bool (Argv.includeDeps Sample.depsNoPattern) = true
  /\ Js.truthy_bool (Argv.includeDependents Sample.depsNoPattern) = true
  /\ Argv.actions Sample.depsNoPattern = Some []
  /\ Argv.tags Sample.depsNoPattern = None
  /\ includeDepsOption_check Sample.depsNoPattern = Returned tt
  /\ includeDependentsOption_check Sample.depsNoPattern = Returned tt
  /\ run_checks Sample.succeeding Sample.depsNoPattern = Returned tt
  /\ existsb is_call_build (snd (run_command Sample.succeeding Sample.depsNoPattern))
     = true
  /\ existsb is_call_run (snd (run_command Sample.succeeding Sample.depsNoPattern))
     = true
  /\ fst (run_command Sample.succeeding Sample.depsNoPattern) = Returned (Some 0).
Proof.
  repeat split; vm_compute; reflexivity.
Qed.

(** ** Retries *)

Section Attempts.

Variable succeeds : nat -> bool.

Lemma attempts_dispatches (retriesLeft attempt : nat) :
  exists made,
    fst (Retry.attempts succeeds retriesLeft attempt) = seq attempt (S made)
    /\ (made <= retriesLeft)%nat
    /\ (forall n, (attempt <= n < attempt + made)%nat -> succeeds n = false)
    /\ (snd (Retry.attempts succeeds retriesLeft attempt) = SUCCESSFUL
        /\ succeeds (attempt + made)%nat = true
        \/ snd (Retry.attempts succeeds retriesLeft attempt) = FAILED
           /\ succeeds (attempt + made)%nat = false
           /\ made = retriesLeft).
Proof.
  revert attempt. induction retriesLeft as [|fewer IH]; intros attempt; cbn [Retry.attempts].
  - exists 0%nat. rewrite Nat.add_0_r.
    destruct (succeeds attempt) eqn:Hs; cbn; repeat split; auto; intros; lia.
  - destruct (succeeds attempt) eqn:Hs.
    + exists 0%nat. rewrite Nat.add_0_r. cbn. repeat split; auto; intros; lia.
    + destruct (IH (S attempt)) as (made & Hseq & Hle & Hfailed & Hlast).
      destruct (Retry.attempts succeeds fewer (S attempt)) as [later status].
      cbn [fst snd] in *. exists (S made). repeat split.
      * now rewrite Hseq.
      * lia.
      * intros n Hn. destruct (Nat.eq_dec n attempt) as [->|Hne]; [assumption|].
        apply Hfailed. lia.
      * replace (attempt + S made)%nat with (S attempt + made)%nat by lia.
        destruct Hlast as [[-> Hs']|(-> & Hs' & ->)]; [left|right]; auto.
Qed.

End Attempts.

(** C3 — with the retry limit taken from [--action-retry-limit], an
    idempotent action (TABLE, VIEW, full-refresh INCREMENTAL,
    DataPreparation replace) is dispatched again at most that many times,
    and is marked FAILED only when the first dispatch and every retry
    allowed have failed; any other action (incremental merge, append,
    unique or maximum load, Operation, Assertion) is dispatched once,
    whatever the limit. *)
Theorem retries_bounded_by_limit (argv : Argv.t) (a : Retry.ActionClass)
    (succeeds : nat -> bool) :
  let outcome := Retry.executeAction (bigqueryOptions argv) a succeeds in
  let allowed := if Retry.idempotent a
                 then Z.to_nat (Argv.actionRetryLimit argv) else 0%nat in
  (Retry.retries outcome <= allowed)%nat
  /\ Z.of_nat (Retry.retries outcome)
     <= (if Retry.idempotent a then Z.max 0 (Argv.actionRetryLimit argv) else 0)
  /\ fst outcome = seq 0 (S (Retry.retries outcome))
  /\ (forall n, (n < Retry.retries outcome)%nat -> succeeds n = false)
  /\ (snd outcome = SUCCESSFUL /\ succeeds (Retry.retries outcome) = true
      \/ snd outcome = FAILED /\ succeeds (Retry.retries outcome) = false
         /\ Retry.retries outcome = allowed)
  /\ map Retry.idempotent
       [Retry.TableRebuild; Retry.ViewRebuild; Retry.IncrementalFullRefresh;
        Retry.DataPreparationReplace] = [true; true; true; true]
  /\ map Retry.idempotent
       [Retry.IncrementalMerge; Retry.DataPreparationAppend;
        Retry.DataPreparationUnique; Retry.DataPreparationMaximum;
        Retry.OperationQueries; Retry.AssertionQuery]
     = [false; false; false; false; false; false].
Proof.
  intros outcome allowed. subst outcome.
  unfold Retry.executeAction, Retry.retriesAllowed, Retry.retries.
  rewrite (proj1 (bigqueryOptions_fields argv)). fold allowed.
  destruct (attempts_dispatches succeeds allowed 0)
    as (made & Hseq & Hle & Hfailed & Hlast).
  rewrite Hseq, length_seq. cbn [pred Nat.add] in *.
  repeat split; try reflexivity.
  - exact Hle.
  - subst allowed. destruct (Retry.idempotent a); lia.
  - intros n Hn. apply Hfailed. lia.
  - exact Hlast.
Qed.

(** ** Schema changes *)

Section Reconciliation.

Import SchemaChange.

Lemma columnsAfter_added (target : gset string) (columns : list string) :
  foldl columnsAfter target (AddColumn <$> columns) = target ∪ list_to_set columns.
Proof.
  revert target. induction columns as [|column columns IH]; intros target; cbn.
  - set_solver.
  - rewrite IH. set_solver.
Qed.

Lemma columnsAfter_dropped (target : gset string) (columns : list string) :
  foldl columnsAfter target (DropColumn <$> columns) = target ∖ list_to_set columns.
Proof.
  revert target. induction columns as [|column columns IH]; intros target; cbn.
  - set_solver.
  - rewrite IH. set_solver.
Qed.

Lemma targetAfter_issued (target : gset string) (added dropped : list string) :
  targetAfter target
    (Issued (((AddColumn <$> added) ++ (DropColumn <$> dropped)) ++ [Merge]))
  = (target ∪ list_to_set added) ∖ list_to_set dropped.
Proof.
  cbn [targetAfter]. rewrite !foldl_app. cbn [foldl columnsAfter].
  now rewrite columnsAfter_added, columnsAfter_dropped.
Qed.

End Reconciliation.

(** C6 — before an incremental merge: IGNORE issues the merge alone; FAIL
    aborts without any statement exactly when the column sets of target and
    query differ; EXTEND aborts exactly when a column of the target is
    missing from the query (removed or renamed) and otherwise adds the new
    columns, after which the target has the columns of the query;
    SYNCHRONIZE never aborts, adds the new columns and drops those absent
    from the query, after which the target has exactly the columns of the
    query. *)
Theorem schema_change_policy (target query : gset string) :
  SchemaChange.incrementalMerge IGNORE target query
  = SchemaChange.Issued [SchemaChange.Merge]
  /\ (target = query ->
      SchemaChange.incrementalMerge FAIL target query
      = SchemaChange.Issued [SchemaChange.Merge])
  /\ (target <> query ->
      SchemaChange.incrementalMerge FAIL target query = SchemaChange.Aborted)
  /\ (~ (target ⊆ query) ->
      SchemaChange.incrementalMerge EXTEND target query = SchemaChange.Aborted)
  /\ (target ⊆ query ->
      exists ddl,
        SchemaChange.incrementalMerge EXTEND target query
        = SchemaChange.Issued (ddl ++ [SchemaChange.Merge])
        /\ (forall s, s ∈ ddl <->
              exists column,
                s = SchemaChange.AddColumn column /\ column ∈ query /\ column ∉ target)
        /\ SchemaChange.targetAfter target
             (SchemaChange.incrementalMerge EXTEND target query) = query)
  /\ (exists ddl,
        SchemaChange.incrementalMerge SYNCHRONIZE target query
        = SchemaChange.Issued (ddl ++ [SchemaChange.Merge])
        /\ (forall column,
              SchemaChange.AddColumn column ∈ ddl <-> column ∈ query /\ column ∉ target)
        /\ (forall column,
              SchemaChange.DropColumn column ∈ ddl <-> column ∈ target /\ column ∉ query)
        /\ (SchemaChange.Merge ∉ ddl)
        /\ SchemaChange.targetAfter target
             (SchemaChange.incrementalMerge SYNCHRONIZE target query) = query).
Proof.
  unfold SchemaChange.incrementalMerge, SchemaChange.reconcile.
  split; [reflexivity|]. split; [|split; [|split; [|split]]].
  - intros ->. now rewrite decide_True.
  - intros Hne. now rewrite decide_False.
  - intros Hsub. now rewrite decide_False.
  - intros Hsub. rewrite decide_True by assumption.
    exists (SchemaChange.AddColumn <$> elements (query ∖ target)).
    split; [reflexivity|]. split.
    + intros s. rewrite list_elem_of_fmap. split.
      * intros (column & -> & Hin). exists column.
        apply elem_of_elements in Hin. set_solver.
      * intros (column & -> & Hq & Ht). exists column. split; [reflexivity|].
        apply elem_of_elements. set_solver.
    + rewrite <- (app_nil_r (SchemaChange.AddColumn <$> elements (query ∖ target))).
      change ([] : list SchemaChange.Statement)
        with (SchemaChange.DropColumn <$> ([] : list string)).
      rewrite targetAfter_issued, list_to_set_elements_L.
      apply set_eq. intros x. cbn [list_to_set foldr].
      rewrite elem_of_difference, elem_of_union, elem_of_difference.
      destruct (decide (x ∈ target)); set_solver.
  - exists ((SchemaChange.AddColumn <$> elements (query ∖ target))
            ++ (SchemaChange.DropColumn <$> elements (target ∖ query)))%list.
    split; [reflexivity|]. split; [|split; [|split]].
    + intros column. rewrite elem_of_app, !list_elem_of_fmap. split.
      * intros [(x & Hx & Hin)|(x & Hx & Hin)]; [|discriminate].
        injection Hx as ->. apply elem_of_elements in Hin. set_solver.
      * intros [Hq Ht]. left. exists column. split; [reflexivity|].
        apply elem_of_elements. set_solver.
    + intros column. rewrite elem_of_app, !list_elem_of_fmap. split.
      * intros [(x & Hx & Hin)|(x & Hx & Hin)]; [discriminate|].
        injection Hx as ->. apply elem_of_elements in Hin. set_solver.
      * intros [Ht Hq]. right. exists column. split; [reflexivity|].
        apply elem_of_elements. set_solver.
    + rewrite elem_of_app, !list_elem_of_fmap.
      intros [(x & Hx & _)|(x & Hx & _)]; discriminate.
    + rewrite targetAfter_issued, !list_to_set_elements_L.
      apply set_eq. intros x. rewrite elem_of_difference, elem_of_union,
        !elem_of_difference.
      destruct (decide (x ∈ query)), (decide (x ∈ target)); tauto.
Qed.

(** The scenario of the specification: the target has [id] and [name], the
    query yields [id], [name] and [extra]. *)
Lemma schema_change_scenario :
  let target : gset string := {[ "id"; "name" ]} in
  let query : gset string := {[ "id"; "name"; "extra" ]} in
  SchemaChange.incrementalMerge FAIL target query = SchemaChange.Aborted
  /\ SchemaChange.incrementalMerge EXTEND target query
     = SchemaChange.Issued [SchemaChange.AddColumn "extra"; SchemaChange.Merge]
  /\ SchemaChange.targetAfter target (SchemaChange.incrementalMerge EXTEND target query)
     = query.
Proof.
  intros target query. repeat split; vm_compute; reflexivity.
Qed.

(** ** Load modes *)

Section LoadModes.

Variable Row : Type.
Variable value : Row -> string -> Z.

(** [currentMaximum] is the greatest value of the column in the target,
    and is missing exactly when the target is empty. *)
Lemma currentMaximum_greatest (column : string) (target : list Row) :
  match Load.currentMaximum Row value column target with
  | None => target = []
  | Some m =>
      (exists old, In old target /\ value old column = m)
      /\ forall old, In old target -> value old column <= m
  end.
Proof.
  induction target as [|row target IH]; cbn; [reflexivity|].
  fold (Load.currentMaximum Row value column target).
  destruct (Load.currentMaximum Row value column target) as [m|].
  - destruct IH as [(old & Hin & Hold) Hle]. split.
    + destruct (Z.max_spec (value row column) m) as [[_ ->]|[_ ->]].
      * exists old. auto.
      * exists row. auto.
    + intros old' [->|Hin']; [lia|]. specialize (Hle old' Hin'). lia.
  - subst target. split.
    + exists row. auto.
    + intros old [->|[]]. lia.
Qed.

Lemma exceedsMaximum_all (column : string) (target : list Row) (row : Row) :
  Load.exceedsMaximum Row value column target row = true
  <-> forall old, In old target -> value old column < value row column.
Proof.
  unfold Load.exceedsMaximum.
  pose proof (currentMaximum_greatest column target) as Hmax.
  destruct (Load.currentMaximum Row value column target) as [m|].
  - destruct Hmax as [(old & Hin & Hold) Hle]. rewrite Z.ltb_lt. split.
    + intros Hlt old' Hin'. specialize (Hle old' Hin'). lia.
    + intros Hall. specialize (Hall old Hin). lia.
  - subst target. split; [intros _ old []|reflexivity].
Qed.

Lemma alreadyPresent_some (column : string) (target : list Row) (row : Row) :
  Load.alreadyPresent Row value column target row = false
  <-> forall old, In old target -> value old column <> value row column.
Proof.
  unfold Load.alreadyPresent. split.
  - intros Hnone old Hin Heq.
    assert (existsb (fun old => value old column =? value row column) target = true).
    { apply existsb_exists. exists old. split; [assumption|]. now apply Z.eqb_eq. }
    congruence.
  - intros Hall.
    destruct (existsb _ target) eqn:Hsome; [|reflexivity].
    apply existsb_exists in Hsome as (old & Hin & Heq).
    apply Z.eqb_eq in Heq. now destruct (Hall old Hin).
Qed.

End LoadModes.

(** C7 — [replace] leaves exactly the incoming rows; [append] keeps the
    target and adds every incoming row; [maximum] keeps the target and adds
    the incoming rows whose value in the configured column exceeds the
    current maximum of that column in the target; [unique] keeps the target
    and adds the incoming rows whose value in the configured column is not
    yet present in the target; [automatic] is [maximum] when it names an
    ordering column and [append] when it names none. *)
Theorem load_modes (Row : Type) (value : Row -> string -> Z)
    (target incoming : list Row) (column : string) :
  Load.load Row value replace target incoming = incoming
  /\ Load.load Row value append target incoming = (target ++ incoming)%list
  /\ (exists added,
        Load.load Row value (maximum column) target incoming = (target ++ added)%list
        /\ added = List.filter
                     (fun row =>
                        match Load.currentMaximum Row value column target with
                        | Some greatest => greatest <? value row column
                        | None => true
                        end) incoming
        /\ forall row,
             In row added <->
             In row incoming
             /\ forall old, In old target -> value old column < value row column)
  /\ (exists added,
        Load.load Row value (unique column) target incoming = (target ++ added)%list
        /\ forall row,
             In row added <->
             In row incoming
             /\ forall old, In old target -> value old column <> value row column)
  /\ Load.load Row value (automatic column) target incoming
     = (if String.eqb column EmptyString
        then Load.load Row value append target incoming
        else Load.load Row value (maximum column) target incoming).
Proof.
  split; [reflexivity|]. split; [reflexivity|]. split; [|split].
  - eexists. split; [reflexivity|]. split; [reflexivity|].
    intros row. rewrite filter_In. now rewrite exceedsMaximum_all.
  - eexists. split; [reflexivity|].
    intros row. rewrite filter_In, negb_true_iff. now rewrite alreadyPresent_some.
  - unfold Load.load. now destruct column.
Qed.

(** Loading the values 5, 7 and 9 into a target that holds 3 and 7. *)
Lemma load_modes_example :
  let value := fun (row : Z) (_ : string) => row in
  Load.load Z value (maximum "id") [3; 7] [5; 7; 9] = [3; 7; 9]
  /\ Load.load Z value (unique "id") [3; 7] [5; 7; 9] = [3; 7; 5; 9]
  /\ Load.load Z value (automatic "id") [3; 7] [5; 7; 9] = [3; 7; 9]
  /\ Load.load Z value (automatic "") [3; 7] [5; 7; 9] = [3; 7; 5; 7; 9]
  /\ Load.load Z value replace [3; 7] [5; 7; 9] = [5; 7; 9].
Proof. intros value. repeat split. Qed.

(** * Further properties *)

(** ** The coercion of [--actions] and [--tags] *)

Section SplitMore.

Variable sep : ascii.

Lemma split_pieces_free (s : string) :
  forallb (Js.free_of sep) (Js.split sep s) = true.
Proof.
  induction s as [|ch s IH]; [reflexivity|]. cbn [Js.split].
  destruct (Ascii.eqb ch sep) eqn:Hch.
  - cbn. exact IH.
  - destruct (Js.split sep s) as [|piece pieces]; cbn in *.
    + now rewrite Hch.
    + now rewrite Hch.
Qed.

Lemma join_cons (piece : string) (pieces : list string) :
  pieces <> [] ->
  Js.join (String sep EmptyString) (piece :: pieces)
  = (piece ++ String sep (Js.join (String sep EmptyString) pieces))%string.
Proof. destruct pieces; [contradiction|reflexivity]. Qed.

Lemma join_split (s : string) :
  Js.join (String sep EmptyString) (Js.split sep s) = s.
Proof.
  induction s as [|ch s IH]; [reflexivity|]. cbn [Js.split].
  pose proof (split_nonempty sep s) as Hne.
  destruct (Ascii.eqb ch sep) eqn:Hch.
  - apply Ascii.eqb_eq in Hch as ->.
    rewrite join_cons by assumption. now rewrite IH.
  - destruct (Js.split sep s) as [|piece pieces]; [contradiction|].
    destruct pieces as [|piece' pieces].
    + cbn in *. now rewrite IH.
    + change (Js.join (String sep "") (String ch piece :: piece' :: pieces))
        with (String ch (Js.join (String sep "") (piece :: piece' :: pieces))).
      now rewrite IH.
Qed.

Lemma length_split (s : string) :
  length (Js.split sep s) = S (occurrences sep s).
Proof.
  induction s as [|ch s IH]; [reflexivity|]. cbn [Js.split occurrences].
  destruct (Ascii.eqb ch sep).
  - cbn. now rewrite IH.
  - pose proof (split_nonempty sep s) as Hne.
    destruct (Js.split sep s) as [|piece pieces]; [contradiction|].
    cbn in *. lia.
Qed.

Lemma string_app_assoc (a b d : string) : ((a ++ b) ++ d = a ++ (b ++ d))%string.
Proof.
  induction a as [|ch a IH]; [reflexivity|].
  change (String ch ((a ++ b) ++ d) = String ch (a ++ (b ++ d)))%string.
  now f_equal.
Qed.

Lemma join_app (xs ys : list string) :
  xs <> [] -> ys <> [] ->
  Js.join (String sep EmptyString) (xs ++ ys)
  = (Js.join (String sep EmptyString) xs
     ++ String sep (Js.join (String sep EmptyString) ys))%string.
Proof.
  intros Hxs Hys. induction xs as [|x xs IH]; [contradiction|].
  destruct xs as [|x' xs].
  - cbn [app]. now rewrite join_cons.
  - rewrite <- app_comm_cons, join_cons by (cbn; discriminate).
    rewrite IH by discriminate.
    rewrite (join_cons x (x' :: xs)) by discriminate.
    now rewrite string_app_assoc.
Qed.

End SplitMore.

Lemma pieces_nonempty (strings : list string) :
  strings <> [] -> Js.flat (map (Js.split Js.comma) strings) <> [].
Proof.
  unfold Js.flat. destruct strings as [|x strings]; [contradiction|].
  intros _. cbn [map List.concat]. pose proof (split_nonempty Js.comma x).
  destruct (Js.split Js.comma x); [contradiction|discriminate].
Qed.

Lemma pieces_free (strings : list string) :
  forallb (Js.free_of Js.comma) (Js.flat (map (Js.split Js.comma) strings)) = true.
Proof.
  unfold Js.flat. induction strings as [|x strings IH]; [reflexivity|].
  cbn [map List.concat]. rewrite forallb_app, IH.
  now rewrite (split_pieces_free Js.comma x).
Qed.

Lemma pieces_joined (strings : list string) :
  Js.join "," (Js.flat (map (Js.split Js.comma) strings)) = Js.join "," strings.
Proof.
  induction strings as [|x strings IH]; [reflexivity|].
  change (Js.flat (map (Js.split Js.comma) (x :: strings)))
    with (Js.split "," x ++ Js.flat (map (Js.split Js.comma) strings))%list.
  destruct strings as [|y strings].
  - change (Js.flat (map (Js.split Js.comma) [])) with (@nil string).
    rewrite app_nil_r. apply (join_split ","%char).
  - rewrite (join_app ","%char).
    + rewrite IH, (join_split ","%char). symmetry.
      apply (join_cons ","%char). discriminate.
    + apply split_nonempty.
    + apply pieces_nonempty. discriminate.
Qed.

Lemma pieces_length (strings : list string) :
  length (Js.flat (map (Js.split Js.comma) strings))
  = (length strings + list_sum (map (occurrences ",") strings))%nat.
Proof.
  unfold Js.flat. induction strings as [|x strings IH]; [reflexivity|].
  cbn [map List.concat list_sum length]. rewrite length_app, IH.
  unfold Js.comma. rewrite (length_split ","%char x).
  unfold list_sum. cbn [fold_right]. lia.
Qed.

(** X1 — whenever the coercion of [--actions] or [--tags] returns, no
    pattern and no tag in the list it returns contains a comma, so that
    coercing that list again returns it unchanged. *)
Theorem coerce_leaves_no_comma (raw : list Value) (coerced : list string) :
  actionsOption_coerce raw = Returned coerced
  \/ tagsOption_coerce raw = Returned coerced ->
  forallb (Js.free_of ",") coerced = true
  /\ actionsOption_coerce (map v_string coerced) = Returned coerced
  /\ tagsOption_coerce (map v_string coerced) = Returned coerced.
Proof.
  intros Hcoerced. destruct (coerce_returns raw coerced Hcoerced) as (strings & _ & ->).
  pose proof (pieces_free strings) as Hfree.
  split; [exact Hfree|].
  destruct (coerce_strings (Js.flat (map (Js.split Js.comma) strings))) as [-> ->].
  now rewrite (pieces_comma_free _ Hfree).
Qed.

Lemma coerce_leaves_no_comma_witness :
  actionsOption_coerce [v_string "a,b"; v_string "c"] = Returned ["a"; "b"; "c"]
  /\ actionsOption_coerce (map v_string ["a"; "b"; "c"]) = Returned ["a"; "b"; "c"].
Proof.
  split; [reflexivity|].
  apply (coerce_leaves_no_comma [v_string "a,b"; v_string "c"] ["a"; "b"; "c"]).
  left. reflexivity.
Defined.

(** X2 — whenever the coercion returns, every element that was supplied
    is a string and no character is lost: joining the coerced list with
    commas gives the same string as joining the supplied strings; only the
    grouping into elements changes. *)
Theorem coerce_keeps_the_text (raw : list Value) (coerced : list string) :
  actionsOption_coerce raw = Returned coerced
  \/ tagsOption_coerce raw = Returned coerced ->
  exists strings,
    raw = map v_string strings
    /\ Js.join "," coerced = Js.join "," strings.
Proof.
  intros Hcoerced. destruct (coerce_returns raw coerced Hcoerced) as (strings & -> & ->).
  exists strings. split; [reflexivity|]. apply pieces_joined.
Qed.

Lemma coerce_keeps_the_text_witness :
  exists strings,
    [v_string "a,b"; v_string "c"] = map v_string strings
    /\ Js.join "," ["a"; "b"; "c"] = Js.join "," strings.
Proof.
  apply (coerce_keeps_the_text [v_string "a,b"; v_string "c"] ["a"; "b"; "c"]).
  right. reflexivity.
Defined.

(** X3 — whenever the coercion returns, it yields one element for every
    string supplied and one more for every comma in them: it never drops an
    element, and an empty piece (as in [a,,b], or an empty argument) stays
    in the list as an empty pattern. *)
Theorem coerce_length (raw : list Value) (coerced : list string) :
  actionsOption_coerce raw = Returned coerced
  \/ tagsOption_coerce raw = Returned coerced ->
  (exists strings,
      raw = map v_string strings
      /\ length coerced
         = (length raw + list_sum (map (occurrences ",") strings))%nat)
  /\ (length raw <= length coerced)%nat
  /\ (forall a b,
        actionsOption_coerce [v_string (a ++ ",," ++ b)]
        = Returned (Js.split "," a ++ [EmptyString] ++ Js.split "," b)%list).
Proof.
  intros Hcoerced. destruct (coerce_returns raw coerced Hcoerced) as (strings & -> & ->).
  pose proof (pieces_length strings) as Hlength. rewrite length_map.
  split; [|split].
  - exists strings. split; [reflexivity|exact Hlength].
  - lia.
  - intros a b.
    pose proof (proj1 (coerce_strings [(a ++ ",," ++ b)%string])) as Hone.
    cbn [map] in Hone. rewrite Hone.
    unfold Js.flat, Js.comma. cbn [map List.concat]. rewrite app_nil_r.
    change (a ++ ",," ++ b)%string with (a ++ String "," (String "," b))%string.
    rewrite (split_app_sep ","%char).
    change (String ","%char b) with (EmptyString ++ String "," b)%string.
    now rewrite (split_app_sep ","%char).
Qed.

Lemma coerce_length_witness :
  actionsOption_coerce [v_string "a,,b"] = Returned ["a"; EmptyString; "b"]
  /\ (length [v_string "a,,b"] <= length ["a"; EmptyString; "b"])%nat.
Proof.
  split; [reflexivity|].
  apply (coerce_length [v_string "a,,b"] ["a"; EmptyString; "b"]).
  left. reflexivity.
Defined.

(** ** Objects filled key by key *)

Lemma find_app_or {A : Type} (p : A -> bool) (xs ys : list A) :
  find p (xs ++ ys)
  = match find p xs with Some x => Some x | None => find p ys end.
Proof.
  induction xs as [|x xs IH]; [reflexivity|]. cbn. now destruct (p x).
Qed.

Section FilledByKey.

Context {A V : Type}.
Variable key : A -> string.
Variable val : A -> V.

(** After a sequence of [object[key] = value] (or [map.set(key, value)])
    a key holds what the last assignment to it stored. *)
Lemma foldl_insert_lookup (xs : list A) (m : gmap string V) (k : string) :
  foldl (fun m x => <[ key x := val x ]> m) m xs !! k
  = match find (fun x => String.eqb (key x) k) (rev xs) with
    | Some x => Some (val x)
    | None => m !! k
    end.
Proof.
  revert m. induction xs as [|x xs IH]; intros m; [reflexivity|].
  cbn [foldl rev]. rewrite IH, find_app_or.
  destruct (find _ (rev xs)); [reflexivity|]. cbn [find].
  destruct (String.eqb (key x) k) eqn:Hk.
  - apply String.eqb_eq in Hk as ->. apply lookup_insert_eq.
  - apply String.eqb_neq in Hk. now apply lookup_insert_ne.
Qed.

Lemma foldl_insert_nonempty (xs : list A) (m : gmap string V) :
  xs <> [] -> foldl (fun m x => <[ key x := val x ]> m) m xs <> ∅.
Proof.
  intros Hne Hempty. destruct xs as [|x xs]; [contradiction|]. clear Hne.
  revert x m Hempty. induction xs as [|y xs IH]; intros x m Hempty.
  - cbn [foldl] in Hempty. now apply insert_non_empty in Hempty.
  - now apply (IH y (<[ key x := val x ]> m)).
Qed.

Lemma find_last_of_distinct (xs : list A) (a : A) :
  NoDup (map key xs) -> In a xs ->
  find (fun x => String.eqb (key x) (key a)) (rev xs) = Some a.
Proof.
  induction xs as [|x xs IH]; intros Hdistinct Hin; [destruct Hin|].
  cbn [map] in Hdistinct. apply NoDup_cons in Hdistinct as [Hfresh Hdistinct].
  cbn [rev]. rewrite find_app_or. destruct Hin as [->|Hin].
  - destruct (find _ (rev xs)) as [y|] eqn:Hfind.
    + apply find_some in Hfind as [Hy Hkey]. apply String.eqb_eq in Hkey.
      destruct Hfresh. rewrite list_elem_of_In, <- Hkey.
      apply in_map. now apply in_rev.
    + cbn. now rewrite String.eqb_refl.
  - now rewrite (IH Hdistinct Hin).
Qed.

End FilledByKey.

Section Assignments.

(** [vars.coerce] as a sequence of assignments to [variables]. *)
Lemma vars_coerce_assignments (raw : string) :
  vars_coerce (Some raw)
  = foldl (fun variables piece => set_variable variables (varsKey piece) (varsValue piece))
          ∅ (Js.split "," raw).
Proof. reflexivity. Qed.

Lemma set_variable_lookup (variables : gmap string (option string))
    (key k : string) (value : option string) :
  k <> "__proto__" ->
  set_variable variables key value !! k
  = if String.eqb key k then Some value else variables !! k.
Proof.
  intros Hk. unfold set_variable.
  destruct (String.eqb key "__proto__") eqn:Hproto.
  - apply String.eqb_eq in Hproto as ->.
    destruct (String.eqb "__proto__" k) eqn:Hsame; [|reflexivity].
    apply String.eqb_eq in Hsame. congruence.
  - destruct (String.eqb key k) eqn:Hsame.
    + apply String.eqb_eq in Hsame as ->. apply lookup_insert_eq.
    + apply String.eqb_neq in Hsame. now apply lookup_insert_ne.
Qed.

Lemma set_variable_proto (variables : gmap string (option string))
    (key : string) (value : option string) :
  set_variable variables key value !! "__proto__" = variables !! "__proto__".
Proof.
  unfold set_variable. destruct (String.eqb key "__proto__") eqn:Hproto;
    [reflexivity|].
  apply String.eqb_neq in Hproto. now apply lookup_insert_ne.
Qed.

Lemma set_variable_empty (variables : gmap string (option string))
    (key : string) (value : option string) :
  set_variable variables key value = ∅ <-> key = "__proto__" /\ variables = ∅.
Proof.
  unfold set_variable. destruct (String.eqb key "__proto__") eqn:Hproto.
  - apply String.eqb_eq in Hproto. tauto.
  - apply String.eqb_neq in Hproto. split.
    + intros Hempty. now apply insert_non_empty in Hempty.
    + now intros [? _].
Qed.

(** After the assignments a key other than [__proto__] holds what the
    last assignment to it stored. *)
Lemma assignments_lookup (pieces : list string)
    (variables : gmap string (option string)) (k : string) :
  k <> "__proto__" ->
  foldl (fun variables piece => set_variable variables (varsKey piece) (varsValue piece))
        variables pieces !! k
  = match find (fun piece => String.eqb (varsKey piece) k) (rev pieces) with
    | Some piece => Some (varsValue piece)
    | None => variables !! k
    end.
Proof.
  intros Hk. revert variables.
  induction pieces as [|piece pieces IH]; intros variables; [reflexivity|].
  cbn [foldl rev]. rewrite IH, find_app_or.
  destruct (find _ (rev pieces)); [reflexivity|]. cbn [find].
  rewrite set_variable_lookup by assumption.
  now destruct (String.eqb (varsKey piece) k).
Qed.

Lemma assignments_proto (pieces : list string)
    (variables : gmap string (option string)) :
  foldl (fun variables piece => set_variable variables (varsKey piece) (varsValue piece))
        variables pieces !! "__proto__"
  = variables !! "__proto__".
Proof.
  revert variables. induction pieces as [|piece pieces IH]; intros variables;
    [reflexivity|].
  cbn [foldl]. now rewrite IH, set_variable_proto.
Qed.

Lemma assignments_empty (pieces : list string)
    (variables : gmap string (option string)) :
  foldl (fun variables piece => set_variable variables (varsKey piece) (varsValue piece))
        variables pieces = ∅
  <-> variables = ∅ /\ forall piece, In piece pieces -> varsKey piece = "__proto__".
Proof.
  revert variables. induction pieces as [|piece pieces IH]; intros variables.
  - cbn. split; [intros ->; now split|now intros [? _]].
  - cbn [foldl]. rewrite IH, set_variable_empty. split.
    + intros [[Hproto Hempty] Hrest]. split; [assumption|].
      intros p [<-|Hin]; [assumption|now apply Hrest].
    + intros [Hempty Hall]. split; [split; [|assumption]|].
      * apply Hall. now left.
      * intros p Hin. apply Hall. now right.
Qed.

End Assignments.

(** X4 — [--vars]: the value of a key other than [__proto__] is taken from
    the last [key=value] piece that carries the key, pieces being separated
    by commas, and a key that no piece carries is absent.  The key
    [__proto__] is never stored, so that the object is empty exactly when
    every piece has that key; without the option the object is empty. *)
Theorem vars_last_assignment_wins (raw : string) (k : string) :
  (k <> "__proto__" ->
   vars_coerce (Some raw) !! k
   = option_map varsValue
       (find (fun keyValueStr => String.eqb (varsKey keyValueStr) k)
             (rev (Js.split "," raw))))
  /\ vars_coerce (Some raw) !! "__proto__" = None
  /\ (vars_coerce (Some raw) = ∅ <->
      forall keyValueStr,
        In keyValueStr (Js.split "," raw) -> varsKey keyValueStr = "__proto__")
  /\ vars_coerce None = ∅.
Proof.
  rewrite vars_coerce_assignments.
  split; [|split; [|split; [|reflexivity]]].
  - intros Hk. rewrite assignments_lookup, lookup_empty by assumption.
    now destruct (find _ _).
  - now rewrite assignments_proto, lookup_empty.
  - rewrite assignments_empty. split; [now intros [_ ?]|now split].
Qed.

(** X5 — in a piece of [--vars] only the text between the first and the
    second [=] is the value: whatever follows a second [=] is dropped, and a
    piece without [=] gives a key without a value.  A piece whose key is
    [__proto__] leaves the object as it was. *)
Theorem vars_value_stops_at_second_equals (k v rest : string) :
  Js.free_of "=" k = true ->
  Js.free_of "=" v = true ->
  Js.free_of "," (k ++ "=" ++ v ++ "=" ++ rest)%string = true ->
  (k <> "__proto__" ->
   vars_coerce (Some (k ++ "=" ++ v ++ "=" ++ rest)%string) = {[ k := Some v ]}
   /\ (Js.free_of "," k = true -> vars_coerce (Some k) = {[ k := None ]})
   /\ (Js.free_of "," (k ++ "=" ++ v)%string = true ->
       vars_coerce (Some (k ++ "=" ++ v)%string) = {[ k := Some v ]}))
  /\ (k = "__proto__" ->
      vars_coerce (Some (k ++ "=" ++ v ++ "=" ++ rest)%string) = ∅).
Proof.
  intros Hk Hv Hpiece.
  assert (Hone : forall piece, Js.free_of "," piece = true ->
                   vars_coerce (Some piece)
                   = set_variable ∅ (varsKey piece) (varsValue piece)).
  { intros piece Hfree. rewrite vars_coerce_assignments.
    now rewrite (split_free_of _ _ Hfree). }
  assert (Hstored : forall value, k <> "__proto__" ->
                      set_variable ∅ k value = {[ k := value ]}).
  { intros value Hproto. unfold set_variable. apply String.eqb_neq in Hproto.
    rewrite Hproto. apply insert_empty. }
  assert (Hsplit2 : Js.split "=" (k ++ "=" ++ v)%string = [k; v]).
  { change (k ++ "=" ++ v)%string with (k ++ String "=" v)%string.
    now rewrite split_app_sep, (split_free_of _ _ Hk), (split_free_of _ _ Hv). }
  assert (Hsplit3 : Js.split "=" (k ++ "=" ++ v ++ "=" ++ rest)%string
                    = (k :: v :: Js.split "=" rest)).
  { change (k ++ "=" ++ v ++ "=" ++ rest)%string
      with (k ++ String "=" (v ++ String "=" rest))%string.
    now rewrite !split_app_sep, (split_free_of _ _ Hk), (split_free_of _ _ Hv). }
  split.
  - intros Hproto. split; [|split].
    + rewrite (Hone _ Hpiece). unfold varsKey, varsValue. rewrite Hsplit3.
      now apply Hstored.
    + intros Hfree. rewrite (Hone _ Hfree). unfold varsKey, varsValue.
      rewrite (split_free_of _ _ Hk). now apply Hstored.
    + intros Hfree. rewrite (Hone _ Hfree). unfold varsKey, varsValue.
      rewrite Hsplit2. now apply Hstored.
  - intros Hproto. rewrite (Hone _ Hpiece). unfold varsKey. rewrite Hsplit3.
    cbn [hd]. subst k. reflexivity.
Qed.

Lemma vars_value_stops_at_second_equals_witness :
  Js.free_of "=" "env" = true
  /\ vars_coerce (Some "env=a=b") = {[ "env" := Some "a" ]}
  /\ vars_coerce (Some "__proto__=a=b") = ∅.
Proof.
  split; [reflexivity|]. split.
  - refine (proj1 (proj1 (vars_value_stops_at_second_equals "env" "a" "b"
                            eq_refl eq_refl eq_refl) _)).
    discriminate.
  - exact (proj2 (vars_value_stops_at_second_equals "__proto__" "a" "b"
                    eq_refl eq_refl eq_refl) eq_refl).
Defined.

(** X6 — [actionsByName] holds, under a name, the last action of the
    execution graph with that name, and nothing under a name no action has;
    when the names of the graph are distinct every action is found under
    its own name, and the map is never larger than the graph. *)
Theorem actionsByName_lookup (c : Collaborators) (executionGraph : ExecutionGraph.t)
    (n : string) :
  actionsByName c executionGraph !! n
  = find (fun action => String.eqb (executionActionName c action) n)
         (rev (ExecutionGraph.actions executionGraph))
  /\ (actionsByName c executionGraph !! n = None <->
      forall action, In action (ExecutionGraph.actions executionGraph) ->
                     executionActionName c action <> n)
  /\ (NoDup (map (executionActionName c) (ExecutionGraph.actions executionGraph)) ->
      forall action, In action (ExecutionGraph.actions executionGraph) ->
        actionsByName c executionGraph !! executionActionName c action = Some action).
Proof.
  assert (Hlookup : forall k,
             actionsByName c executionGraph !! k
             = find (fun action => String.eqb (executionActionName c action) k)
                    (rev (ExecutionGraph.actions executionGraph))).
  { intros k. unfold actionsByName.
    change (foldl _ ∅ (ExecutionGraph.actions executionGraph))
      with (foldl (fun m x => <[ executionActionName c x := x ]> m)
                  (∅ : gmap string ExecutionAction.t)
                  (ExecutionGraph.actions executionGraph)).
    rewrite (foldl_insert_lookup (executionActionName c) (fun x => x)), lookup_empty.
    now destruct (find _ _). }
  split; [apply Hlookup|]. split.
  - rewrite Hlookup. split.
    + intros Hnone action Hin Hname.
      apply in_rev in Hin.
      pose proof (find_none _ _ Hnone action Hin) as Hne. cbn beta in Hne.
      apply String.eqb_neq in Hne. contradiction.
    + intros Hall. destruct (find _ _) as [action|] eqn:Hfind; [|reflexivity].
      apply find_some in Hfind as [Hin Hname]. apply String.eqb_eq in Hname.
      apply in_rev in Hin. now destruct (Hall action Hin).
  - intros Hdistinct action Hin. rewrite Hlookup.
    now apply find_last_of_distinct.
Qed.

(** ** The checks of the options, and what is passed on from them *)

(** X8 — [--schema-suffix] is accepted exactly when every one of its
    characters is a letter, a digit or an underscore; the empty suffix, which
    has no character, is accepted although the pattern of the check asks for
    at least one.  Any other suffix is refused with the error of the
    check. *)
Theorem schema_suffix_accepted (argv : Argv.t) :
  (forall ch,
      word_char ch
      = existsb (Ascii.eqb ch)
          (list_ascii_of_string
             "abcdefghijklmnopqrstuvwxyzABCDEFGHIJKLMNOPQRSTUVWXYZ_0123456789"))
  /\ (schemaSuffix_check argv = Returned tt <->
      forall suffix, Argv.schemaSuffix argv = Some suffix ->
                     forallb word_char (list_ascii_of_string suffix) = true)
  /\ (schemaSuffix_check argv <> Returned tt ->
      schemaSuffix_check argv
      = Thrown (new_Error
          "--schema-suffix should contain only alphanumeric characters and/or underscores.")).
Proof.
  split; [|split].
  - intros ch. destruct ch as [[] [] [] [] [] [] [] []]; reflexivity.
  - unfold schemaSuffix_check, only_word_chars.
    destruct (Argv.schemaSuffix argv) as [[|ch rest]|]; cbn [Js.truthy_string andb].
    + split; [|reflexivity]. intros _ suffix H. now injection H as <-.
    + destruct (forallb word_char (list_ascii_of_string (String ch rest))) eqn:Hall;
        cbn [negb].
      * split; [|reflexivity]. intros _ suffix H. now injection H as <-.
      * split; [discriminate|]. intros H. specialize (H _ eq_refl). congruence.
    + split; [|reflexivity]. intros _ suffix H. discriminate.
  - unfold schemaSuffix_check.
    destruct (Argv.schemaSuffix argv) as [suffix|]; [|congruence].
    destruct (Js.truthy_string (Some suffix) && negb (only_word_chars suffix));
      [reflexivity|congruence].
Qed.

(** X9 — the project directory is accepted exactly when [assertPathExists]
    lets it pass and it holds a [dataform.json] or a
    [workflow_settings.yaml]; an error of [assertPathExists] is passed on
    unchanged, and a directory with neither file is refused with an error
    that names the directory. *)
Theorem project_dir_accepted (c : Collaborators) (argv : Argv.t) :
  let dir := Argv.projectDir argv in
  (projectDirMustExistOption_check c argv = Returned tt <->
   assertPathExists c dir = Returned tt
   /\ (fs_existsSync c (path_resolve c dir "dataform.json") = true
       \/ fs_existsSync c (path_resolve c dir "workflow_settings.yaml") = true))
  /\ (forall e, assertPathExists c dir = Thrown e ->
                projectDirMustExistOption_check c argv = Thrown e)
  /\ (assertPathExists c dir = Returned tt ->
      fs_existsSync c (path_resolve c dir "dataform.json") = false ->
      fs_existsSync c (path_resolve c dir "workflow_settings.yaml") = false ->
      projectDirMustExistOption_check c argv
      = Thrown (new_Error
          (dir ++ " does not appear to be a dataform directory (missing workflow_settings.yaml file).")%string)).
Proof.
  intros dir. subst dir. unfold projectDirMustExistOption_check.
  split; [|split].
  - destruct (assertPathExists c (Argv.projectDir argv)) as [[]|e].
    + destruct (fs_existsSync c (path_resolve c (Argv.projectDir argv) "dataform.json")),
               (fs_existsSync c (path_resolve c (Argv.projectDir argv)
                                   "workflow_settings.yaml"));
        cbn; split; auto; try discriminate; intros [_ [H|H]]; discriminate.
    + split; [discriminate|]. intros [H _]. discriminate.
  - now intros e ->.
  - now intros -> -> ->.
Qed.

(** X10 — the check of [--include-deps] passes exactly when the flag is not
    set to true or one of [--actions] and [--tags] is supplied, and so does
    the check of [--include-dependents]; each check looks at its own flag
    only, and either option alone is enough. *)
Theorem include_checks_pass (argv : Argv.t) :
  (includeDepsOption_check argv = Returned tt <->
   Argv.includeDeps argv <> Some true
   \/ Argv.actions argv <> None \/ Argv.tags argv <> None)
  /\ (includeDependentsOption_check argv = Returned tt <->
      Argv.includeDependents argv <> Some true
      \/ Argv.actions argv <> None \/ Argv.tags argv <> None).
Proof.
  unfold includeDepsOption_check, includeDependentsOption_check.
  destruct (Argv.includeDeps argv) as [[|]|], (Argv.includeDependents argv) as [[|]|],
           (Argv.actions argv), (Argv.tags argv); cbn; split; split;
    try (intros _; auto; fail); try discriminate; try (left; discriminate);
    try (right; left; discriminate); try (right; right; discriminate);
    try reflexivity;
    intros [H|[H|H]]; congruence.
Qed.

(** X11 — the options handed to the runner never hold [dryRun: false] or an
    empty [jobPrefix]: [dryRun] is there, as [true], exactly when
    [--dry-run] is true, [jobPrefix] exactly when the job prefix is a
    non-empty string, and the retry limit always. *)
Theorem bigquery_options_hold_what_is_set (argv : Argv.t) :
  BigqueryOptions.dryRun (bigqueryOptions argv) <> Some false
  /\ (BigqueryOptions.dryRun (bigqueryOptions argv) = Some true
      <-> Argv.dryRun argv = Some true)
  /\ (BigqueryOptions.dryRun (bigqueryOptions argv) = None
      <-> Argv.dryRun argv <> Some true)
  /\ (forall prefix,
        BigqueryOptions.jobPrefix (bigqueryOptions argv) = Some prefix
        <-> Argv.jobPrefix argv = Some prefix /\ prefix <> EmptyString)
  /\ BigqueryOptions.actionRetryLimit (bigqueryOptions argv)
     = Argv.actionRetryLimit argv.
Proof.
  unfold bigqueryOptions.
  destruct (Argv.dryRun argv) as [[|]|], (Argv.jobPrefix argv) as [[|ch rest]|];
    cbn; repeat split; try discriminate; try congruence;
    try (intros [H1 H2]; congruence);
    try (intros H; injection H as <-; split; [reflexivity|discriminate]).
Qed.

(** ** Reporting the actions of a run *)

Section Reports.

Variable c : Collaborators.
Variable executionGraph : ExecutionGraph.t.
Variable dryRun : option bool.

Lemma actionsToPrint_spec already executedGraph (a : ActionResult.t) :
  In a (actionsToPrint c already executedGraph)
  <-> In a (RunResult.actions executedGraph)
      /\ ActionResult.status a <> RUNNING
      /\ actionResultName c a ∉ already.
Proof.
  unfold actionsToPrint, actionResultName. rewrite !filter_In, !negb_true_iff.
  rewrite bool_decide_eq_false.
  assert (Hs : ExecutionStatus_eqb (ActionResult.status a) RUNNING = false
               <-> ActionResult.status a <> RUNNING).
  { rewrite <- ExecutionStatus_eqb_eq.
    destruct (ExecutionStatus_eqb (ActionResult.status a) RUNNING); split; congruence. }
  rewrite Hs. tauto.
Qed.

Lemma actionsToPrint_finished already executedGraph :
  actionsToPrint c already executedGraph
  = List.filter (fun a => negb (bool_decide (actionResultName c a ∈ already)))
      (finishedActions executedGraph).
Proof. reflexivity. Qed.

Lemma printExecutedGraph_eq already executedGraph :
  printExecutedGraph c executionGraph dryRun already executedGraph
  = (Returned (already
               ∪ list_to_set (map (actionResultName c)
                                (actionsToPrint c already executedGraph))),
     map (fun a => printExecutedAction a
                     (actionsByName c executionGraph !! actionResultName c a) dryRun)
         (actionsToPrint c already executedGraph)).
Proof.
  unfold printExecutedGraph, bind, forEach, ret. now rewrite app_nil_r.
Qed.

Lemma printedNames_app (t1 t2 : list Event) :
  printedNames c (t1 ++ t2) = (printedNames c t1 ++ printedNames c t2)%list.
Proof. apply flat_map_app. Qed.

Lemma printedNames_reports (actions : list ActionResult.t) :
  printedNames c
    (map (fun a => printExecutedAction a
                     (actionsByName c executionGraph !! actionResultName c a) dryRun)
         actions)
  = map (actionResultName c) actions.
Proof.
  induction actions as [|a actions IH]; [reflexivity|]. cbn. now rewrite <- IH.
Qed.

(** The set kept by the callback grows by the names of all the finished
    actions of the snapshot, printed now or before. *)
Lemma printed_set_grows already executedGraph :
  already ∪ list_to_set (map (actionResultName c)
                           (actionsToPrint c already executedGraph))
  = already ∪ list_to_set (map (actionResultName c) (finishedActions executedGraph)).
Proof.
  rewrite actionsToPrint_finished. apply set_eq. intros n.
  rewrite !elem_of_union, !elem_of_list_to_set, !list_elem_of_fmap.
  split.
  - intros [H|(a & -> & Ha)]; [now left|]. right. exists a. split; [reflexivity|].
    rewrite list_elem_of_In in *. now apply filter_In in Ha as [Ha _].
  - intros [H|(a & -> & Ha)]; [now left|].
    destruct (decide (actionResultName c a ∈ already)) as [Hin|Hnot]; [now left|].
    right. exists a. split; [reflexivity|].
    rewrite list_elem_of_In in *. apply filter_In. split; [assumption|].
    now rewrite bool_decide_eq_false_2.
Qed.

Lemma NoDup_names_filter (p : ActionResult.t -> bool) (actions : list ActionResult.t) :
  NoDup (map (actionResultName c) actions) ->
  NoDup (map (actionResultName c) (List.filter p actions)).
Proof.
  induction actions as [|a actions IH]; [trivial|]. cbn [map List.filter].
  rewrite NoDup_cons. intros [Hfresh Hdistinct]. destruct (p a).
  - cbn [map]. apply NoDup_cons. split; [|now apply IH].
    intros Hin. apply Hfresh. apply list_elem_of_fmap in Hin as (b & Hb & Hin).
    apply list_elem_of_fmap. exists b. split; [assumption|].
    rewrite list_elem_of_In in *. now apply filter_In in Hin as [Hin _].
  - now apply IH.
Qed.

(** What a sequence of callbacks leaves: the set holds what it held plus
    the names printed, and no name that it held is printed. *)
Lemma onChange_callbacks_names (changes : list RunResult.t) :
  forall already, exists printed t,
    onChange_callbacks c executionGraph dryRun already changes = (Returned printed, t)
    /\ printed = already ∪ list_to_set (printedNames c t)
    /\ (forall n, n ∈ printedNames c t -> n ∉ already)
    /\ (Forall (fun executedGraph =>
                  NoDup (map (actionResultName c) (finishedActions executedGraph)))
               changes ->
        NoDup (printedNames c t)).
Proof.
  induction changes as [|executedGraph later IH]; intros already.
  - exists already, []. cbn. repeat split.
    + set_solver.
    + intros n Hn. inversion Hn.
    + intros _. constructor.
  - cbn [onChange_callbacks]. rewrite printExecutedGraph_eq.
    set (now := actionsToPrint c already executedGraph).
    destruct (IH (already ∪ list_to_set (map (actionResultName c) now)))
      as (printed & t & Hrun & Hset & Hfresh & Hdistinct).
    unfold bind. rewrite Hrun. do 2 eexists. split; [reflexivity|].
    rewrite printedNames_app, printedNames_reports.
    assert (Hnow : forall n, n ∈ map (actionResultName c) now -> n ∉ already).
    { intros n Hn. apply list_elem_of_fmap in Hn as (a & -> & Ha).
      rewrite list_elem_of_In in Ha. now apply actionsToPrint_spec in Ha. }
    split; [|split].
    + rewrite Hset, list_to_set_app_L. set_solver.
    + intros n Hn. apply elem_of_app in Hn as [Hn|Hn]; [now apply Hnow|].
      specialize (Hfresh n Hn). set_solver.
    + intros Hall. apply Forall_cons in Hall as [Hfirst Hall].
      apply NoDup_app. split; [|split].
      * subst now. rewrite actionsToPrint_finished. now apply NoDup_names_filter.
      * intros n Hn Hn'. specialize (Hfresh n Hn'). set_solver.
      * now apply Hdistinct.
Qed.

End Reports.

(** X12 — one call of [printExecutedGraph] reports exactly the actions of
    the snapshot that are not RUNNING and whose name is not yet in the set
    of printed names, each with the execution action filed under its name
    and the dry-run flag; afterwards the set holds, besides what it held,
    the names of all the actions of the snapshot that are not RUNNING. *)
Theorem printExecutedGraph_reports (c : Collaborators)
    (executionGraph : ExecutionGraph.t) (dryRun : option bool)
    (already : gset string) (executedGraph : RunResult.t) :
  let outcome := printExecutedGraph c executionGraph dryRun already executedGraph in
  (forall e, In e (snd outcome) <->
     exists a, In a (RunResult.actions executedGraph)
               /\ ActionResult.status a <> RUNNING
               /\ (actionResultName c a ∉ already)
               /\ e = printExecutedAction a
                        (actionsByName c executionGraph !! actionResultName c a)
                        dryRun)
  /\ fst outcome
     = Returned (already
                 ∪ list_to_set (map (actionResultName c)
                                  (finishedActions executedGraph))).
Proof.
  intros outcome. subst outcome. rewrite printExecutedGraph_eq. cbn [fst snd].
  split.
  - intros e. rewrite in_map_iff. split.
    + intros (a & <- & Ha). exists a. apply actionsToPrint_spec in Ha. tauto.
    + intros (a & H1 & H2 & H3 & ->). exists a. split; [reflexivity|].
      now apply actionsToPrint_spec.
  - now rewrite printed_set_grows.
Qed.

(** X13 — reporting a snapshot a second time prints nothing and leaves the
    set of printed names as it is. *)
Theorem printExecutedGraph_again (c : Collaborators)
    (executionGraph : ExecutionGraph.t) (dryRun : option bool)
    (already : gset string) (executedGraph : RunResult.t) :
  forall printed t,
    printExecutedGraph c executionGraph dryRun already executedGraph
    = (Returned printed, t) ->
    printExecutedGraph c executionGraph dryRun printed executedGraph
    = (Returned printed, []).
Proof.
  intros printed t. rewrite printExecutedGraph_eq, printed_set_grows.
  intros H. injection H as <- _. rewrite printExecutedGraph_eq.
  assert (Hnone : actionsToPrint c
                    (already ∪ list_to_set (map (actionResultName c)
                                              (finishedActions executedGraph)))
                    executedGraph = []).
  { rewrite actionsToPrint_finished.
    assert (Hall : forall (held : gset string) (actions : list ActionResult.t),
               (forall a, In a actions -> actionResultName c a ∈ held) ->
               List.filter (fun a => negb (bool_decide (actionResultName c a ∈ held)))
                 actions = []).
    { intros held actions. induction actions as [|a actions IH]; [reflexivity|].
      intros Hheld. cbn [List.filter].
      rewrite bool_decide_eq_true_2 by (apply Hheld; now left). cbn [negb].
      apply IH. intros b Hb. apply Hheld. now right. }
    apply Hall. intros a Ha. apply elem_of_union. right.
    apply elem_of_list_to_set, list_elem_of_fmap. exists a.
    split; [reflexivity|]. now apply list_elem_of_In. }
  rewrite Hnone. cbn [map list_to_set]. f_equal. f_equal. set_solver.
Qed.

Lemma printExecutedGraph_again_witness :
  printExecutedGraph Sample.succeeding Sample.graph None ∅
    (Sample.resultOf SUCCESSFUL)
  = (Returned {[ "db.s.a" ]},
     [printExecutedAction
        {| ActionResult.target := Sample.target_a; ActionResult.status := SUCCESSFUL |}
        (Some Sample.action_a) None])
  /\ printExecutedGraph Sample.succeeding Sample.graph None {[ "db.s.a" ]}
       (Sample.resultOf SUCCESSFUL)
     = (Returned {[ "db.s.a" ]}, []).
Proof.
  assert (H : printExecutedGraph Sample.succeeding Sample.graph None ∅
                (Sample.resultOf SUCCESSFUL)
              = (Returned {[ "db.s.a" ]},
                 [printExecutedAction
                    {| ActionResult.target := Sample.target_a;
                       ActionResult.status := SUCCESSFUL |}
                    (Some Sample.action_a) None]))
    by (vm_compute; reflexivity).
  split; [exact H|].
  exact (printExecutedGraph_again _ _ _ _ _ _ _ H).
Defined.

Section DispatchReports.

Variable c : Collaborators.
Variable argv : Argv.t.
Variable dbadapter : BigQueryDbAdapter.
Variable executionGraph : ExecutionGraph.t.

(** The trace of the part of [run] that follows the unit tests, for a
    graph that is not empty. *)
Lemma run_dispatch_trace :
  ExecutionGraph.actions executionGraph <> [] ->
  let runner := run c dbadapter executionGraph (bigqueryOptions argv) in
  exists printed changes,
    onChange_callbacks c executionGraph (Argv.dryRun argv) ∅ (Runner.changes runner)
    = (Returned printed, changes)
    /\ run_dispatch c argv dbadapter executionGraph
       = match Runner.result runner with
         | Thrown e =>
             (Thrown e,
              [startLine argv; call_run dbadapter executionGraph (bigqueryOptions argv);
               on_SIGINT; runner_onChange] ++ changes)%list
         | Returned runResult =>
             (Returned (Some (if ExecutionStatus_eqb (RunResult.status runResult)
                                   SUCCESSFUL then 0 else 1)),
              [startLine argv; call_run dbadapter executionGraph (bigqueryOptions argv);
               on_SIGINT; runner_onChange]
              ++ changes ++ [await_result runResult]
              ++ map (fun a => printExecutedAction a
                                 (actionsByName c executionGraph
                                  !! actionResultName c a) (Argv.dryRun argv))
                     (actionsToPrint c printed runResult))%list
         end.
Proof.
  intros Hactions runner.
  destruct (onChange_callbacks_names c executionGraph (Argv.dryRun argv)
              (Runner.changes runner) ∅) as (printed & changes & Hchanges & _).
  exists printed, changes. split; [exact Hchanges|].
  unfold run_dispatch. rewrite actionsByName_size.
  destruct (ExecutionGraph.actions executionGraph) as [|a actions]; [contradiction|].
  cbn [length Nat.eqb]. fold runner.
  unfold bind at 1 2 3 4. unfold emit at 2 3 4. rewrite Hchanges.
  unfold startLine.
  destruct (Runner.result runner) as [runResult|e].
  - unfold bind, silently, emit, ret. cbn beta iota.
    rewrite printExecutedGraph_eq.
    destruct (Js.truthy_bool (Argv.dryRun argv)); cbn [app]; now rewrite app_nil_r.
  - unfold bind, silently, emit.
    destruct (Js.truthy_bool (Argv.dryRun argv)); cbn [app]; now rewrite ?app_nil_r.
Qed.

Lemma printedNames_startLine :
  printedNames c [startLine argv;
                  call_run dbadapter executionGraph (bigqueryOptions argv);
                  on_SIGINT; runner_onChange] = [].
Proof. unfold startLine. now destruct (Js.truthy_bool (Argv.dryRun argv)). Qed.

End DispatchReports.

(** X14 — when no snapshot of the runner, the final result included, holds
    two finished actions with the same name, no action is reported twice in
    the course of a run. *)
Theorem run_reports_each_action_once (c : Collaborators) (argv : Argv.t)
    (dbadapter : BigQueryDbAdapter) (executionGraph : ExecutionGraph.t) :
  let runner := run c dbadapter executionGraph (bigqueryOptions argv) in
  Forall (fun executedGraph =>
            NoDup (map (actionResultName c) (finishedActions executedGraph)))
         (Runner.changes runner) ->
  (forall runResult, Runner.result runner = Returned runResult ->
     NoDup (map (actionResultName c) (finishedActions runResult))) ->
  NoDup (printedNames c (snd (run_dispatch c argv dbadapter executionGraph))).
Proof.
  intros runner Hchanges Hfinal.
  destruct (ExecutionGraph.actions executionGraph) as [|a0 actions0] eqn:Hactions.
  { unfold run_dispatch. rewrite actionsByName_size, Hactions. cbn. constructor. }
  assert (Hne : ExecutionGraph.actions executionGraph <> [])
    by (rewrite Hactions; discriminate).
  destruct (run_dispatch_trace c argv dbadapter executionGraph Hne)
    as (printed & changes & Hrun & ->).
  fold runner in Hrun |- *.
  destruct (onChange_callbacks_names c executionGraph (Argv.dryRun argv)
              (Runner.changes runner) ∅)
    as (printed' & changes' & Hrun' & Hset & Hfresh & Hdistinct).
  rewrite Hrun in Hrun'. injection Hrun' as <- <-.
  specialize (Hdistinct Hchanges).
  destruct (Runner.result runner) as [runResult|e]; cbn [snd].
  - rewrite !printedNames_app, printedNames_startLine, printedNames_reports.
    cbn [app printedNames flat_map].
    apply NoDup_app. split; [assumption|]. split.
    + intros n Hn Hn'. apply list_elem_of_fmap in Hn' as (a & -> & Ha).
      rewrite list_elem_of_In in Ha. apply actionsToPrint_spec in Ha as (_ & _ & Ha).
      apply Ha. rewrite Hset. apply elem_of_union. right.
      now apply elem_of_list_to_set.
    + rewrite actionsToPrint_finished. apply NoDup_names_filter.
      now apply Hfinal.
  - now rewrite printedNames_app, printedNames_startLine.
Qed.

Lemma run_reports_each_action_once_witness :
  NoDup (map (actionResultName Sample.succeeding)
           (finishedActions (Sample.resultOf SUCCESSFUL)))
  /\ NoDup (printedNames Sample.succeeding
              (snd (run_dispatch Sample.succeeding Sample.plain Sample.adapter
                      Sample.graph))).
Proof.
  assert (Hone : forall status,
             NoDup (map (actionResultName Sample.succeeding)
                      (finishedActions (Sample.resultOf status)))).
  { intros status. unfold finishedActions, Sample.resultOf. cbn.
    destruct (ExecutionStatus_eqb status RUNNING); cbn.
    - constructor.
    - apply NoDup_singleton. }
  split; [apply Hone|].
  apply (run_reports_each_action_once Sample.succeeding Sample.plain Sample.adapter
           Sample.graph).
  - cbn. constructor; [apply Hone|constructor].
  - cbn. intros runResult H. injection H as <-. apply Hone.
Defined.

(** X15 — when the runner's result arrives, every action of it that is not
    RUNNING has been reported by the end of the run, in one of the
    snapshots or with the result. *)
Theorem run_reports_every_finished_action (c : Collaborators) (argv : Argv.t)
    (dbadapter : BigQueryDbAdapter) (executionGraph : ExecutionGraph.t)
    (runResult : RunResult.t) (a : ActionResult.t) :
  ExecutionGraph.actions executionGraph <> [] ->
  Runner.result (run c dbadapter executionGraph (bigqueryOptions argv))
  = Returned runResult ->
  In a (RunResult.actions runResult) ->
  ActionResult.status a <> RUNNING ->
  actionResultName c a
  ∈ printedNames c (snd (run_dispatch c argv dbadapter executionGraph)).
Proof.
  intros Hne Hresult Hin Hstatus.
  destruct (run_dispatch_trace c argv dbadapter executionGraph Hne)
    as (printed & changes & Hrun & ->).
  destruct (onChange_callbacks_names c executionGraph (Argv.dryRun argv)
              (Runner.changes (run c dbadapter executionGraph (bigqueryOptions argv)))
              ∅)
    as (printed' & changes' & Hrun' & Hset & _).
  rewrite Hrun in Hrun'. injection Hrun' as <- <-.
  rewrite Hresult. cbn [snd].
  rewrite !printedNames_app, printedNames_startLine, printedNames_reports.
  cbn [app printedNames flat_map]. apply elem_of_app.
  destruct (decide (actionResultName c a ∈ printed)) as [Hheld|Hnew].
  - left. rewrite Hset in Hheld. apply elem_of_union in Hheld as [Hheld|Hheld].
    + set_solver.
    + now apply elem_of_list_to_set in Hheld.
  - right. apply list_elem_of_fmap. exists a. split; [reflexivity|].
    apply list_elem_of_In, actionsToPrint_spec. tauto.
Qed.

Lemma run_reports_every_finished_action_witness :
  actionResultName Sample.succeeding
    {| ActionResult.target := Sample.target_a; ActionResult.status := SUCCESSFUL |}
  ∈ printedNames Sample.succeeding
      (snd (run_dispatch Sample.succeeding Sample.plain Sample.adapter Sample.graph)).
Proof.
  apply (run_reports_every_finished_action Sample.succeeding Sample.plain
           Sample.adapter Sample.graph (Sample.resultOf SUCCESSFUL)).
  - discriminate.
  - reflexivity.
  - now left.
  - discriminate.
Defined.

(** ** The order of the calls *)

Lemma callsOf_app (t1 t2 : list Event) :
  callsOf (t1 ++ t2) = (callsOf t1 ++ callsOf t2)%list.
Proof. apply flat_map_app. Qed.

Lemma callsOf_reports (t : list Event) :
  forallb is_printExecutedAction t = true -> callsOf t = [].
Proof.
  induction t as [|e t IH]; [reflexivity|]. cbn [forallb]. intros H.
  apply andb_prop in H as [He Ht]. destruct e; try discriminate.
  cbn. now apply IH.
Qed.

Lemma callsOf_test_results (testResults : list TestResult.t) :
  callsOf (map printTestResult testResults) = [].
Proof. induction testResults as [|r rs IH]; [reflexivity|]. exact IH. Qed.

Lemma progress_test_results (testResults : list TestResult.t) (p : Event -> bool) :
  (forall r, p (printTestResult r) = false) ->
  existsb p (map printTestResult testResults) = false.
Proof. intros Hp. now apply existsb_map_never. Qed.

(** X16 — the [test] command calls the compiler, then the credentials
    store, then the unit tests, each at most once and none without the one
    before; it never builds an execution graph and never calls the
    runner. *)
Theorem test_command_calls (c : Collaborators) (argv : Argv.t) :
  let t := snd (test_processFn c argv) in
  (exists n, callsOf t = firstn n [Compiler; CredentialsStore; UnitTests])
  /\ existsb is_call_build t = false
  /\ existsb is_call_run t = false
  /\ existsb is_await_result t = false.
Proof.
  unfold test_processFn, bind, call, emit, ret, forEach.
  destruct (compile c (compileOptions argv)) as [compiledGraph|e].
  2:{ cbn. split; [now exists 1%nat|auto]. }
  destruct (compiledGraphHasErrors compiledGraph).
  { cbn. split; [now exists 1%nat|auto]. }
  destruct (credentials_read c _) as [readCredentials|e].
  2:{ cbn. split; [now exists 2%nat|auto]. }
  destruct (Nat.eqb (length (CompiledGraph.tests compiledGraph)) 0).
  { cbn. split; [now exists 2%nat|auto]. }
  destruct (test c _ _) as [testResults|e].
  2:{ cbn. split; [now exists 3%nat|auto]. }
  cbn [snd app]. rewrite app_nil_r.
  cbn [callsOf flat_map calledBy app existsb is_call_build is_call_run
       is_await_result orb].
  fold (callsOf (map printTestResult testResults)).
  rewrite callsOf_test_results, !existsb_map_never by reflexivity.
  split; [now exists 3%nat|auto].
Qed.

(** X17 — when the project has no unit test, the [test] command reports it
    and returns 1 without calling the adapter; the credentials are read
    before that, so that credentials that cannot be read fail the command
    even when there is nothing to test. *)
Theorem test_without_unit_tests (c : Collaborators) (argv : Argv.t)
    (compiledGraph : CompiledGraph.t) :
  compile c (compileOptions argv) = Returned compiledGraph ->
  compiledGraphHasErrors compiledGraph = false ->
  CompiledGraph.tests compiledGraph = [] ->
  (forall readCredentials,
      credentials_read c (credentialsPath c argv) = Returned readCredentials ->
      test_processFn c argv
      = (Returned (Some 1),
         [print ("Compiling..." ++ Js.newline);
          call_compile (compileOptions argv);
          printSuccess ("Compiled successfully." ++ Js.newline);
          call_credentials_read (credentialsPath c argv);
          printError "No unit tests found."]))
  /\ (forall e,
        credentials_read c (credentialsPath c argv) = Thrown e ->
        fst (test_processFn c argv) = Thrown e).
Proof.
  intros Hcompile Herrors Htests.
  unfold test_processFn, bind, call, emit, ret, forEach.
  fold (credentialsPath c argv). rewrite Hcompile, Herrors, Htests.
  split.
  - intros readCredentials ->. reflexivity.
  - intros e ->. reflexivity.
Qed.

Lemma test_without_unit_tests_witness :
  fst (test_processFn
         (Sample.collaborators
            {| CompiledGraph.targets := []; CompiledGraph.tests := [];
               CompiledGraph.graphErrors := None |}
            Sample.emptyGraph true SUCCESSFUL)
         Sample.plain)
  = Returned (Some 1).
Proof.
  pose proof (proj1 (test_without_unit_tests
                (Sample.collaborators
                   {| CompiledGraph.targets := []; CompiledGraph.tests := [];
                      CompiledGraph.graphErrors := None |}
                   Sample.emptyGraph true SUCCESSFUL)
                Sample.plain _ eq_refl eq_refl eq_refl)
              Sample.storedCredentials eq_refl) as H.
  now rewrite H.
Defined.

(** X18 — when there are unit tests, the [test] command reports every
    result, in the order the results came, and returns 0 exactly when every
    one of them is successful, and 1 otherwise. *)
Theorem test_exit_code (c : Collaborators) (argv : Argv.t)
    (compiledGraph : CompiledGraph.t) (readCredentials : Credentials.t)
    (testResults : list TestResult.t) :
  let dbadapter := {| adapter_credentials := readCredentials |} in
  compile c (compileOptions argv) = Returned compiledGraph ->
  compiledGraphHasErrors compiledGraph = false ->
  credentials_read c (credentialsPath c argv) = Returned readCredentials ->
  CompiledGraph.tests compiledGraph <> [] ->
  test c dbadapter (CompiledGraph.tests compiledGraph) = Returned testResults ->
  (exists code,
      test_processFn c argv
      = (Returned (Some code),
         [print ("Compiling..." ++ Js.newline);
          call_compile (compileOptions argv);
          printSuccess ("Compiled successfully." ++ Js.newline);
          call_credentials_read (credentialsPath c argv);
          testsLine compiledGraph;
          call_test dbadapter (CompiledGraph.tests compiledGraph)]
         ++ map printTestResult testResults)%list
      /\ (code = 0 <->
          forall r, In r testResults -> TestResult.successful r = true)
      /\ (code = 0 \/ code = 1)).
Proof.
  intros dbadapter Hcompile Herrors Hcredentials Htests Htest.
  exists (if forallb TestResult.successful testResults then 0 else 1).
  split; [|split].
  - unfold test_processFn, bind, call, emit, ret, forEach.
    fold (credentialsPath c argv). rewrite Hcompile, Herrors, Hcredentials.
    fold dbadapter. rewrite Htest.
    destruct (CompiledGraph.tests compiledGraph) as [|unitTest tests] eqn:Hlist;
      [contradiction|].
    cbn [length Nat.eqb app]. rewrite app_nil_r. unfold testsLine.
    now rewrite Hlist.
  - destruct (forallb TestResult.successful testResults) eqn:Hall.
    + split; [|reflexivity]. intros _. now apply forallb_forall.
    + split; [discriminate|]. intros H. apply forallb_forall in H. congruence.
  - destruct (forallb TestResult.successful testResults); auto.
Qed.

Lemma test_exit_code_witness :
  fst (test_processFn Sample.failingTest Sample.plain) = Returned (Some 1).
Proof.
  destruct (test_exit_code Sample.failingTest Sample.plain Sample.compiled
              Sample.storedCredentials [Sample.testResult false])
    as (code & Hrun & Hzero & Hcode);
    [reflexivity | reflexivity | reflexivity | discriminate | reflexivity |].
  rewrite Hrun. cbn [fst]. destruct Hcode as [-> | ->]; [|reflexivity].
  pose proof (proj1 Hzero eq_refl (Sample.testResult false) (or_introl eq_refl)).
  discriminate.
Defined.

Section RunCalls.

Variable c : Collaborators.
Variable argv : Argv.t.

Lemma callsOf_buildPrefix compiledGraph dbadapter :
  callsOf (buildPrefix c argv compiledGraph dbadapter)
  = [Compiler; CredentialsStore; Builder].
Proof.
  unfold buildPrefix, compilingLine, compiledLine. now destruct (Argv.json argv).
Qed.

Lemma callsOf_compilingLine : callsOf (compilingLine argv) = [].
Proof. unfold compilingLine. now destruct (Argv.json argv). Qed.

Lemma callsOf_compiledLine : callsOf (compiledLine argv) = [].
Proof. unfold compiledLine. now destruct (Argv.json argv). Qed.

Lemma dispatch_calls dbadapter executionGraph r t :
  dispatch_path c argv dbadapter executionGraph r t ->
  callsOf t = [] \/ callsOf t = [TheRunner].
Proof.
  intros Hpath.
  destruct Hpath as [Hempty | e changes Hne Hres Hch
                    | runResult changes final Hne Hres Hch Hfin].
  - now left.
  - right. rewrite callsOf_app, (callsOf_reports _ Hch).
    unfold startLine. now destruct (Js.truthy_bool (Argv.dryRun argv)).
  - right. rewrite !callsOf_app, (callsOf_reports _ Hch), (callsOf_reports _ Hfin).
    unfold startLine. now destruct (Js.truthy_bool (Argv.dryRun argv)).
Qed.

Lemma after_build_calls compiledGraph dbadapter executionGraph r t :
  after_build_path c argv compiledGraph dbadapter executionGraph r t ->
  callsOf t = [] \/ callsOf t = [TheRunner]
  \/ callsOf t = [UnitTests] \/ callsOf t = [UnitTests; TheRunner].
Proof.
  intros Hpath.
  destruct Hpath as [e Htests Htest | testResults Htests Htest Hfailed
                    | testResults r t Htests Htest Hpassed Hdispatch
                    | r t Htests Hdispatch].
  - right. right. now left.
  - right. right. left. rewrite !callsOf_app, callsOf_test_results. reflexivity.
  - rewrite !callsOf_app, callsOf_test_results. cbn [callsOf flat_map calledBy app].
    fold (callsOf t).
    destruct (dispatch_calls _ _ _ _ Hdispatch) as [-> | ->]; auto.
  - destruct (dispatch_calls _ _ _ _ Hdispatch) as [-> | ->]; auto.
Qed.

End RunCalls.

(** X19 — the [run] command calls the compiler, the credentials store, the
    builder, the unit tests (if asked for) and the runner in this order,
    each at most once and none of them unless the ones before it were
    called, the unit tests apart. *)
Theorem run_command_calls (c : Collaborators) (argv : Argv.t) :
  exists n,
    callsOf (snd (run_processFn c argv))
    = firstn n [Compiler; CredentialsStore; Builder; UnitTests; TheRunner]
    \/ callsOf (snd (run_processFn c argv))
       = [Compiler; CredentialsStore; Builder; TheRunner].
Proof.
  pose proof (run_processFn_path c argv) as Hpath.
  destruct (run_processFn c argv) as [r t]. cbn [fst snd] in *.
  destruct Hpath as [Hguard | e Hguard Hcompile
                    | compiledGraph Hguard Hcompile Herrors
                    | compiledGraph e Hguard Hcompile Herrors Hcredentials
                    | compiledGraph readCredentials e Hguard Hcompile Herrors
                        Hcredentials Hbuild
                    | compiledGraph readCredentials executionGraph Hguard Hcompile
                        Herrors Hcredentials Hbuild Hdry
                    | compiledGraph readCredentials executionGraph r t Hguard
                        Hcompile Herrors Hcredentials Hbuild Hdry Hafter].
  - exists 0%nat. now left.
  - exists 1%nat. left. now rewrite callsOf_app, callsOf_compilingLine.
  - exists 1%nat. left. now rewrite callsOf_app, callsOf_compilingLine.
  - exists 2%nat. left.
    now rewrite !callsOf_app, callsOf_compilingLine, callsOf_compiledLine.
  - exists 3%nat. left. now rewrite callsOf_buildPrefix.
  - exists 3%nat. left. now rewrite callsOf_app, callsOf_buildPrefix.
  - rewrite callsOf_app, callsOf_buildPrefix.
    destruct (after_build_calls c argv _ _ _ _ _ Hafter) as [-> | [-> | [-> | ->]]].
    + exists 3%nat. now left.
    + exists 0%nat. now right.
    + exists 4%nat. now left.
    + exists 5%nat. now left.
Qed.

(** X20 — a dry run with [--json] prints no line meant for a person: no
    progress line, no success line, no test result and no action report.
    Its trace is made of calls to the collaborators followed by at most one
    print: the compilation errors, exactly when the compiled graph has
    errors, or the execution graph as JSON. *)
Theorem json_dry_run_prints_no_progress (c : Collaborators) (argv : Argv.t) :
  Js.truthy_bool (Argv.dryRun argv) = true ->
  Argv.json argv = true ->
  existsb is_progress (snd (run_processFn c argv)) = false
  /\ (exists calls,
        (forall e, In e calls -> calledBy e <> [])
        /\ (snd (run_processFn c argv) = calls
            \/ (exists compiledGraph,
                   compile c (compileOptions argv) = Returned compiledGraph
                   /\ compiledGraphHasErrors compiledGraph = true
                   /\ snd (run_processFn c argv)
                      = (calls
                         ++ [printCompiledGraphErrors
                               (CompiledGraph.graphErrors compiledGraph)])%list)
            \/ (exists executionGraph,
                   snd (run_processFn c argv)
                   = (calls ++ [printExecutionGraph executionGraph true])%list)))
  /\ (forall compiledGraph,
        compile c (compileOptions argv) = Returned compiledGraph ->
        compiledGraphHasErrors compiledGraph = true ->
        In (printCompiledGraphErrors (CompiledGraph.graphErrors compiledGraph))
           (snd (run_processFn c argv))).
Proof.
  intros Hdry Hjson. pose proof (run_processFn_path c argv) as Hpath.
  destruct (run_processFn c argv) as [r t]. cbn [fst snd] in *.
  assert (Hcalls : forall calls : list Event,
             forallb (fun e => negb (Nat.eqb (length (calledBy e)) 0)) calls = true ->
             forall e, In e calls -> calledBy e <> []).
  { intros calls Hall e Hin Hnone.
    apply (proj1 (forallb_forall _ _) Hall) in Hin. now rewrite Hnone in Hin. }
  destruct Hpath as [Hguard | e Hguard Hcompile
                    | compiledGraph Hguard Hcompile Herrors
                    | compiledGraph e Hguard Hcompile Herrors Hcredentials
                    | compiledGraph readCredentials e Hguard Hcompile Herrors
                        Hcredentials Hbuild
                    | compiledGraph readCredentials executionGraph Hguard Hcompile
                        Herrors Hcredentials Hbuild Hdry'
                    | compiledGraph readCredentials executionGraph r t Hguard
                        Hcompile Herrors Hcredentials Hbuild Hdry' Hafter].
  - rewrite Hdry, Hjson in Hguard. discriminate.
  - unfold compilingLine. rewrite Hjson. cbn [app].
    split; [reflexivity|]. split.
    + eexists. split; [apply Hcalls|left; reflexivity]. reflexivity.
    + intros compiledGraph Hcompile'. congruence.
  - unfold compilingLine. rewrite Hjson. cbn [app].
    split; [reflexivity|]. split.
    + exists [call_compile (compileOptions argv)].
      split; [now apply Hcalls|]. right. left. now exists compiledGraph.
    + intros compiledGraph' Hcompile' _.
      rewrite Hcompile in Hcompile'. injection Hcompile' as <-. right. now left.
  - unfold compilingLine, compiledLine. rewrite Hjson. cbn [app].
    split; [reflexivity|]. split.
    + eexists. split; [apply Hcalls|left; reflexivity]. reflexivity.
    + intros compiledGraph' Hcompile'. congruence.
  - unfold buildPrefix, compilingLine, compiledLine. rewrite Hjson. cbn [app].
    split; [reflexivity|]. split.
    + eexists. split; [apply Hcalls|left; reflexivity]. reflexivity.
    + intros compiledGraph' Hcompile'. congruence.
  - unfold buildPrefix, compilingLine, compiledLine. rewrite Hjson. cbn [app].
    split; [reflexivity|]. split.
    + exists [call_compile (compileOptions argv);
              call_credentials_read (credentialsPath c argv);
              call_build compiledGraph (runConfig argv)
                {| adapter_credentials := readCredentials |}].
      split; [now apply Hcalls|]. right. right. now exists executionGraph.
    + intros compiledGraph' Hcompile'. congruence.
  - rewrite Hdry, Hjson in Hdry'. discriminate.
Qed.

Lemma json_dry_run_prints_no_progress_witness :
  Js.truthy_bool (Argv.dryRun Sample.dryRunJson) = true
  /\ existsb is_progress (snd (run_processFn Sample.notCompiling Sample.dryRunJson))
     = false
  /\ In (printCompiledGraphErrors (CompiledGraph.graphErrors Sample.broken))
       (snd (run_processFn Sample.notCompiling Sample.dryRunJson)).
Proof.
  split; [reflexivity|].
  destruct (json_dry_run_prints_no_progress Sample.notCompiling Sample.dryRunJson
              eq_refl eq_refl) as (Hquiet & _ & Herrors).
  split; [exact Hquiet|].
  apply Herrors; vm_compute; reflexivity.
Defined.

(** ** The [compile] command *)

(** X21 — without [--watch], the [compile] command returns 1 exactly when
    the compiled graph has errors and 0 otherwise; it prints the compiled
    graph in both cases, and the errors, when there are any, after the
    graph and an empty line; with [--json] it prints no other line, so the
    graph comes first. *)
Theorem compile_command_outcome (c : Collaborators) (argv : Argv.t)
    (r : Completion (option Z)) (t : list Output) :
  compile_processFn c argv = (r, t) ->
  (forall code, r = Returned code ->
     exists compiledGraph,
       compile c (compileOptions argv) = Returned compiledGraph
       /\ code = Some (if compiledGraphHasErrors compiledGraph then 1 else 0)
       /\ exists before after,
            t = (before
                 ++ out_printCompiledGraph compiledGraph (Argv.json argv) :: after)%list
            /\ (Argv.json argv = true ->
                before = [out_call_compile (compileOptions argv)])
            /\ after
               = (if compiledGraphHasErrors compiledGraph
                  then [out_print EmptyString;
                        out_printCompiledGraphErrors
                          (CompiledGraph.graphErrors compiledGraph)]
                  else []))
  /\ (r = Returned (Some 1) <->
      exists graphErrors, In (out_printCompiledGraphErrors graphErrors) t)
  /\ (forall e, r = Thrown e ->
        compile c (compileOptions argv) = Thrown e
        /\ forall o, In o t ->
             o = out_call_compile (compileOptions argv)
             \/ o = out_print ("Compiling..." ++ Js.newline)).
Proof.
  unfold compile_processFn, compileAndPrint.
  destruct (compile c (compileOptions argv)) as [compiledGraph|e] eqn:Hcompile.
  - destruct (compiledGraphHasErrors compiledGraph) eqn:Herrors;
      intros H; injection H as <- <-; (split; [|split]).
    + intros code Hcode. injection Hcode as <-. exists compiledGraph.
      rewrite Herrors. split; [reflexivity|]. split; [reflexivity|].
      eexists _, _. split; [rewrite <- app_assoc; reflexivity|].
      split; [|reflexivity]. now intros ->.
    + split; [|reflexivity]. intros _. eexists. apply in_or_app. right.
      right. now left.
    + discriminate.
    + intros code Hcode. injection Hcode as <-. exists compiledGraph.
      rewrite Herrors. split; [reflexivity|]. split; [reflexivity|].
      eexists _, _. split; [reflexivity|].
      split; [|reflexivity]. now intros ->.
    + split; [discriminate|]. intros (graphErrors & Hin).
      destruct (Argv.json argv); cbn in Hin; intuition discriminate.
    + discriminate.
  - intros H. injection H as <- <-. split; [|split].
    + discriminate.
    + split; [discriminate|]. intros (graphErrors & Hin).
      destruct (Argv.json argv); cbn in Hin; intuition discriminate.
    + intros e' He. injection He as <-. split; [reflexivity|].
      intros o Hin. destruct (Argv.json argv); cbn in Hin; intuition.
Qed.

Lemma compile_command_outcome_witness :
  fst (compile_processFn Sample.notCompiling Sample.plain) = Returned (Some 1)
  /\ exists graphErrors,
       In (out_printCompiledGraphErrors graphErrors)
          (snd (compile_processFn Sample.notCompiling Sample.plain)).
Proof.
  assert (H : compile_processFn Sample.notCompiling Sample.plain
              = (Returned (Some 1),
                 snd (compile_processFn Sample.notCompiling Sample.plain)))
    by (vm_compute; reflexivity).
  split; [now rewrite H|].
  apply (proj1 (proj2 (compile_command_outcome _ _ _ _ H))). reflexivity.
Defined.

(** ** The [format] command *)

Lemma filter_nonempty {A : Type} (p : A -> bool) (xs : list A) :
  negb (Nat.eqb (length (List.filter p xs)) 0) = true
  <-> exists x, In x xs /\ p x = true.
Proof.
  rewrite negb_true_iff, Nat.eqb_neq. split.
  - destruct (List.filter p xs) as [|x rest] eqn:Hfilter; [intros H; now destruct H|].
    intros _. exists x. apply filter_In. rewrite Hfilter. now left.
  - intros (x & Hin & Hp) Hlen. apply length_zero_iff_nil in Hlen.
    assert (In x (List.filter p xs)) as Hx by (apply filter_In; now split).
    rewrite Hlen in Hx. destruct Hx.
Qed.

Lemma some_failed (results : list FormatResult.t) :
  negb (Nat.eqb (length (failedFormatResults results)) 0) = true
  <-> exists result, In result results /\ FormatResult.err result <> None.
Proof.
  unfold failedFormatResults. rewrite filter_nonempty.
  split; intros (x & Hin & Hx); exists x; (split; [assumption|]);
    now destruct (FormatResult.err x).
Qed.

Lemma some_needing (results : list FormatResult.t) :
  negb (Nat.eqb (length (filesNeedingFormatting results)) 0) = true
  <-> exists result, In result results
                     /\ FormatResult.needsFormatting result = Some true.
Proof.
  unfold filesNeedingFormatting. rewrite filter_nonempty.
  split; intros (x & Hin & Hx); exists x; (split; [assumption|]).
  - now apply truthy_bool_true.
  - now rewrite Hx.
Qed.

Section Format.

Variable f : Formatter.
Variable c : Collaborators.
Variable argv : Argv.t.

Lemma formatOne_filename isCheckMode filename :
  FormatResult.filename (fst (formatOne f c argv isCheckMode filename)) = filename.
Proof.
  unfold formatOne. destruct isCheckMode.
  - destruct (readFileSync f _); [|reflexivity]. now destruct (formatFile f _ false).
  - now destruct (formatFile f _ true).
Qed.

Lemma formatOne_overwriting filename :
  FormatResult.needsFormatting (fst (formatOne f c argv false filename)) = None.
Proof. unfold formatOne. now destruct (formatFile f _ true). Qed.

(** A file passes the check when it can be read and formatted, and
    formatting leaves its content as it is. *)
Lemma formatOne_check_clean filename :
  (FormatResult.err (fst (formatOne f c argv true filename)) = None
   /\ FormatResult.needsFormatting (fst (formatOne f c argv true filename))
      <> Some true)
  <-> exists content,
        readFileSync f (path_resolve c (Argv.projectDir argv) filename)
        = Returned content
        /\ formatFile f (path_resolve c (Argv.projectDir argv) filename) false
           = Returned content.
Proof.
  unfold formatOne.
  destruct (readFileSync f _) as [content|e].
  - destruct (formatFile f _ false) as [formatted|e]; cbn.
    + split.
      * intros [_ Hneeds]. exists content. split; [reflexivity|].
        destruct (String.eqb content formatted) eqn:Heq.
        -- apply String.eqb_eq in Heq. now subst.
        -- now contradiction Hneeds.
      * intros (content' & [= <-] & [= <-]). split; [reflexivity|].
        now rewrite String.eqb_refl.
    + split; [intros [[=] _]|intros (content' & _ & [=])].
  - cbn. split; [intros [[=] _]|intros (content' & [=] & _)].
Qed.

Lemma format_code_1 isCheckMode :
  fst (format_processFn f c argv isCheckMode) = 1
  <-> (exists result, In result (formatResults f c argv isCheckMode)
                      /\ FormatResult.err result <> None)
      \/ (isCheckMode = true
          /\ exists result, In result (formatResults f c argv isCheckMode)
                            /\ FormatResult.needsFormatting result = Some true).
Proof.
  unfold format_processFn.
  rewrite <- some_failed, <- some_needing.
  destruct (negb (Nat.eqb (length (failedFormatResults _)) 0)).
  - cbn [fst]. split; [now left|reflexivity].
  - destruct isCheckMode.
    + destruct (negb (Nat.eqb (length (filesNeedingFormatting _)) 0)); cbn [fst].
      * split; [now right|reflexivity].
      * split; [discriminate|]. intros [H|[_ H]]; discriminate.
    + cbn [fst]. split; [discriminate|]. intros [H|[H _]]; discriminate.
Qed.

Lemma format_code_0_or_1 isCheckMode :
  fst (format_processFn f c argv isCheckMode) = 0
  \/ fst (format_processFn f c argv isCheckMode) = 1.
Proof.
  unfold format_processFn.
  destruct (negb (Nat.eqb (length (failedFormatResults _)) 0)); [now right|].
  destruct isCheckMode; [|now left].
  destruct (negb (Nat.eqb (length (filesNeedingFormatting _)) 0)); [now right|now left].
Qed.

End Format.

(** X22 — the [format] command returns 1 exactly when a file could not be
    formatted or, with [--check], a file would be reformatted, and 0
    otherwise; it always prints the results first.  A file that could not
    be formatted takes precedence: then the only other line is the count of
    the failed files, also with [--check]. *)
Theorem format_exit_code (f : Formatter) (c : Collaborators) (argv : Argv.t)
    (isCheckMode : bool) :
  let results := formatResults f c argv isCheckMode in
  let code := fst (format_processFn f c argv isCheckMode) in
  let outputs := snd (format_processFn f c argv isCheckMode) in
  (code = 1 <->
   (exists result, In result results /\ FormatResult.err result <> None)
   \/ (isCheckMode = true
       /\ exists result, In result results
                         /\ FormatResult.needsFormatting result = Some true))
  /\ (code = 0 \/ code = 1)
  /\ hd_error outputs = Some (out_printFormatFilesResult results)
  /\ ((exists result, In result results /\ FormatResult.err result <> None) ->
      outputs
      = [out_printFormatFilesResult results;
         out_printError (pretty (length (failedFormatResults results))
                         ++ " file(s) failed to format.")]).
Proof.
  intros results code outputs. subst code outputs.
  split; [apply format_code_1|]. split; [apply format_code_0_or_1|].
  unfold format_processFn. fold results.
  destruct (negb (Nat.eqb (length (failedFormatResults results)) 0)) eqn:Hfailed.
  - split; reflexivity.
  - split.
    + destruct isCheckMode; [|reflexivity].
      now destruct (negb (Nat.eqb (length (filesNeedingFormatting results)) 0)).
    + intros H. apply some_failed in H. congruence.
Qed.

(** X23 — the results of [format] report every file the patterns match,
    once for every match and in the order of the matches, failed files
    included.  Without [--check] no result says that a file needs
    formatting, so that the command then returns 1 only for files that
    failed. *)
Theorem format_results_cover (f : Formatter) (c : Collaborators) (argv : Argv.t)
    (isCheckMode : bool) :
  map FormatResult.filename (formatResults f c argv isCheckMode)
  = formatFilenames f argv
  /\ (forall result,
        In result (formatResults f c argv false) ->
        FormatResult.needsFormatting result = None)
  /\ (fst (format_processFn f c argv false) = 1 <->
      exists result, In result (formatResults f c argv false)
                     /\ FormatResult.err result <> None).
Proof.
  split; [|split].
  - unfold formatResults. rewrite map_map.
    induction (formatFilenames f argv) as [|filename filenames IH]; [reflexivity|].
    cbn [map]. now rewrite formatOne_filename, IH.
  - unfold formatResults. intros result Hin.
    apply in_map_iff in Hin as (filename & <- & _). apply formatOne_overwriting.
  - rewrite format_code_1. split; [|now left].
    intros [H|[H _]]; [assumption|discriminate].
Qed.

(** X24 — [format --check] returns 0 exactly when every file the patterns
    match can be read and formatted, and formatting it gives the content it
    already has. *)
Theorem format_check_passes (f : Formatter) (c : Collaborators) (argv : Argv.t) :
  fst (format_processFn f c argv true) = 0
  <-> forall filename,
        In filename (formatFilenames f argv) ->
        exists content,
          readFileSync f (path_resolve c (Argv.projectDir argv) filename)
          = Returned content
          /\ formatFile f (path_resolve c (Argv.projectDir argv) filename) false
             = Returned content.
Proof.
  split.
  - intros Hcode filename Hin. apply formatOne_check_clean.
    assert (Hresult : In (fst (formatOne f c argv true filename))
                        (formatResults f c argv true))
      by (unfold formatResults;
          now apply (in_map (fun filename => fst (formatOne f c argv true filename)))).
    split.
    + destruct (FormatResult.err (fst (formatOne f c argv true filename))) eqn:Herr;
        [|reflexivity].
      assert (fst (format_processFn f c argv true) = 1) as H1; [|lia].
      apply format_code_1. left. eexists. split; [exact Hresult|]. now rewrite Herr.
    + intros Hneeds.
      assert (fst (format_processFn f c argv true) = 1) as H1; [|lia].
      apply format_code_1. right. split; [reflexivity|]. eauto.
  - intros Hclean.
    destruct (format_code_0_or_1 f c argv true) as [H0|H1]; [assumption|].
    exfalso. apply format_code_1 in H1.
    assert (Hall : forall result, In result (formatResults f c argv true) ->
                     FormatResult.err result = None
                     /\ FormatResult.needsFormatting result <> Some true).
    { unfold formatResults. intros result Hin.
      apply in_map_iff in Hin as (filename & <- & Hin).
      apply formatOne_check_clean. now apply Hclean. }
    destruct H1 as [(result & Hin & Herr)|[_ (result & Hin & Hneeds)]].
    + now destruct (Hall result Hin).
    + now destruct (Hall result Hin).
Qed.

(** The calls made for one file. *)
Lemma formatOne_calls (f : Formatter) (c : Collaborators) (argv : Argv.t)
    (isCheckMode : bool) (filename : string) :
  let filePath := path_resolve c (Argv.projectDir argv) filename in
  snd (formatOne f c argv isCheckMode filename)
  = if isCheckMode
    then called_readFileSync filePath
         :: match readFileSync f filePath with
            | Returned _ => [called_formatFile filePath false]
            | Thrown _ => []
            end
    else [called_formatFile filePath true].
Proof.
  unfold formatOne. destruct isCheckMode.
  - destruct (readFileSync f _); [|reflexivity]. now destruct (formatFile f _ false).
  - now destruct (formatFile f _ true).
Qed.

(** X25 — the calls [format] makes on the files, in order: with [--check]
    every matched file is read and then, if it could be read, formatted
    without being overwritten; without [--check] every matched file is
    formatted and overwritten, and none is read by the command itself.
    Hence [--check] never asks [formatFile] to overwrite a file. *)
Theorem format_mode_reaches (f : Formatter) (c : Collaborators) (argv : Argv.t)
    (isCheckMode : bool) :
  let filePath filename := path_resolve c (Argv.projectDir argv) filename in
  let calls := formatCalls f c argv isCheckMode in
  (forall path overwriteFile,
      In (called_formatFile path overwriteFile) calls ->
      overwriteFile = negb isCheckMode)
  /\ (forall path, In (called_readFileSync path) calls -> isCheckMode = true)
  /\ (isCheckMode = false ->
      calls
      = map (fun filename => called_formatFile (filePath filename) true)
            (formatFilenames f argv))
  /\ (isCheckMode = true ->
      calls
      = flat_map
          (fun filename =>
             called_readFileSync (filePath filename)
             :: match readFileSync f (filePath filename) with
                | Returned _ => [called_formatFile (filePath filename) false]
                | Thrown _ => []
                end)
          (formatFilenames f argv)).
Proof.
  intros filePath calls. subst calls. unfold formatCalls, Js.flat.
  assert (Hcalls : forall call,
             In call (List.concat
                        (map (fun filename =>
                                snd (formatOne f c argv isCheckMode filename))
                             (formatFilenames f argv))) ->
             exists filename,
               In call (snd (formatOne f c argv isCheckMode filename))).
  { intros call Hin. apply in_concat in Hin as (calls & Hcalls & Hin).
    apply in_map_iff in Hcalls as (filename & <- & _). now exists filename. }
  split; [|split; [|split]].
  - intros path overwriteFile Hin. apply Hcalls in Hin as (filename & Hin).
    rewrite formatOne_calls in Hin. destruct isCheckMode.
    + destruct Hin as [Hin|Hin]; [discriminate|].
      destruct (readFileSync f _); [|destruct Hin].
      destruct Hin as [Hin|[]]. now injection Hin.
    + destruct Hin as [Hin|[]]. now injection Hin.
  - intros path Hin. apply Hcalls in Hin as (filename & Hin).
    rewrite formatOne_calls in Hin. destruct isCheckMode; [reflexivity|].
    destruct Hin as [Hin|[]]. discriminate.
  - intros ->. clear Hcalls.
    induction (formatFilenames f argv) as [|filename filenames IH]; [reflexivity|].
    cbn [map List.concat]. now rewrite IH, formatOne_calls.
  - intros ->. clear Hcalls.
    induction (formatFilenames f argv) as [|filename filenames IH]; [reflexivity|].
    cbn [map List.concat flat_map]. now rewrite IH, formatOne_calls.
Qed.

(** X26 — [--actions] without a value is treated as if the option were not
    given: in both cases the files are those the default pattern matches
    in the project directory. *)
Theorem format_default_pattern (f : Formatter) (argv : Argv.t) :
  Argv.actions argv = None \/ Argv.actions argv = Some [] ->
  formatFilenames f argv
  = glob_sync f "{definitions,includes}/**/*.{js,sqlx}" (Argv.projectDir argv).
Proof.
  intros Hactions. unfold formatFilenames, formatActions, Js.flat.
  destruct Hactions as [-> | ->]; cbn [map List.concat defaultFormatActions];
    apply app_nil_r.
Qed.

Lemma format_default_pattern_witness :
  Argv.actions SampleFiles.noPatterns = Some []
  /\ formatFilenames SampleFiles.writable SampleFiles.noPatterns
     = glob_sync SampleFiles.writable "{definitions,includes}/**/*.{js,sqlx}"
         (Argv.projectDir SampleFiles.noPatterns).
Proof.
  split; [reflexivity|]. apply format_default_pattern. right. reflexivity.
Defined.

(** ** The handler of failures *)

Section FirstLine.

Variable sep : ascii.

(** The first piece of a split string is that string up to its first
    separator. *)
Lemma hd_split (s : string) :
  exists rest,
    s = (hd EmptyString (Js.split sep s) ++ rest)%string
    /\ (rest = EmptyString \/ exists rest', rest = String sep rest').
Proof.
  induction s as [|ch s (rest & Hs & Hrest)].
  - exists EmptyString. split; [reflexivity|now left].
  - cbn [Js.split]. destruct (Ascii.eqb ch sep) eqn:Hch.
    + apply Ascii.eqb_eq in Hch as ->. exists (String sep s).
      split; [reflexivity|right; now exists s].
    + pose proof (split_nonempty sep s) as Hne.
      destruct (Js.split sep s) as [|piece pieces]; [contradiction|].
      cbn [hd] in *. exists rest. split; [|assumption].
      change (String ch s = String ch (piece ++ rest))%string. now rewrite <- Hs.
Qed.

Lemma hd_split_free (s : string) :
  Js.free_of sep (hd EmptyString (Js.split sep s)) = true.
Proof.
  pose proof (split_pieces_free sep s) as Hfree.
  destruct (Js.split sep s) as [|piece pieces]; [reflexivity|].
  cbn [forallb hd] in *. now apply andb_true_iff in Hfree as [? _].
Qed.

End FirstLine.

(** X27 — whatever the failure, the handler prints one or two error lines
    and nothing else, and then exits with code 1. *)
Theorem fail_exits_with_1 (msg : string) (err : option Failure.t) :
  exists errors,
    fail msg err = (map out_printError errors ++ [out_exit 1])%list
    /\ (1 <= length errors <= 2)%nat.
Proof.
  unfold fail.
  destruct (match err with
            | Some e => String.eqb (Failure.name e) "VMError"
                        && includes "Cannot find module" (Failure.message e)
            | None => false
            end).
  - eexists [_]. split; [reflexivity|cbn; lia].
  - destruct err as [e|].
    + destruct (Failure.stack e) as [stack|].
      * destruct (Js.truthy_string (Some stack)).
        -- eexists [_; _]. split; [reflexivity|cbn; lia].
        -- eexists [_]. split; [reflexivity|cbn; lia].
      * eexists [_]. split; [reflexivity|cbn; lia].
    + eexists [_]. split; [reflexivity|cbn; lia].
Qed.

(** X28 — a failure named [VMError] whose message mentions a module that
    cannot be found prints only the hint to install the dependencies.  Any
    other failure prints a headline that ends with the first line of the
    message of the error, the text before its first line break, and with
    the message of yargs when there is no error or its message is empty. *)
Theorem fail_headline (msg : string) (err : option Failure.t) :
  (forall e,
     err = Some e ->
     Failure.name e = "VMError" ->
     includes "Cannot find module" (Failure.message e) = true ->
     fail msg err
     = [out_printError
          "Could not find NPM dependencies. Have you run 'dataform install'?";
        out_exit 1])
  /\ (forall e,
        err = Some e ->
        Failure.name e <> "VMError"
        \/ includes "Cannot find module" (Failure.message e) = false ->
        Failure.message e <> EmptyString ->
        exists line rest,
          hd_error (fail msg err)
          = Some (out_printError ("Dataform encountered an error: " ++ line))
          /\ Failure.message e = (line ++ rest)%string
          /\ Js.free_of (ascii_of_nat 10) line = true
          /\ (rest = EmptyString
              \/ exists rest', rest = String (ascii_of_nat 10) rest'))
  /\ (err = None
      \/ (exists e, err = Some e /\ Failure.message e = EmptyString) ->
      hd_error (fail msg err)
      = Some (out_printError ("Dataform encountered an error: " ++ msg))).
Proof.
  split; [|split].
  - intros e -> Hname Hmessage. unfold fail.
    rewrite Hname, Hmessage. reflexivity.
  - intros e -> Hother Hmessage. unfold fail.
    assert (String.eqb (Failure.name e) "VMError"
            && includes "Cannot find module" (Failure.message e) = false) as ->.
    { destruct Hother as [Hname|Hincludes].
      - apply String.eqb_neq in Hname. now rewrite Hname.
      - rewrite Hincludes. apply andb_false_r. }
    assert (Js.truthy_string (Some (Failure.message e)) = true) as ->
      by (now destruct (Failure.message e)).
    destruct (hd_split (ascii_of_nat 10) (Failure.message e)) as (rest & Hsplit & Hrest).
    exists (hd EmptyString (Js.split (ascii_of_nat 10) (Failure.message e))), rest.
    split; [reflexivity|]. split; [exact Hsplit|]. split; [apply hd_split_free|].
    exact Hrest.
  - intros [-> | (e & -> & Hmessage)]; unfold fail.
    + reflexivity.
    + rewrite Hmessage. cbn [includes String.prefix orb Js.truthy_string].
      rewrite andb_false_r. reflexivity.
Qed.

(** ** The [init-creds] command *)

(** X29 — [init-creds] writes the credentials file exactly when it returns
    0, and then once: at the credentials file name inside the project
    directory, with the credentials it obtained, and, when the connection
    is to be tested, only after the test succeeded.  It returns no other
    code; when the test times out or fails, it throws and writes
    nothing. *)
Theorem init_creds_writes (s : CredentialsSetup) (c : Collaborators)
    (argv : Argv.t) (testConnection : bool)
    (r : Completion (option Z)) (t : list Output) :
  initCreds_processFn s c argv testConnection = (r, t) ->
  (r = Returned (Some 0) <-> existsb is_writeFileSync t = true)
  /\ (forall code, r = Returned code -> code = Some 0)
  /\ (length (List.filter is_writeFileSync t) <= 1)%nat
  /\ (forall path content,
        In (out_writeFileSync path content) t ->
        exists finalCredentials,
          getBigQueryCredentials s = Returned finalCredentials
          /\ path = path_resolve c (Argv.projectDir argv) (CREDENTIALS_FILENAME s)
          /\ content = prettyJsonStringify s finalCredentials
          /\ (testConnection = true ->
              CredentialsTest.status
                (credentials_test s {| adapter_credentials := finalCredentials |})
              = CredentialsTest.SUCCESSFUL)).
Proof.
  unfold initCreds_processFn, writeCredentials.
  destruct (getBigQueryCredentials s) as [finalCredentials|e].
  - destruct testConnection.
    + destruct (CredentialsTest.status _) eqn:Hstatus; intros [= <- <-].
      * split; [split; reflexivity|]. split; [now intros code [= <-]|].
        split; [cbn; lia|].
        intros path content Hin. cbn in Hin.
        destruct Hin as [H|[H|[H|[H|[H|[]]]]]]; try discriminate.
        injection H as <- <-. exists finalCredentials. now repeat split.
      * split; [split; discriminate|]. split; [discriminate|].
        split; [cbn; lia|].
        intros path content Hin. cbn in Hin.
        destruct Hin as [H|[H|[]]]; discriminate.
      * split; [split; discriminate|]. split; [discriminate|].
        split; [cbn; lia|].
        intros path content Hin. cbn in Hin.
        destruct Hin as [H|[H|[]]]; discriminate.
    + intros [= <- <-].
      split; [split; reflexivity|]. split; [now intros code [= <-]|].
      split; [cbn; lia|].
      intros path content Hin. cbn in Hin.
      destruct Hin as [H|[H|[H|[]]]]; try discriminate.
      injection H as <- <-. exists finalCredentials. repeat split. discriminate.
  - intros [= <- <-].
    split; [split; discriminate|]. split; [discriminate|].
    split; [cbn; lia|]. intros path content [].
Qed.

Lemma init_creds_writes_witness :
  fst (initCreds_processFn SampleFiles.passing Sample.succeeding Sample.plain true)
  = Returned (Some 0)
  /\ existsb is_writeFileSync
       (snd (initCreds_processFn SampleFiles.passing Sample.succeeding Sample.plain true))
     = true.
Proof.
  assert (H : initCreds_processFn SampleFiles.passing Sample.succeeding Sample.plain true
              = (fst (initCreds_processFn SampleFiles.passing Sample.succeeding
                        Sample.plain true),
                 snd (initCreds_processFn SampleFiles.passing Sample.succeeding
                        Sample.plain true)))
    by apply surjective_pairing.
  assert (Hcode : fst (initCreds_processFn SampleFiles.passing Sample.succeeding
                         Sample.plain true) = Returned (Some 0))
    by (vm_compute; reflexivity).
  split; [exact Hcode|].
  apply (proj1 (proj1 (init_creds_writes _ _ _ _ _ _ H))). exact Hcode.
Defined.

(** X30 — [init-creds] runs the test query only when the connection is to
    be tested, and then once, first of all after announcing it, and on an
    adapter made of the credentials it obtained; when the test query times
    out or fails, the command throws. *)
Theorem init_creds_tests_connection (s : CredentialsSetup) (c : Collaborators)
    (argv : Argv.t) (testConnection : bool)
    (r : Completion (option Z)) (t : list Output) :
  initCreds_processFn s c argv testConnection = (r, t) ->
  (testConnection = false -> existsb is_call_credentials_test t = false)
  /\ (forall finalCredentials,
        testConnection = true ->
        getBigQueryCredentials s = Returned finalCredentials ->
        let dbadapter := {| adapter_credentials := finalCredentials |} in
        (exists rest,
           t = (out_print (Js.newline ++ "Running connection test...")
                :: out_call_credentials_test dbadapter :: rest)%list
           /\ existsb is_call_credentials_test rest = false)
        /\ (CredentialsTest.status (credentials_test s dbadapter)
            <> CredentialsTest.SUCCESSFUL ->
            exists e, r = Thrown e)).
Proof.
  unfold initCreds_processFn, writeCredentials.
  destruct (getBigQueryCredentials s) as [credentials|e].
  - destruct testConnection.
    + destruct (CredentialsTest.status _) eqn:Hstatus; intros [= <- <-];
        (split; [discriminate|]); intros finalCredentials _ Hobtained;
        injection Hobtained as <-; cbn zeta; rewrite Hstatus.
      * split; [eexists; split; reflexivity|]. intros H. now contradiction H.
      * split; [eexists; split; reflexivity|]. intros _. eauto.
      * split; [eexists; split; reflexivity|]. intros _. eauto.
    + intros [= <- <-]. split; [reflexivity|]. discriminate.
  - intros [= <- <-]. split; [reflexivity|]. discriminate.
Qed.

Lemma init_creds_tests_connection_witness :
  exists e,
    fst (initCreds_processFn SampleFiles.timingOut Sample.succeeding Sample.plain true)
    = Thrown e.
Proof.
  assert (H : initCreds_processFn SampleFiles.timingOut Sample.succeeding
                Sample.plain true
              = (fst (initCreds_processFn SampleFiles.timingOut Sample.succeeding
                        Sample.plain true),
                 snd (initCreds_processFn SampleFiles.timingOut Sample.succeeding
                        Sample.plain true)))
    by apply surjective_pairing.
  refine (proj2 (proj2 (init_creds_tests_connection _ _ _ _ _ _ H)
                   Sample.storedCredentials eq_refl eq_refl) _).
  vm_compute. discriminate.
Defined.

(** * The [run] command from end to end *)

(** Every report of a sequence of callbacks is the report of an action
    that is not RUNNING in one of the snapshots. *)
Lemma onChange_callbacks_sources (c : Collaborators)
    (executionGraph : ExecutionGraph.t) (dryRun : option bool)
    (changes : list RunResult.t) :
  forall already printed t,
    onChange_callbacks c executionGraph dryRun already changes = (Returned printed, t) ->
    forall e, In e t ->
      exists executedGraph a,
        In executedGraph changes
        /\ In a (RunResult.actions executedGraph)
        /\ ActionResult.status a <> RUNNING
        /\ e = printExecutedAction a
                 (actionsByName c executionGraph !! actionResultName c a) dryRun.
Proof.
  induction changes as [|executedGraph later IH]; intros already printed t.
  - intros [= <- <-] e [].
  - cbn [onChange_callbacks]. rewrite printExecutedGraph_eq.
    destruct (onChange_callbacks_names c executionGraph dryRun later
                (already ∪ list_to_set
                             (map (actionResultName c)
                                (actionsToPrint c already executedGraph))))
      as (printed' & t' & Hlater & _).
    unfold bind. rewrite Hlater. intros [= <- <-] e Hin.
    apply in_app_or in Hin as [Hin|Hin].
    + apply in_map_iff in Hin as (a & <- & Ha).
      apply actionsToPrint_spec in Ha as (Ha & Hstatus & _).
      exists executedGraph, a. split; [now left|]. now repeat split.
    + destruct (IH _ _ _ Hlater e Hin) as (g & a & Hg & Ha & Hstatus & ->).
      exists g, a. split; [now right|]. now repeat split.
Qed.

Section EndToEnd.

Variable c : Collaborators.
Variable argv : Argv.t.

Lemma buildPrefix_calls_no_runner compiledGraph dbadapter :
  existsb is_call_run (buildPrefix c argv compiledGraph dbadapter) = false
  /\ existsb is_printExecutedAction (buildPrefix c argv compiledGraph dbadapter)
     = false.
Proof.
  unfold buildPrefix, compilingLine, compiledLine. now destruct (Argv.json argv).
Qed.

(** With an empty graph there is nothing to run. *)
Lemma run_dispatch_empty dbadapter executionGraph :
  ExecutionGraph.actions executionGraph = [] ->
  run_dispatch c argv dbadapter executionGraph
  = (Returned (Some 0), [print no_actions_message]).
Proof.
  intros Hempty. unfold run_dispatch. rewrite actionsByName_size, Hempty.
  reflexivity.
Qed.

(** With a graph that is not empty the runner is called, its snapshots are
    reported as they come, and its result is awaited and reported: the
    reports are those of actions that are not RUNNING in a snapshot or in
    the result, and every such action of the result is among them. *)
Lemma run_dispatch_completed dbadapter executionGraph runResult :
  ExecutionGraph.actions executionGraph <> [] ->
  Runner.result (run c dbadapter executionGraph (bigqueryOptions argv))
  = Returned runResult ->
  exists before after,
    run_dispatch c argv dbadapter executionGraph
    = (Returned (Some (if ExecutionStatus_eqb (RunResult.status runResult) SUCCESSFUL
                       then 0 else 1)),
       [startLine argv; call_run dbadapter executionGraph (bigqueryOptions argv);
        on_SIGINT; runner_onChange]
       ++ before ++ [await_result runResult] ++ after)%list
    /\ (forall e, In e (before ++ after)%list ->
          exists executedGraph a,
            (In executedGraph
               (Runner.changes (run c dbadapter executionGraph (bigqueryOptions argv)))
             \/ executedGraph = runResult)
            /\ In a (RunResult.actions executedGraph)
            /\ ActionResult.status a <> RUNNING
            /\ e = printExecutedAction a
                     (actionsByName c executionGraph !! actionResultName c a)
                     (Argv.dryRun argv))
    /\ (forall a, In a (RunResult.actions runResult) ->
          ActionResult.status a <> RUNNING ->
          actionResultName c a ∈ printedNames c (before ++ after)%list).
Proof.
  intros Hne Hresult.
  destruct (run_dispatch_trace c argv dbadapter executionGraph Hne)
    as (printed & changes & Hchanges & Hrun).
  rewrite Hresult in Hrun.
  destruct (onChange_callbacks_names c executionGraph (Argv.dryRun argv)
              (Runner.changes (run c dbadapter executionGraph (bigqueryOptions argv)))
              ∅)
    as (printed' & changes' & Hchanges' & Hset & _).
  rewrite Hchanges in Hchanges'. injection Hchanges' as <- <-.
  exists changes,
    (map (fun a => printExecutedAction a
                     (actionsByName c executionGraph !! actionResultName c a)
                     (Argv.dryRun argv))
         (actionsToPrint c printed runResult)).
  split; [exact Hrun|]. split.
  - intros e Hin. apply in_app_or in Hin as [Hin|Hin].
    + destruct (onChange_callbacks_sources _ _ _ _ _ _ _ Hchanges e Hin)
        as (g & a & Hg & Ha & Hstatus & ->).
      exists g, a. split; [now left|]. now repeat split.
    + apply in_map_iff in Hin as (a & <- & Ha).
      apply actionsToPrint_spec in Ha as (Ha & Hstatus & _).
      exists runResult, a. split; [now right|]. now repeat split.
  - intros a Hin Hstatus.
    rewrite printedNames_app, printedNames_reports. apply elem_of_app.
    destruct (decide (actionResultName c a ∈ printed)) as [Hheld|Hnew].
    + left. rewrite Hset in Hheld. apply elem_of_union in Hheld as [Hheld|Hheld].
      * set_solver.
      * now apply elem_of_list_to_set in Hheld.
    + right. apply list_elem_of_fmap. exists a. split; [reflexivity|].
      apply list_elem_of_In, actionsToPrint_spec. tauto.
Qed.

Lemma run_dispatch_threw dbadapter executionGraph e :
  ExecutionGraph.actions executionGraph <> [] ->
  Runner.result (run c dbadapter executionGraph (bigqueryOptions argv)) = Thrown e ->
  fst (run_dispatch c argv dbadapter executionGraph) = Thrown e
  /\ In (call_run dbadapter executionGraph (bigqueryOptions argv))
       (snd (run_dispatch c argv dbadapter executionGraph)).
Proof.
  intros Hne Hresult.
  destruct (run_dispatch_trace c argv dbadapter executionGraph Hne)
    as (printed & changes & _ & Hrun).
  rewrite Hresult in Hrun. rewrite Hrun. cbn [fst snd]. split; [reflexivity|].
  right. now left.
Qed.

Variable compiledGraph : CompiledGraph.t.
Variable readCredentials : Credentials.t.
Variable executionGraph : ExecutionGraph.t.

Hypothesis Hjson : Argv.json argv = false.
Hypothesis Hcompile : compile c (compileOptions argv) = Returned compiledGraph.
Hypothesis Herrors : compiledGraphHasErrors compiledGraph = false.
Hypothesis Hcredentials :
  credentials_read c (credentialsPath c argv) = Returned readCredentials.
Hypothesis Hbuild :
  build c compiledGraph (runConfig argv) {| adapter_credentials := readCredentials |}
  = Returned executionGraph.

(** Without [--json], once the graph is built the command goes on to the
    unit-test gate. *)
Lemma run_processFn_built :
  run_processFn c argv
  = (fst (run_after_build c argv compiledGraph
            {| adapter_credentials := readCredentials |} executionGraph),
     (buildPrefix c argv compiledGraph {| adapter_credentials := readCredentials |}
      ++ snd (run_after_build c argv compiledGraph
                {| adapter_credentials := readCredentials |} executionGraph))%list).
Proof.
  unfold run_processFn. rewrite Hjson. cbn [andb negb when].
  fold (credentialsPath c argv). unfold bind, call, emit, ret.
  rewrite Hcompile, Herrors, Hcredentials, Hbuild, andb_false_r.
  destruct (run_after_build c argv compiledGraph
              {| adapter_credentials := readCredentials |} executionGraph) as [r t].
  cbn [fst snd]. unfold buildPrefix, compilingLine, compiledLine. rewrite Hjson.
  reflexivity.
Qed.

(** A failed unit test ends the command with code 1. *)
Lemma run_processFn_tests_failed (testResults : list TestResult.t) :
  Js.truthy_bool (Argv.runTests argv) = true ->
  test c {| adapter_credentials := readCredentials |} (CompiledGraph.tests compiledGraph)
  = Returned testResults ->
  existsb (fun testResult => negb (TestResult.successful testResult)) testResults
  = true ->
  fst (run_processFn c argv) = Returned (Some 1)
  /\ existsb is_call_run (snd (run_processFn c argv)) = false.
Proof.
  intros Htests Htest Hfailed. rewrite run_processFn_built.
  unfold run_after_build. rewrite Htests.
  unfold bind, emit, call, forEach, ret. rewrite Htest, Hfailed. cbn [fst snd].
  split; [reflexivity|].
  rewrite !existsb_app, (proj1 (buildPrefix_calls_no_runner _ _)).
  now rewrite existsb_map_never.
Qed.

(** When the unit tests are not asked for, or all pass, the command goes
    on to the runner; what the gate leaves in the trace calls no runner
    and reports no action. *)
Lemma run_processFn_gate_passed :
  Js.truthy_bool (Argv.runTests argv) = false
  \/ (exists testResults,
         test c {| adapter_credentials := readCredentials |}
           (CompiledGraph.tests compiledGraph) = Returned testResults
         /\ existsb (fun testResult => negb (TestResult.successful testResult))
              testResults = false) ->
  exists before,
    run_processFn c argv
    = (fst (run_dispatch c argv {| adapter_credentials := readCredentials |}
              executionGraph),
       (before
        ++ snd (run_dispatch c argv {| adapter_credentials := readCredentials |}
                  executionGraph))%list)
    /\ existsb is_call_run before = false
    /\ existsb is_printExecutedAction before = false.
Proof.
  intros Hgate. rewrite run_processFn_built. unfold run_after_build.
  destruct (buildPrefix_calls_no_runner compiledGraph
              {| adapter_credentials := readCredentials |}) as [Hcalls Hreports].
  destruct (Js.truthy_bool (Argv.runTests argv)) eqn:Htests.
  - destruct Hgate as [Hgate|(testResults & Htest & Hpassed)]; [discriminate|].
    unfold bind, emit, call, forEach, ret. rewrite Htest, Hpassed.
    destruct (run_dispatch c argv {| adapter_credentials := readCredentials |}
                executionGraph) as [r t].
    cbn [fst snd].
    exists (buildPrefix c argv compiledGraph {| adapter_credentials := readCredentials |}
            ++ [testsLine compiledGraph;
                call_test {| adapter_credentials := readCredentials |}
                  (CompiledGraph.tests compiledGraph)]
            ++ map printTestResult testResults
            ++ [printSuccess ("Unit tests completed successfully." ++ Js.newline)])%list.
    split; [|split].
    + f_equal. unfold testsLine.
      repeat (rewrite <- app_assoc || rewrite <- app_comm_cons); cbn [app].
      reflexivity.
    + rewrite !existsb_app, Hcalls. now rewrite existsb_map_never.
    + rewrite !existsb_app, Hreports. now rewrite existsb_map_never.
  - exists (buildPrefix c argv compiledGraph {| adapter_credentials := readCredentials |}).
    now repeat split.
Qed.

End EndToEnd.

(** C1 — the code returned by [run].  Without [--json], dry run or not,
    once the project has compiled without errors, the credentials are read
    and the graph is built: a failed unit test (under [--run-tests]) gives
    1 without the runner being called, whatever the graph; otherwise an
    empty graph gives 0 without the runner being called, and for any other
    graph the runner is called with it and the code is 0 when the overall
    status of the awaited [RunResult] is SUCCESSFUL and 1 otherwise, an
    exception of the runner being passed on.  With [--json] the command
    never returns 0.  In every invocation that returns: a result that was
    awaited decides the code; "No actions to run." comes with 0; a printed
    execution graph comes with no code; 0 is returned in no other case, and
    every code returned is 0 or 1. *)
Theorem run_exit_code (c : Collaborators) (argv : Argv.t) :
  (forall code t,
      run_processFn c argv = (Returned code, t) ->
      (forall runResult, In (await_result runResult) t ->
         code = Some (if ExecutionStatus_eqb (RunResult.status runResult) SUCCESSFUL
                      then 0 else 1))
      /\ (In (print no_actions_message) t -> code = Some 0)
      /\ (forall executionGraph asJson,
            In (printExecutionGraph executionGraph asJson) t -> code = None)
      /\ (code = Some 0 ->
          (exists runResult,
              In (await_result runResult) t
              /\ RunResult.status runResult = SUCCESSFUL)
          \/ In (print no_actions_message) t)
      /\ (code = None \/ code = Some 0 \/ code = Some 1))
  /\ (Argv.json argv = true -> fst (run_processFn c argv) <> Returned (Some 0))
  /\ (forall compiledGraph readCredentials executionGraph,
        let dbadapter := {| adapter_credentials := readCredentials |} in
        let runner := run c dbadapter executionGraph (bigqueryOptions argv) in
        Argv.json argv = false ->
        compile c (compileOptions argv) = Returned compiledGraph ->
        compiledGraphHasErrors compiledGraph = false ->
        credentials_read c (credentialsPath c argv) = Returned readCredentials ->
        build c compiledGraph (runConfig argv) dbadapter = Returned executionGraph ->
        (forall testResults,
            Js.truthy_bool (Argv.runTests argv) = true ->
            test c dbadapter (CompiledGraph.tests compiledGraph) = Returned testResults ->
            existsb (fun testResult => negb (TestResult.successful testResult))
              testResults = true ->
            fst (run_processFn c argv) = Returned (Some 1)
            /\ existsb is_call_run (snd (run_processFn c argv)) = false)
        /\ (Js.truthy_bool (Argv.runTests argv) = false
            \/ (exists testResults,
                   test c dbadapter (CompiledGraph.tests compiledGraph)
                   = Returned testResults
                   /\ existsb (fun testResult => negb (TestResult.successful testResult))
                        testResults = false) ->
            (ExecutionGraph.actions executionGraph = [] ->
             fst (run_processFn c argv) = Returned (Some 0)
             /\ existsb is_call_run (snd (run_processFn c argv)) = false)
            /\ (ExecutionGraph.actions executionGraph <> [] ->
                In (call_run dbadapter executionGraph (bigqueryOptions argv))
                   (snd (run_processFn c argv))
                /\ (forall runResult,
                      Runner.result runner = Returned runResult ->
                      fst (run_processFn c argv)
                      = Returned
                          (Some (if ExecutionStatus_eqb (RunResult.status runResult)
                                      SUCCESSFUL then 0 else 1))
                      /\ In (await_result runResult) (snd (run_processFn c argv)))
                /\ (forall e,
                      Runner.result runner = Thrown e ->
                      fst (run_processFn c argv) = Thrown e)))).
Proof.
  split; [|split].
  - intros code t Hrun. pose proof (run_processFn_path c argv) as Hpath.
    rewrite Hrun in Hpath. cbn [fst snd] in Hpath.
    destruct (run_path_exit_code c argv _ _ Hpath)
      as (Hawait & Hnone & Hgraph & Hzero & Hcodes).
    repeat split.
    + intros runResult Hin. specialize (Hawait runResult Hin). congruence.
    + intros Hin. specialize (Hnone Hin). congruence.
    + intros g j Hin. specialize (Hgraph g j Hin). congruence.
    + intros ->. now apply Hzero.
    + now apply Hcodes.
  - intros Hjson. pose proof (run_processFn_path c argv) as Hpath.
    destruct (run_processFn c argv) as [r t]. cbn [fst snd] in *.
    destruct Hpath as [Hguard | e Hguard Hcompile
                      | compiledGraph Hguard Hcompile Herrors
                      | compiledGraph e Hguard Hcompile Herrors Hcredentials
                      | compiledGraph readCredentials e Hguard Hcompile Herrors
                          Hcredentials Hbuild
                      | compiledGraph readCredentials executionGraph Hguard Hcompile
                          Herrors Hcredentials Hbuild Hdry
                      | compiledGraph readCredentials executionGraph r t Hguard
                          Hcompile Herrors Hcredentials Hbuild Hdry Hafter];
      try discriminate.
    rewrite Hjson in Hguard, Hdry.
    destruct (Js.truthy_bool (Argv.dryRun argv)); discriminate.
  - intros compiledGraph readCredentials executionGraph dbadapter runner
           Hjson Hcompile Herrors Hcredentials Hbuild.
    subst dbadapter runner. split.
    + intros testResults Htests Htest Hfailed.
      now apply (run_processFn_tests_failed c argv compiledGraph readCredentials
                   executionGraph Hjson Hcompile Herrors Hcredentials Hbuild
                   testResults).
    + intros Hgate.
      destruct (run_processFn_gate_passed c argv compiledGraph readCredentials
                  executionGraph Hjson Hcompile Herrors Hcredentials Hbuild Hgate)
        as (before & -> & Hcalls & _).
      cbn [fst snd]. split.
      * intros Hempty. rewrite (run_dispatch_empty c argv _ _ Hempty).
        cbn [fst snd]. split; [reflexivity|].
        now rewrite existsb_app, Hcalls.
      * intros Hne. split; [|split].
        -- apply in_or_app. right.
           destruct (Runner.result
                       (run c {| adapter_credentials := readCredentials |}
                          executionGraph (bigqueryOptions argv)))
             as [runResult|e] eqn:Hresult.
           ++ destruct (run_dispatch_completed c argv _ executionGraph
                          runResult Hne Hresult) as (b & a & -> & _).
              cbn [snd]. right. now left.
           ++ now apply (run_dispatch_threw c argv _ executionGraph e).
        -- intros runResult Hresult.
           destruct (run_dispatch_completed c argv _ executionGraph
                       runResult Hne Hresult) as (b & a & -> & _).
           cbn [fst snd]. split; [reflexivity|].
           apply in_or_app. right. apply in_or_app. right.
           apply in_or_app. right. now left.
        -- intros e Hresult.
           now apply (run_dispatch_threw c argv _ executionGraph e).
Qed.

Lemma run_exit_code_witness :
  fst (run_processFn Sample.succeeding Sample.plain) = Returned (Some 0)
  /\ In (call_run Sample.adapter Sample.graph (bigqueryOptions Sample.plain))
       (snd (run_processFn Sample.succeeding Sample.plain))
  /\ fst (run_processFn Sample.failing Sample.plain) = Returned (Some 1).
Proof.
  assert (Hne : ExecutionGraph.actions Sample.graph <> []) by discriminate.
  destruct (run_exit_code Sample.succeeding Sample.plain) as (_ & _ & Hrun).
  destruct (Hrun Sample.compiled Sample.storedCredentials Sample.graph
              eq_refl eq_refl eq_refl eq_refl eq_refl) as (_ & Hpassed).
  destruct (Hpassed (or_introl eq_refl)) as (_ & Hruns).
  destruct (Hruns Hne) as (Hcall & Hresult & _).
  split; [exact (proj1 (Hresult (Sample.resultOf SUCCESSFUL) eq_refl))|].
  split; [exact Hcall|].
  destruct (run_exit_code Sample.failing Sample.plain) as (_ & _ & Hrun').
  destruct (Hrun' Sample.compiled Sample.storedCredentials Sample.graph
              eq_refl eq_refl eq_refl eq_refl eq_refl) as (_ & Hpassed').
  destruct (Hpassed' (or_introl eq_refl)) as (_ & Hruns').
  destruct (Hruns' Hne) as (_ & Hresult' & _).
  exact (proj1 (Hresult' (Sample.resultOf FAILED) eq_refl)).
Defined.

(** C2 — for every dry run with [--json], neither the unit tests nor the
    runner are called and, once the project has compiled without errors and
    [build] has returned, the execution graph is printed exactly as [build]
    returned it, as the last event, and the command returns without a run
    result.  A dry run without [--json] never prints the execution graph.
    Once the project has compiled without errors, the graph is built and is
    not empty, and the unit tests, if asked for, have passed, it calls the
    runner on the graph that [build] returned with [dryRun: true] in the
    BigQuery options, and when the runner's result arrives it awaits it
    and reports it: every action of the result that is not RUNNING is
    reported, and every report made is that of an action that is not
    RUNNING in a snapshot of the runner or in its result, with the dry-run
    flag.  The runner is never called in any other way. *)
Theorem dry_run_output (c : Collaborators) (argv : Argv.t) :
  Js.truthy_bool (Argv.dryRun argv) = true ->
  (Argv.json argv = true ->
   existsb is_dispatch (snd (run_processFn c argv)) = false
   /\ existsb is_await_result (snd (run_processFn c argv)) = false
   /\ forall compiledGraph readCredentials executionGraph,
        compile c (compileOptions argv) = Returned compiledGraph ->
        compiledGraphHasErrors compiledGraph = false ->
        credentials_read c (credentialsPath c argv) = Returned readCredentials ->
        build c compiledGraph (runConfig argv)
          {| adapter_credentials := readCredentials |} = Returned executionGraph ->
        run_processFn c argv
        = (Returned None,
           [call_compile (compileOptions argv);
            call_credentials_read (credentialsPath c argv);
            call_build compiledGraph (runConfig argv)
              {| adapter_credentials := readCredentials |};
            printExecutionGraph executionGraph true]))
  /\ (Argv.json argv = false ->
      existsb is_printExecutionGraph (snd (run_processFn c argv)) = false)
  /\ (forall dbadapter executionGraph options,
        In (call_run dbadapter executionGraph options) (snd (run_processFn c argv)) ->
        BigqueryOptions.dryRun options = Some true
        /\ exists compiledGraph,
             compile c (compileOptions argv) = Returned compiledGraph
             /\ build c compiledGraph (runConfig argv) dbadapter
                = Returned executionGraph)
  /\ (Argv.json argv = false ->
      forall compiledGraph readCredentials executionGraph,
        let dbadapter := {| adapter_credentials := readCredentials |} in
        let runner := run c dbadapter executionGraph (bigqueryOptions argv) in
        compile c (compileOptions argv) = Returned compiledGraph ->
        compiledGraphHasErrors compiledGraph = false ->
        credentials_read c (credentialsPath c argv) = Returned readCredentials ->
        build c compiledGraph (runConfig argv) dbadapter = Returned executionGraph ->
        Js.truthy_bool (Argv.runTests argv) = false
        \/ (exists testResults,
               test c dbadapter (CompiledGraph.tests compiledGraph)
               = Returned testResults
               /\ existsb (fun testResult => negb (TestResult.successful testResult))
                    testResults = false) ->
        ExecutionGraph.actions executionGraph <> [] ->
        In (call_run dbadapter executionGraph (bigqueryOptions argv))
           (snd (run_processFn c argv))
        /\ BigqueryOptions.dryRun (bigqueryOptions argv) = Some true
        /\ forall runResult,
             Runner.result runner = Returned runResult ->
             In (await_result runResult) (snd (run_processFn c argv))
             /\ (forall a,
                   In a (RunResult.actions runResult) ->
                   ActionResult.status a <> RUNNING ->
                   actionResultName c a ∈ printedNames c (snd (run_processFn c argv)))
             /\ (forall executedAction executionAction dryRun,
                   In (printExecutedAction executedAction executionAction dryRun)
                      (snd (run_processFn c argv)) ->
                   dryRun = Some true
                   /\ ActionResult.status executedAction <> RUNNING
                   /\ exists executedGraph,
                        (In executedGraph (Runner.changes runner)
                         \/ executedGraph = runResult)
                        /\ In executedAction (RunResult.actions executedGraph))).
Proof.
  intros Hdry. pose proof (run_processFn_path c argv) as Hpath.
  split; [|split; [|split]].
  - intros Hjson. split; [|split].
    + destruct (run_processFn c argv) as [r t]. cbn [fst snd] in *.
      destruct Hpath as [Hguard | e Hguard Hcompile
                        | compiledGraph Hguard Hcompile Herrors
                        | compiledGraph e Hguard Hcompile Herrors Hcredentials
                        | compiledGraph readCredentials e Hguard Hcompile Herrors
                            Hcredentials Hbuild
                        | compiledGraph readCredentials executionGraph Hguard Hcompile
                            Herrors Hcredentials Hbuild Hdry'
                        | compiledGraph readCredentials executionGraph r t Hguard
                            Hcompile Herrors Hcredentials Hbuild Hdry' Hafter];
        try reflexivity;
        try (unfold buildPrefix, compilingLine, compiledLine; rewrite Hjson;
             reflexivity).
      rewrite Hdry, Hjson in Hdry'. discriminate.
    + destruct (run_processFn c argv) as [r t]. cbn [fst snd] in *.
      destruct Hpath as [Hguard | e Hguard Hcompile
                        | compiledGraph Hguard Hcompile Herrors
                        | compiledGraph e Hguard Hcompile Herrors Hcredentials
                        | compiledGraph readCredentials e Hguard Hcompile Herrors
                            Hcredentials Hbuild
                        | compiledGraph readCredentials executionGraph Hguard Hcompile
                            Herrors Hcredentials Hbuild Hdry'
                        | compiledGraph readCredentials executionGraph r t Hguard
                            Hcompile Herrors Hcredentials Hbuild Hdry' Hafter];
        try reflexivity;
        try (unfold buildPrefix, compilingLine, compiledLine; rewrite Hjson;
             reflexivity).
      rewrite Hdry, Hjson in Hdry'. discriminate.
    + intros compiledGraph readCredentials executionGraph
             Hcompile Herrors Hcredentials Hbuild.
      unfold run_processFn, bind, call, emit, ret, when.
      fold (credentialsPath c argv).
      rewrite Hdry, Hjson. cbn [negb andb].
      now rewrite Hcompile, Herrors, Hcredentials, Hbuild.
  - intros Hjson.
    destruct (run_processFn c argv) as [r t]. cbn [fst snd] in *.
    destruct Hpath as [Hguard | e Hguard Hcompile
                      | compiledGraph Hguard Hcompile Herrors
                      | compiledGraph e Hguard Hcompile Herrors Hcredentials
                      | compiledGraph readCredentials e Hguard Hcompile Herrors
                          Hcredentials Hbuild
                      | compiledGraph readCredentials executionGraph Hguard Hcompile
                          Herrors Hcredentials Hbuild Hdry'
                      | compiledGraph readCredentials executionGraph r t Hguard
                          Hcompile Herrors Hcredentials Hbuild Hdry' Hafter];
      try reflexivity;
      try (unfold buildPrefix, compilingLine, compiledLine; rewrite Hjson;
           reflexivity).
    + rewrite Hdry, Hjson in Hdry'. discriminate.
    + rewrite existsb_app, (after_build_never_prints_graph _ _ _ _ _ _ _ Hafter).
      unfold buildPrefix, compilingLine, compiledLine. now rewrite Hjson.
  - intros dbadapter executionGraph options Hin.
    destruct (run_processFn c argv) as [r t]. cbn [fst snd] in *.
    destruct (run_path_calls_runner c argv r t _ _ _ Hpath Hin) as (-> & Hbuilt).
    split; [|exact Hbuilt].
    rewrite (proj2 (bigqueryOptions_fields argv)). now rewrite Hdry.
  - clear Hpath.
    intros Hjson compiledGraph readCredentials executionGraph dbadapter runner
           Hcompile Herrors Hcredentials Hbuild Hgate Hne.
    subst dbadapter runner.
    destruct (run_processFn_gate_passed c argv compiledGraph readCredentials
                executionGraph Hjson Hcompile Herrors Hcredentials Hbuild Hgate)
      as (before & -> & _ & Hquiet).
    cbn [snd]. split; [|split].
    + apply in_or_app. right.
      destruct (Runner.result
                  (run c {| adapter_credentials := readCredentials |}
                     executionGraph (bigqueryOptions argv)))
        as [runResult|e] eqn:Hresult.
      * destruct (run_dispatch_completed c argv _ executionGraph
                    runResult Hne Hresult) as (b & a & -> & _).
        cbn [snd]. right. now left.
      * now apply (run_dispatch_threw c argv _ executionGraph e).
    + rewrite (proj2 (bigqueryOptions_fields argv)). now rewrite Hdry.
    + intros runResult Hresult.
      destruct (run_dispatch_completed c argv _ executionGraph
                  runResult Hne Hresult) as (b & a & -> & Hsources & Hcovered).
      cbn [snd]. split; [|split].
      * apply in_or_app. right. apply in_or_app. right.
        apply in_or_app. right. now left.
      * intros action Hin Hstatus. specialize (Hcovered action Hin Hstatus).
        rewrite !printedNames_app. rewrite printedNames_app in Hcovered.
        apply elem_of_app. right. apply elem_of_app. right.
        apply elem_of_app in Hcovered as [Hcovered|Hcovered].
        -- apply elem_of_app. now left.
        -- apply elem_of_app. right. apply elem_of_app. now right.
      * intros executedAction executionAction dryRun Hin.
        assert (Hreport : In (printExecutedAction executedAction executionAction dryRun)
                            (b ++ a)%list).
        { apply in_app_or in Hin as [Hin|Hin].
          - apply (never_In _ _ _ Hquiet) in Hin. cbn in Hin. discriminate.
          - cbn [app] in Hin. destruct Hin as [Hin|[Hin|[Hin|[Hin|Hin]]]].
            + unfold startLine in Hin.
              destruct (Js.truthy_bool (Argv.dryRun argv)); discriminate.
            + discriminate.
            + discriminate.
            + discriminate.
            + apply in_app_or in Hin as [Hin|Hin]; [apply in_or_app; now left|].
              destruct Hin as [Hin|Hin]; [discriminate|].
              apply in_or_app. now right. }
        destruct (Hsources _ Hreport) as (g & action & Hg & Haction & Hstatus & Heq).
        injection Heq as -> -> ->. split; [now apply truthy_bool_true|].
        split; [assumption|]. now exists g.
Qed.

Lemma dry_run_output_witness :
  Js.truthy_bool (Argv.dryRun Sample.dryRunJson) = true
  /\ existsb is_dispatch (snd (run_processFn Sample.succeeding Sample.dryRunJson))
     = false
  /\ run_processFn Sample.succeeding Sample.dryRunJson
     = (Returned None,
        [call_compile (compileOptions Sample.dryRunJson);
         call_credentials_read (credentialsPath Sample.succeeding Sample.dryRunJson);
         call_build Sample.compiled (runConfig Sample.dryRunJson) Sample.adapter;
         printExecutionGraph Sample.graph true])
  /\ In (call_run Sample.adapter Sample.graph (bigqueryOptions Sample.dryRun))
       (snd (run_processFn Sample.failing Sample.dryRun))
  /\ In (await_result (Sample.resultOf FAILED))
       (snd (run_processFn Sample.failing Sample.dryRun)).
Proof.
  set (c := Sample.succeeding). set (argv := Sample.dryRunJson).
  assert (Hdry : Js.truthy_bool (Argv.dryRun argv) = true) by reflexivity.
  split; [exact Hdry|].
  destruct (dry_run_output c argv Hdry) as (Hjson & _).
  destruct (Hjson eq_refl) as (Hquiet & _ & Hgraph).
  split; [exact Hquiet|].
  split; [apply (Hgraph Sample.compiled Sample.storedCredentials Sample.graph);
          vm_compute; reflexivity|].
  assert (Hne : ExecutionGraph.actions Sample.graph <> []) by discriminate.
  destruct (dry_run_output Sample.failing Sample.dryRun eq_refl) as (_ & _ & _ & Hruns).
  destruct (Hruns eq_refl Sample.compiled Sample.storedCredentials Sample.graph
              eq_refl eq_refl eq_refl eq_refl (or_introl eq_refl) Hne)
    as (Hcall & _ & Hresult).
  split; [exact Hcall|].
  exact (proj1 (Hresult (Sample.resultOf FAILED) eq_refl)).
Defined.
